(** * Embedding processor for voice notes: a shallow embedding

    Model of [src/process_embeddings.py] (class [EmbeddingProcessor]):
    the text assembler, the validation pass, the retry wrappers around the
    provider calls, the single and batch dispatch loops, the persistence
    step and the run statistics; and of what surrounds it: the start-up
    check of the environment, the interactive choice of the provider, the
    exit status of [main] and the titles shown in progress lines.

    Conventions.
    - A Python [str] is a [string]; each [ascii] stands for the code point
      of the same number (0..255).
    - A value decoded from JSON (a column of a fetched row, the result of
      [json.loads]) is a [json].
    - Module constants ([MAX_RETRIES], [GEMINI_BATCH_SIZE], ...) are the
      fields of a [config]; [source_config] carries the values of the file.
    - What the Python runtime and the two remote services do is not code of
      the file: [json.loads], [str] on non-strings and dictionary key
      matching are the fields of a [runtime]; the replies of the provider
      and of the store are the fields of an [environment], indexed by the
      number of earlier calls.
    - Effects are explicit: a computation is a function from [state] to a
      result and a new [state]; the state carries [self.stats], the two
      report lists and the ordered trace of observable events. *)

From Stdlib Require Import List String Ascii ZArith Lia Bool Arith PeanoNat.
From Stdlib Require Import Permutation PrimFloat DecimalString.
Import ListNotations.
Open Scope string_scope.
Open Scope list_scope.
Open Scope nat_scope.

Set Implicit Arguments.
(* [length] is the length of a list; the length of a string is written
   [String.length]. *)
Abbreviation length := List.length (only parsing).
Set Warnings "-register-all,-inexact-float,-abstract-large-number".

(** ** Python strings *)

Module PyStr.

(** [str.isspace] on the code points below 256. *)
Definition is_space (c : ascii) : bool :=
  let n := nat_of_ascii c in
  (((9 <=? n) && (n <=? 13)) || ((28 <=? n) && (n <=? 32))
   || (n =? 133) || (n =? 160))%nat.

Fixpoint lstrip (s : string) : string :=
  match s with
  | EmptyString => EmptyString
  | String c rest => if is_space c then lstrip rest else s
  end.

Fixpoint rstrip (s : string) : string :=
  match s with
  | EmptyString => EmptyString
  | String c rest =>
      match rstrip rest with
      | EmptyString => if is_space c then EmptyString else String c EmptyString
      | r => String c r
      end
  end.

(** [s.strip()] *)
Definition strip (s : string) : string := rstrip (lstrip s).

(** Truth value of a string: [bool(s)]. *)
Definition nonempty (s : string) : bool :=
  match s with EmptyString => false | _ => true end.

(** [sep.join(parts)] *)
Definition join (sep : string) (parts : list string) : string :=
  String.concat sep parts.

(** [str(n)] for an integer. *)
Definition of_Z (n : Z) : string := NilZero.string_of_int (Z.to_int n).

End PyStr.

(** ** Values and exceptions *)

Inductive json : Type :=
| JNull
| JBool (b : bool)
| JInt (n : Z)
| JFloat (f : float)
| JStr (s : string)
| JList (items : list json)
| JDict (entries : list (string * json)).

(** A row of the store, as the client library delivers it. *)
Definition dict : Type := list (string * json).

(** [d.get(key)]: [None] when the key is absent. *)
Fixpoint get (key : string) (d : dict) : json :=
  match d with
  | [] => JNull
  | (k, v) :: rest => if String.eqb k key then v else get key rest
  end.

(** [bool(v)] *)
Definition truthy (v : json) : bool :=
  match v with
  | JNull => false
  | JBool b => b
  | JInt n => negb (n =? 0)%Z
  | JFloat f => negb (PrimFloat.eqb f 0%float)
  | JStr s => PyStr.nonempty s
  | JList l => match l with [] => false | _ => true end
  | JDict d => match d with [] => false | _ => true end
  end.

(** [a or b] *)
Definition py_or (a b : json) : json := if truthy a then a else b.

(** Lists and dictionaries cannot be dictionary keys. *)
Definition hashable (v : json) : bool :=
  match v with
  | JList _ | JDict _ => false
  | _ => true
  end.

(** Exceptions.  [SystemExit] is not an [Exception]: an
    [except Exception] clause lets it through. *)
Inductive exn : Type :=
| AttributeError
| TypeError
| IndexError
| ZeroDivisionError
| JSONDecodeError
| RemoteError (msg : string)
| OtherError (name : string)
| SystemExit (code : Z).

Definition is_Exception (e : exn) : bool :=
  match e with SystemExit _ => false | _ => true end.

Inductive result (A : Type) : Type :=
| Ok (a : A)
| Raise (e : exn).
Arguments Ok {A} a.
Arguments Raise {A} e.

Definition rbind {A B} (r : result A) (k : A -> result B) : result B :=
  match r with
  | Ok a => k a
  | Raise e => Raise e
  end.

Declare Scope result_scope.
Delimit Scope result_scope with result.
Notation "x <- r ;; k" := (rbind r (fun x => k))
  (at level 61, r at next level, right associativity) : result_scope.

(** ** What the Python runtime provides *)

Record runtime : Type := {
  (** [json.loads]: the decoded value, or the exception it raises *)
  json_loads : string -> result json;
  (** [str(v)] for a float, a list or a dictionary *)
  py_repr : json -> string;
  (** key matching of [dict]: same key as far as a lookup is concerned *)
  py_key_eq : json -> json -> bool
}.

(** ** Module constants *)

Record config : Type := {
  BATCH_LIMIT : nat;
  DELAY_BETWEEN_CALLS : float;
  MAX_RETRIES : nat;
  MAX_TEXT_LENGTH : nat;
  EXPECTED_VECTOR_DIMENSION : nat;
  GEMINI_BATCH_SIZE : nat
}.

Definition source_config : config := {|
  BATCH_LIMIT := 50;
  DELAY_BETWEEN_CALLS := 0.2%float;
  MAX_RETRIES := 3;
  MAX_TEXT_LENGTH := 8000;
  EXPECTED_VECTOR_DIMENSION := 1536;
  GEMINI_BATCH_SIZE := 10
|}.

Inductive EmbeddingProvider : Type := OPENAI | GEMINI.

(** [PROVIDER_CONFIG[p]["supports_batch"]] *)
Definition supports_batch (p : EmbeddingProvider) : bool :=
  match p with OPENAI => false | GEMINI => true end.

(** ** The text assembler *)

Section Assembler.

Variable py : runtime.

(** [str(tag)] *)
Definition py_str (v : json) : string :=
  match v with
  | JStr s => s
  | JNull => "None"
  | JBool true => "True"
  | JBool false => "False"
  | JInt n => PyStr.of_Z n
  | _ => py_repr py v
  end.

(** [v.strip()]: only a string has the method. *)
Definition str_strip (v : json) : result string :=
  match v with
  | JStr s => Ok (PyStr.strip s)
  | _ => Raise AttributeError
  end.

(** The [if tags:] block: the value the tags resolve to. *)
Definition resolve_tags (tags : json) : result json :=
  match tags with
  | JStr s =>
      match json_loads py s with
      | Ok v => Ok v
      | Raise JSONDecodeError => Ok (JList [tags])
      | Raise e => Raise e
      end
  | _ => Ok tags
  end.

Definition _build_text_for_embedding (note : dict) : result string :=
  (let parts := @nil string in
   let title := py_or (get "title" note) (JStr "") in
   title_s <- str_strip title ;;
   let parts :=
     if PyStr.nonempty title_s then parts ++ ["Title: " ++ title_s]%string
     else parts in
   let excerpt := py_or (get "excerpt" note) (JStr "") in
   excerpt_s <- str_strip excerpt ;;
   let parts :=
     if PyStr.nonempty excerpt_s then parts ++ ["Excerpt: " ++ excerpt_s]%string
     else parts in
   let categories := py_or (get "categories" note) (JStr "") in
   categories_s <- str_strip categories ;;
   let parts :=
     if PyStr.nonempty categories_s
     then parts ++ ["Category: " ++ categories_s]%string
     else parts in
   let tags := get "tags" note in
   parts <-
     (if truthy tags then
        tags <- resolve_tags tags ;;
        match tags with
        | JList ((_ :: _) as l) =>
            let tags_str := PyStr.join ", " (map py_str l) in
            Ok (parts ++ ["Tags: " ++ tags_str]%string)
        | _ => Ok parts
        end
      else Ok parts) ;;
   let transcription := py_or (get "transcription" note) (JStr "") in
   transcription_s <- str_strip transcription ;;
   let parts :=
     if PyStr.nonempty transcription_s
     then parts ++ ["Content: " ++ transcription_s]%string
     else parts in
   Ok (PyStr.join " | " parts))%result.

End Assembler.

(** ** A reference runtime

    An instance of [runtime] to run the model on concrete rows: a decoder
    for JSON documents made of [null], booleans, integers, strings with the
    one-letter escapes, arrays and objects.  Anything else (fractions,
    exponents, unicode escapes) is reported as [OtherError]; none of the
    general theorems depends on this instance. *)

Module RefRuntime.

Local Open Scope char_scope.

Definition quote : ascii := "034".
Definition backslash : ascii := "092".

Definition is_ws (c : ascii) : bool :=
  match nat_of_ascii c with
  | 9 | 10 | 13 | 32 => true
  | _ => false
  end.

Fixpoint skip_ws (l : list ascii) : list ascii :=
  match l with
  | c :: r => if is_ws c then skip_ws r else l
  | [] => []
  end.

Definition digit (c : ascii) : option Z :=
  let n := nat_of_ascii c in
  if ((48 <=? n) && (n <=? 57))%nat then Some (Z.of_nat (n - 48)) else None.

Fixpoint digits (l : list ascii) (acc : Z) : Z * list ascii :=
  match l with
  | c :: r =>
      match digit c with
      | Some d => digits r (10 * acc + d)%Z
      | None => (acc, l)
      end
  | [] => (acc, [])
  end.

(** [None]: a malformed document; [Some (inl _)]: outside the fragment. *)
Definition parsed (A : Type) : Type := option (string + A * list ascii).

Definition natural (l : list ascii) : parsed Z :=
  match l with
  | "0" :: r =>
      match r with
      | c :: _ => match digit c with Some _ => None | None => Some (inr (0%Z, r)) end
      | [] => Some (inr (0%Z, r))
      end
  | c :: _ =>
      match digit c with
      | Some _ => Some (inr (digits l 0))
      | None => None
      end
  | [] => None
  end.

Definition number (negative : bool) (l : list ascii) : parsed json :=
  match natural l with
  | Some (inr (n, r)) =>
      match r with
      | "." :: _ | "e" :: _ | "E" :: _ => Some (inl "float"%string)
      | _ => Some (inr (JInt (if negative then - n else n)%Z, r))
      end
  | Some (inl m) => Some (inl m)
  | None => None
  end.

Fixpoint string_body (l : list ascii) (acc : string) : parsed string :=
  match l with
  | [] => None
  | c :: r =>
      if Ascii.eqb c quote then Some (inr (acc, r))
      else if Ascii.eqb c backslash then
        match r with
        | e :: r' =>
            let unescaped :=
              if Ascii.eqb e quote then Some quote
              else if Ascii.eqb e backslash then Some backslash
              else match e with
                   | "/" => Some "/"
                   | "b" => Some "008"
                   | "f" => Some "012"
                   | "n" => Some "010"
                   | "r" => Some "013"
                   | "t" => Some "009"
                   | _ => None
                   end in
            match unescaped with
            | Some u => string_body r' (acc ++ String u EmptyString)%string
            | None => if Ascii.eqb e "u" then Some (inl "unicode escape"%string) else None
            end
        | [] => None
        end
      else if (nat_of_ascii c <? 32)%nat then None
      else string_body r (acc ++ String c EmptyString)%string
  end.

Fixpoint value (fuel : nat) (l : list ascii) : parsed json :=
  match fuel with
  | 0 => Some (inl "recursion"%string)
  | S f =>
      match skip_ws l with
      | "n" :: "u" :: "l" :: "l" :: r => Some (inr (JNull, r))
      | "t" :: "r" :: "u" :: "e" :: r => Some (inr (JBool true, r))
      | "f" :: "a" :: "l" :: "s" :: "e" :: r => Some (inr (JBool false, r))
      | "-" :: r => number true r
      | "[" :: r =>
          match skip_ws r with
          | "]" :: r' => Some (inr (JList [], r'))
          | _ => elements f r []
          end
      | "{" :: r =>
          match skip_ws r with
          | "}" :: r' => Some (inr (JDict [], r'))
          | _ => members f r []
          end
      | c :: r =>
          if Ascii.eqb c quote then
            match string_body r ""%string with
            | Some (inr (s, r')) => Some (inr (JStr s, r'))
            | Some (inl m) => Some (inl m)
            | None => None
            end
          else number false (c :: r)
      | [] => None
      end
  end
with elements (fuel : nat) (l : list ascii) (acc : list json) : parsed json :=
  match fuel with
  | 0 => Some (inl "recursion"%string)
  | S f =>
      match value f l with
      | Some (inr (v, r)) =>
          match skip_ws r with
          | "," :: r' => elements f r' (acc ++ [v])
          | "]" :: r' => Some (inr (JList (acc ++ [v]), r'))
          | _ => None
          end
      | other => other
      end
  end
with members (fuel : nat) (l : list ascii) (acc : list (string * json))
  : parsed json :=
  match fuel with
  | 0 => Some (inl "recursion"%string)
  | S f =>
      match skip_ws l with
      | c :: r =>
          if Ascii.eqb c quote then
            match string_body r ""%string with
            | Some (inr (k, r1)) =>
                match skip_ws r1 with
                | ":" :: r2 =>
                    match value f r2 with
                    | Some (inr (v, r3)) =>
                        match skip_ws r3 with
                        | "," :: r4 => members f r4 (acc ++ [(k, v)])
                        | "}" :: r4 => Some (inr (JDict (acc ++ [(k, v)]), r4))
                        | _ => None
                        end
                    | other => other
                    end
                | _ => None
                end
            | Some (inl m) => Some (inl m)
            | None => None
            end
          else None
      | [] => None
      end
  end.

Definition loads (s : string) : result json :=
  let l := list_ascii_of_string s in
  match value (S (List.length l)) l with
  | Some (inr (v, r)) =>
      match skip_ws r with
      | [] => Ok v
      | _ => Raise JSONDecodeError
      end
  | Some (inl m) => Raise (OtherError m)
  | None => Raise JSONDecodeError
  end.

(** Key matching on integer and string identities. *)
Definition key_eq (a b : json) : bool :=
  match a, b with
  | JInt x, JInt y => (x =? y)%Z
  | JStr x, JStr y => String.eqb x y
  | JNull, JNull => true
  | _, _ => false
  end.

Definition rt : runtime := {|
  json_loads := loads;
  py_repr := fun _ => "<repr>"%string;
  py_key_eq := key_eq
|}.

(** The document [["a","b"]]. *)
Definition tags_a_b : string :=
  ("[" ++ String quote ("a" ++ String quote ("," ++ String quote
     ("b" ++ String quote "]"))))%string.

End RefRuntime.

(** ** Run state and observable events *)

Definition vector : Type := list float.

Record Stats : Type := {
  total_found : Z;
  processed : Z;
  errors : Z;
  skipped_too_long : Z;
  skipped_empty : Z;
  api_calls : Z
}.

(** An entry of [self.skipped_notes]. *)
Record skipped_note : Type := {
  skipped_id : json;
  skipped_title : json;
  text_length : nat
}.

(** An entry of [self.error_notes]. *)
Record error_note : Type := {
  error_id : json;
  error_title : json;
  error : string
}.

Inductive level : Type := INFO | SUCCESS | WARNING | ERROR | DEBUG.

(** The logger calls of the processor, with the values they interpolate.
    Console-only [print] calls and the banner lines are left out. *)
Inductive message : Type :=
| MsgDryRunActive
| MsgFetching
| MsgFetchFailed (reason : string)
| MsgNothingToProcess
| MsgFound (n : nat)
| MsgMorePending (total_pending : Z)
| MsgSkippedEmpty (note_id : json)
| MsgSkippedTooLong (note_id : json) (len : nat)
| MsgNoValidNotes
| MsgValidReady (n : nat)
| MsgProcessing (note_id title : json)
| MsgUnexpectedDimension (who : option json) (len : nat)
| MsgAttemptFailed (who : option json) (attempt : nat) (wait_time : Z)
| MsgAllAttemptsFailed (who : option json)
| MsgBatchDebug (n_texts : nat)
| MsgBatchPlan (total calls : nat)
| MsgBatchProgress (first last total : nat)
| MsgDryRunUpdate (note_id : json)
| MsgNoDataReturned (note_id : json)
| MsgUpdateFailed (note_id : json)
| MsgUpdated (note_id : json).

(** The argument of [time.sleep]. *)
Inductive seconds : Type :=
| IntSeconds (n : Z)
| FloatSeconds (f : float).

(** The closing line of the report. *)
Inductive verdict : Type :=
| Completed
| PartiallyCompleted (remaining : Z)
| NothingProcessed.

Inductive event : Type :=
| Log (lvl : level) (m : message)
| Sleep (d : seconds)
| FetchNotes
| CountPending
| EmbedOne (p : EmbeddingProvider) (text : string)
| EmbedBatch (texts : list string)
| Update (note_id : json) (embedding : vector)
| Report (snapshot : Stats) (skipped : list skipped_note)
    (failed : list error_note) (v : verdict).

Record state : Type := {
  stats : Stats;
  skipped_notes : list skipped_note;
  error_notes : list error_note;
  trace : list event;
  provider_calls : nat;
  store_calls : nat
}.

Definition initial_stats : Stats := {|
  total_found := 0; processed := 0; errors := 0;
  skipped_too_long := 0; skipped_empty := 0; api_calls := 0
|}.

(** The processor after [__init__]. *)
Definition initial_state : state := {|
  stats := initial_stats;
  skipped_notes := [];
  error_notes := [];
  trace := [];
  provider_calls := 0;
  store_calls := 0
|}.

Definition set_stats (f : Stats -> Stats) (s : state) : state := {|
  stats := f (stats s);
  skipped_notes := skipped_notes s;
  error_notes := error_notes s;
  trace := trace s;
  provider_calls := provider_calls s;
  store_calls := store_calls s
|}.

Definition set_total_found (n : Z) (t : Stats) : Stats := {|
  total_found := n; processed := processed t; errors := errors t;
  skipped_too_long := skipped_too_long t; skipped_empty := skipped_empty t;
  api_calls := api_calls t
|}.

Definition incr_processed (t : Stats) : Stats := {|
  total_found := total_found t; processed := processed t + 1;
  errors := errors t; skipped_too_long := skipped_too_long t;
  skipped_empty := skipped_empty t; api_calls := api_calls t
|}.

Definition incr_errors (t : Stats) : Stats := {|
  total_found := total_found t; processed := processed t;
  errors := errors t + 1; skipped_too_long := skipped_too_long t;
  skipped_empty := skipped_empty t; api_calls := api_calls t
|}.

Definition incr_skipped_too_long (t : Stats) : Stats := {|
  total_found := total_found t; processed := processed t;
  errors := errors t; skipped_too_long := skipped_too_long t + 1;
  skipped_empty := skipped_empty t; api_calls := api_calls t
|}.

Definition incr_skipped_empty (t : Stats) : Stats := {|
  total_found := total_found t; processed := processed t;
  errors := errors t; skipped_too_long := skipped_too_long t;
  skipped_empty := skipped_empty t + 1; api_calls := api_calls t
|}.

Definition incr_api_calls (t : Stats) : Stats := {|
  total_found := total_found t; processed := processed t;
  errors := errors t; skipped_too_long := skipped_too_long t;
  skipped_empty := skipped_empty t; api_calls := api_calls t + 1
|}.

(** ** Computations *)

Definition M (A : Type) : Type := state -> result A * state.

Definition ret {A} (a : A) : M A := fun s => (Ok a, s).

Definition raise {A} (e : exn) : M A := fun s => (Raise e, s).

Definition bind {A B} (m : M A) (k : A -> M B) : M B :=
  fun s =>
    match m s with
    | (Ok a, s') => k a s'
    | (Raise e, s') => (Raise e, s')
    end.

(** [try: m  except Exception as e: handler e] *)
Definition try_except {A} (m : M A) (handler : exn -> M A) : M A :=
  fun s =>
    match m s with
    | (Ok a, s') => (Ok a, s')
    | (Raise e, s') =>
        if is_Exception e then handler e s' else (Raise e, s')
    end.

Definition lift {A} (r : result A) : M A := fun s => (r, s).

Declare Scope proc_scope.
Delimit Scope proc_scope with proc.
Notation "x <- m ;; k" := (bind m (fun x => k))
  (at level 61, m at next level, right associativity) : proc_scope.
Notation "m ;; k" := (bind m (fun _ => k))
  (at level 61, right associativity) : proc_scope.

Definition emit (e : event) : M unit :=
  fun s => (Ok tt, {|
    stats := stats s;
    skipped_notes := skipped_notes s;
    error_notes := error_notes s;
    trace := trace s ++ [e];
    provider_calls := provider_calls s;
    store_calls := store_calls s
  |}).

Definition log (lvl : level) (m : message) : M unit := emit (Log lvl m).

Definition sleep (d : seconds) : M unit := emit (Sleep d).

Definition update_stats (f : Stats -> Stats) : M unit :=
  fun s => (Ok tt, set_stats f s).

Definition append_skipped (n : skipped_note) : M unit :=
  fun s => (Ok tt, {|
    stats := stats s;
    skipped_notes := skipped_notes s ++ [n];
    error_notes := error_notes s;
    trace := trace s;
    provider_calls := provider_calls s;
    store_calls := store_calls s
  |}).

Definition append_error (n : error_note) : M unit :=
  fun s => (Ok tt, {|
    stats := stats s;
    skipped_notes := skipped_notes s;
    error_notes := error_notes s ++ [n];
    trace := trace s;
    provider_calls := provider_calls s;
    store_calls := store_calls s
  |}).

(** [for x in xs: body x] *)
Fixpoint for_each {A} (xs : list A) (body : A -> M unit) : M unit :=
  match xs with
  | [] => ret tt
  | x :: rest => (body x ;; for_each rest body)%proc
  end.

(** A loop that rebinds a local variable. *)
Fixpoint fold_each {A B} (xs : list A) (acc : B) (body : B -> A -> M B)
  : M B :=
  match xs with
  | [] => ret acc
  | x :: rest => (acc' <- body acc x ;; fold_each rest acc' body)%proc
  end.

(** ** The remote services *)

(** What a remote call does: it raises, or it returns. *)
Inductive remote (A : Type) : Type :=
| Fails (reason : string)
| Returns (a : A).
Arguments Fails {A} reason.
Arguments Returns {A} a.

(** The replies are indexed by the number of earlier calls to the same
    service.  A provider response may lack the embedding ([None]): the
    call is then counted and the extraction raises. *)
Record environment : Type := {
  fetch_notes : remote (list dict);
  count_pending : remote (option Z);
  embed_one : nat -> EmbeddingProvider -> string -> remote (option vector);
  embed_batch : nat -> list string -> remote (option (list vector));
  store_update : nat -> json -> vector -> remote bool
}.

Definition provider_call {A} (e : event) (reply : nat -> remote A) : M A :=
  fun s =>
    let s' := {|
      stats := stats s;
      skipped_notes := skipped_notes s;
      error_notes := error_notes s;
      trace := trace s ++ [e];
      provider_calls := S (provider_calls s);
      store_calls := store_calls s
    |} in
    match reply (provider_calls s) with
    | Fails reason => (Raise (RemoteError reason), s')
    | Returns a => (Ok a, s')
    end.

Definition store_call {A} (e : event) (reply : nat -> remote A) : M A :=
  fun s =>
    let s' := {|
      stats := stats s;
      skipped_notes := skipped_notes s;
      error_notes := error_notes s;
      trace := trace s ++ [e];
      provider_calls := provider_calls s;
      store_calls := S (store_calls s)
    |} in
    match reply (store_calls s) with
    | Fails reason => (Raise (RemoteError reason), s')
    | Returns a => (Ok a, s')
    end.

(** A store query whose reply does not depend on earlier calls. *)
Definition query {A} (e : event) (reply : remote A) : M A :=
  (emit e ;;
   match reply with
   | Fails reason => raise (RemoteError reason)
   | Returns a => ret a
   end)%proc.

(** ** The processor *)

(** [range(start, stop, step)] for a positive step, unrolled as the
    interpreter does: the next value while it is below [stop]. *)
Fixpoint py_range_from (fuel start stop step : nat) : list nat :=
  match fuel with
  | 0 => []
  | S fuel' =>
      if start <? stop
      then start :: py_range_from fuel' (start + step) stop step
      else []
  end.

Definition py_range (start stop step : nat) : list nat :=
  py_range_from (stop - start) start stop step.

(** [l[a:b]] for [0 <= a]. *)
Definition slice {A} (l : list A) (a b : nat) : list A :=
  firstn (b - a) (skipn a l).

(** [enumerate(l, start)] *)
Definition enumerate {A} (l : list A) (start : nat) : list (nat * A) :=
  combine (seq start (length l)) l.

(** The result of [_generate_embeddings_batch_with_retry]: the pairs in
    insertion order; a later pair with a matching key overrides. *)
Definition embeddings_dict : Type := list (json * option vector).

Definition generation_failed : string := "Generazione embedding fallita".
Definition generation_failed_in_batch : string :=
  "Generazione embedding fallita nel batch".
Definition update_failed : string := "Aggiornamento database fallito".
Definition untitled : json := JStr "Senza titolo".

Section Processor.

Variable cfg : config.
Variable py : runtime.
Variable env : environment.
(** [self.provider] and [self.dry_run] *)
Variable provider : EmbeddingProvider.
Variable dry_run : bool.

Local Open Scope proc_scope.

(** The value that a lookup of a hashable key finds: the value of the
    last pair with a matching key. *)
Definition dict_lookup (note_id : json) (d : embeddings_dict)
  : option vector :=
  fold_left
    (fun found kv => if py_key_eq py (fst kv) note_id then snd kv else found)
    d None.

(** [embeddings.get(note_id)]: the key is hashed first, which raises
    [TypeError] for a list or a dictionary. *)
Definition dict_get (note_id : json) (d : embeddings_dict)
  : result (option vector) :=
  if hashable note_id then Ok (dict_lookup note_id d) else Raise TypeError.

(** [dict(zip(note_ids, embeddings))] *)
Definition dict_of_zip (note_ids : list json) (embeddings : list vector)
  : result embeddings_dict :=
  let pairs := combine note_ids embeddings in
  if forallb (fun kv => hashable (fst kv)) pairs
  then Ok (map (fun kv => (fst kv, Some (snd kv))) pairs)
  else Raise TypeError.

(** [{note_id: None for note_id in note_ids}] *)
Definition dict_of_none (note_ids : list json) : result embeddings_dict :=
  if forallb hashable note_ids
  then Ok (map (fun k => (k, @None vector)) note_ids)
  else Raise TypeError.

Definition extract {A} (body : option A) : M A :=
  match body with
  | Some a => ret a
  | None => raise (OtherError "LookupError")
  end.

Definition _generate_embedding_openai (text : string) : M vector :=
  response <- provider_call (EmbedOne OPENAI text)
                (fun n => embed_one env n OPENAI text) ;;
  update_stats incr_api_calls ;;
  extract response.

Definition _generate_embedding_gemini (text : string) : M vector :=
  response <- provider_call (EmbedOne GEMINI text)
                (fun n => embed_one env n GEMINI text) ;;
  update_stats incr_api_calls ;;
  extract response.

Definition _generate_embeddings_gemini_batch (texts : list string)
  : M (list vector) :=
  log DEBUG (MsgBatchDebug (length texts)) ;;
  response <- provider_call (EmbedBatch texts)
                (fun n => embed_batch env n texts) ;;
  update_stats incr_api_calls ;;
  extract response.

(** The loop [for attempt in range(1, MAX_RETRIES + 1)] of the two retry
    wrappers, which differ in the body of the [try], in the value returned
    when the attempts are used up, and in the subject of the log lines.
    [remaining] counts the iterations left, [attempt] is the loop
    variable. *)
Fixpoint retry_loop {R} (who : option json) (body : M R) (exhausted : M R)
  (remaining attempt : nat) : M R :=
  match remaining with
  | 0 => exhausted
  | S remaining' =>
      try_except body
        (fun e =>
           let wait_time := (2 ^ Z.of_nat attempt)%Z in
           if attempt <? MAX_RETRIES cfg then
             log WARNING (MsgAttemptFailed who attempt wait_time) ;;
             sleep (IntSeconds wait_time) ;;
             retry_loop who body exhausted remaining' (S attempt)
           else
             log ERROR (MsgAllAttemptsFailed who) ;;
             exhausted)
  end.

(** The body of the [try] in [_generate_embedding_with_retry]. *)
Definition single_attempt (text : string) : M (option vector) :=
  embedding <- match provider with
               | OPENAI => _generate_embedding_openai text
               | GEMINI => _generate_embedding_gemini text
               end ;;
  (if negb (length embedding =? EXPECTED_VECTOR_DIMENSION cfg)
   then log WARNING (MsgUnexpectedDimension None (length embedding))
   else ret tt) ;;
  ret (Some embedding).

Definition _generate_embedding_with_retry (text : string) (note_id : json)
  : M (option vector) :=
  retry_loop (Some note_id) (single_attempt text) (ret None)
    (MAX_RETRIES cfg) 1.

(** [for i, embedding in enumerate(embeddings)]: the warning names
    [note_ids[i]]. *)
Fixpoint check_dimensions (note_ids : list json) (i : nat)
  (embeddings : list vector) : M unit :=
  match embeddings with
  | [] => ret tt
  | embedding :: rest =>
      (if negb (length embedding =? EXPECTED_VECTOR_DIMENSION cfg) then
         match nth_error note_ids i with
         | Some note_id =>
             log WARNING
               (MsgUnexpectedDimension (Some note_id) (length embedding))
         | None => raise IndexError
         end
       else ret tt) ;;
      check_dimensions note_ids (S i) rest
  end.

(** The body of the [try] in [_generate_embeddings_batch_with_retry]. *)
Definition batch_attempt (texts : list string) (note_ids : list json)
  : M embeddings_dict :=
  embeddings <- _generate_embeddings_gemini_batch texts ;;
  check_dimensions note_ids 0 embeddings ;;
  lift (dict_of_zip note_ids embeddings).

Definition _generate_embeddings_batch_with_retry
  (texts_with_ids : list (string * json * json)) : M embeddings_dict :=
  let texts := map (fun t => fst (fst t)) texts_with_ids in
  let note_ids := map (fun t => snd (fst t)) texts_with_ids in
  retry_loop None (batch_attempt texts note_ids)
    (lift (dict_of_none note_ids)) (MAX_RETRIES cfg) 1.

Definition _update_note_embedding (note_id : json) (embedding : vector)
  : M bool :=
  try_except
    (if dry_run then
       log INFO (MsgDryRunUpdate note_id) ;;
       ret true
     else
       data <- store_call (Update note_id embedding)
                 (fun n => store_update env n note_id embedding) ;;
       if (data : bool) then ret true
       else log WARNING (MsgNoDataReturned note_id) ;; ret false)
    (fun e => log ERROR (MsgUpdateFailed note_id) ;; ret false).

Definition record_error (note_id title : json) (reason : string) : M unit :=
  update_stats incr_errors ;;
  append_error
    {| error_id := note_id; error_title := title; error := reason |}.

(** The block "Aggiorna il database" shared by the two dispatch loops. *)
Definition persist (note_id title : json) (embedding : vector) : M unit :=
  updated <- _update_note_embedding note_id embedding ;;
  if (updated : bool) then
    log SUCCESS (MsgUpdated note_id) ;;
    update_stats incr_processed
  else record_error note_id title update_failed.

(** One iteration of the loop of [_process_notes_single]. *)
Definition single_iteration (total : nat) (item : nat * (dict * string))
  : M unit :=
  let '(index, (note, text)) := item in
  let note_id := get "id" note in
  let title := py_or (get "title" note) untitled in
  log INFO (MsgProcessing note_id title) ;;
  embedding <- _generate_embedding_with_retry text note_id ;;
  match embedding with
  | None => record_error note_id title generation_failed
  | Some embedding =>
      persist note_id title embedding ;;
      if index <? total then sleep (FloatSeconds (DELAY_BETWEEN_CALLS cfg))
      else ret tt
  end.

Definition _process_notes_single (valid_notes : list (dict * string))
  : M unit :=
  for_each (enumerate valid_notes 1) (single_iteration (length valid_notes)).

(** One iteration of the inner loop of [_process_notes_batch]. *)
Definition batch_record (embeddings : embeddings_dict)
  (item : dict * string) : M unit :=
  let '(note, text) := item in
  let note_id := get "id" note in
  let title := py_or (get "title" note) untitled in
  embedding <- lift (dict_get note_id embeddings) ;;
  match embedding with
  | None => record_error note_id title generation_failed_in_batch
  | Some embedding => persist note_id title embedding
  end.

(** One iteration of the outer loop of [_process_notes_batch]. *)
Definition batch_iteration (valid_notes : list (dict * string))
  (total_notes batch_start : nat) : M unit :=
  let batch_end := Nat.min (batch_start + GEMINI_BATCH_SIZE cfg) total_notes in
  let batch_notes := slice valid_notes batch_start batch_end in
  log INFO (MsgBatchProgress (batch_start + 1) batch_end total_notes) ;;
  let texts_with_ids :=
    map (fun item : dict * string =>
           (snd item, get "id" (fst item),
            py_or (get "title" (fst item)) untitled))
        batch_notes in
  embeddings <- _generate_embeddings_batch_with_retry texts_with_ids ;;
  for_each batch_notes (batch_record embeddings) ;;
  if batch_end <? total_notes
  then sleep (FloatSeconds (DELAY_BETWEEN_CALLS cfg))
  else ret tt.

Definition _process_notes_batch (valid_notes : list (dict * string))
  : M unit :=
  let total_notes := length valid_notes in
  if GEMINI_BATCH_SIZE cfg =? 0 then raise ZeroDivisionError
  else
    log INFO
      (MsgBatchPlan total_notes
         ((total_notes + GEMINI_BATCH_SIZE cfg - 1) / GEMINI_BATCH_SIZE cfg)) ;;
    for_each (py_range 0 total_notes (GEMINI_BATCH_SIZE cfg))
      (batch_iteration valid_notes total_notes).

Definition final_verdict (t : Stats) : verdict :=
  if (processed t =? total_found t)%Z then Completed
  else if (0 <? processed t)%Z
       then PartiallyCompleted (total_found t - processed t)
       else NothingProcessed.

Definition _print_final_report : M unit :=
  fun s =>
    emit (Report (stats s) (skipped_notes s) (error_notes s)
            (final_verdict (stats s))) s.

(** One iteration of the loop of step 3 of [process]. *)
Definition validate_note (valid_notes : list (dict * string)) (note : dict)
  : M (list (dict * string)) :=
  let note_id := get "id" note in
  let title := py_or (get "title" note) untitled in
  text <- lift (_build_text_for_embedding py note) ;;
  if negb (PyStr.nonempty (PyStr.strip text)) then
    log WARNING (MsgSkippedEmpty note_id) ;;
    update_stats incr_skipped_empty ;;
    ret valid_notes
  else if MAX_TEXT_LENGTH cfg <? String.length text then
    log WARNING (MsgSkippedTooLong note_id (String.length text)) ;;
    update_stats incr_skipped_too_long ;;
    append_skipped
      {| skipped_id := note_id; skipped_title := title;
         text_length := String.length text |} ;;
    ret valid_notes
  else ret (valid_notes ++ [(note, text)]).

(** Step 2 of [process]: the informative count, failures ignored. *)
Definition count_step (notes : list dict) : M unit :=
  try_except
    (count <- query CountPending (count_pending env) ;;
     let total_pending :=
       match count with
       | Some c => if (c =? 0)%Z then Z.of_nat (length notes) else c
       | None => Z.of_nat (length notes)
       end in
     if (Z.of_nat (BATCH_LIMIT cfg) <? total_pending)%Z
     then log INFO (MsgMorePending total_pending)
     else ret tt)
    (fun _ => ret tt).

Definition process : M unit :=
  (if dry_run then log WARNING MsgDryRunActive else ret tt) ;;
  log INFO MsgFetching ;;
  notes <- try_except (query FetchNotes (fetch_notes env))
             (fun e =>
                log ERROR
                  (MsgFetchFailed
                     match e with RemoteError r => r | _ => "" end) ;;
                raise (SystemExit 1)) ;;
  update_stats (set_total_found (Z.of_nat (length notes))) ;;
  match notes with
  | [] =>
      log SUCCESS MsgNothingToProcess ;;
      _print_final_report
  | _ :: _ =>
      log SUCCESS (MsgFound (length notes)) ;;
      count_step notes ;;
      valid_notes <- fold_each notes [] validate_note ;;
      match valid_notes with
      | [] =>
          log WARNING MsgNoValidNotes ;;
          _print_final_report
      | _ :: _ =>
          log INFO (MsgValidReady (length valid_notes)) ;;
          (if match provider with GEMINI => true | OPENAI => false end
              && supports_batch provider
           then _process_notes_batch valid_notes
           else _process_notes_single valid_notes) ;;
          _print_final_report
      end
  end.

End Processor.

(** * Specification vocabulary *)

(** ** The assembled text, in the words of the specification *)

Section AssemblerSpec.

Variable py : runtime.

(** The text of a column: the empty string when the column is null or
    empty, nothing when it holds something that is not a string. *)
Definition field_text (v : json) : option string :=
  match py_or v (JStr "") with
  | JStr s => Some s
  | _ => None
  end.

(** The segment of a text column: "Label: value" with the value trimmed,
    or no segment when the trimmed value is empty. *)
Definition labelled (label value : string) : list string :=
  if PyStr.nonempty (PyStr.strip value)
  then [(label ++ ": " ++ PyStr.strip value)%string]
  else [].

(** The segment of the tags: present when the value is truthy and is, or
    decodes to, a non-empty list; a string that does not decode is a list
    of one tag.  The elements are joined as they are. *)
Definition tags_segment (tags : json) : result (list string) :=
  if truthy tags then
    match resolve_tags py tags with
    | Ok (JList ((_ :: _) as l)) =>
        Ok [("Tags: " ++ PyStr.join ", " (map (py_str py) l))%string]
    | Ok _ => Ok []
    | Raise e => Raise e
    end
  else Ok [].

End AssemblerSpec.

(** ** Sample rows and services *)

Module Sample.

(** A row with its keys in an arbitrary order. *)
Definition memo : dict :=
  [("transcription", JStr "  call the plumber ");
   ("tags", JStr RefRuntime.tags_a_b);
   ("id", JInt 7);
   ("title", JStr "Memo")].

Definition memo_text : string :=
  "Title: Memo | Tags: a, b | Content: call the plumber".

(** A row whose tags do not decode. *)
Definition tagged : dict :=
  [("id", JInt 8); ("title", JStr "Shopping"); ("tags", JStr "work, ideas")].

Definition unit_vector : vector := [1%float].

(** The constants of the file, with vectors of one component. *)
Definition small_config : config := {|
  BATCH_LIMIT := 50;
  DELAY_BETWEEN_CALLS := 0.2%float;
  MAX_RETRIES := 3;
  MAX_TEXT_LENGTH := 8000;
  EXPECTED_VECTOR_DIMENSION := 1;
  GEMINI_BATCH_SIZE := 2
|}.

(** A provider whose first two calls time out, and a store that confirms
    every write. *)
Definition flaky : environment := {|
  fetch_notes := Returns [memo; tagged];
  count_pending := Returns None;
  embed_one := fun n _ _ =>
    if n <? 2 then Fails "timeout" else Returns (Some unit_vector);
  embed_batch := fun n texts =>
    if n <? 2 then Fails "timeout"
    else Returns (Some (map (fun _ => unit_vector) texts));
  store_update := fun _ _ _ => Returns true
|}.

(** A provider that is down. *)
Definition down : environment := {|
  fetch_notes := Returns [memo; tagged];
  count_pending := Returns None;
  embed_one := fun _ _ _ => Fails "unavailable";
  embed_batch := fun _ _ => Fails "unavailable";
  store_update := fun _ _ _ => Returns true
|}.

Definition third : dict :=
  [("id", JInt 9); ("title", JStr "Ideas"); ("transcription", JStr "a plan")].

(** Three accepted candidates, with their assembled texts. *)
Definition candidates : list (dict * string) :=
  [(memo, memo_text);
   (tagged, "Title: Shopping | Tags: work, ideas");
   (third, "Title: Ideas | Content: a plan")].

(** A provider that answers every call, and a store that confirms every
    write. *)
Definition healthy : environment := {|
  fetch_notes := Returns [memo; tagged; third];
  count_pending := Returns (Some 3%Z);
  embed_one := fun _ _ _ => Returns (Some unit_vector);
  embed_batch := fun _ texts =>
    Returns (Some (map (fun _ => unit_vector) texts));
  store_update := fun _ _ _ => Returns true
|}.

(** A vector of two components, where one is expected. *)
Definition wide_vector : vector := [1%float; 2%float].

(** A provider that answers with vectors of the wrong length. *)
Definition odd : environment := {|
  fetch_notes := Returns [memo; tagged; third];
  count_pending := Returns (Some 3%Z);
  embed_one := fun _ _ _ => Returns (Some wide_vector);
  embed_batch := fun _ texts =>
    Returns (Some (map (fun _ => wide_vector) texts));
  store_update := fun _ _ _ => Returns true
|}.

(** A row without any text. *)
Definition blank : dict := [("id", JInt 10); ("title", JStr "   ")].

(** A vector of the dimension of the file, and one that is one component
    short. *)
Definition full_vector : vector := repeat 0%float 1536.
Definition short_vector : vector := repeat 0%float 1535.

(** One pending record, and a batch provider that answers with a vector
    of the expected dimension for every text, followed by one more
    vector. *)
Definition with_surplus (surplus : vector) : environment := {|
  fetch_notes := Returns [memo];
  count_pending := Returns (Some 1%Z);
  embed_one := fun _ _ _ => Returns (Some full_vector);
  embed_batch := fun _ texts =>
    Returns (Some (map (fun _ => full_vector) texts ++ [surplus]));
  store_update := fun _ _ _ => Returns true
|}.

End Sample.

(** ** Reading a trace *)

Definition is_sleep (e : event) : bool :=
  match e with Sleep _ => true | _ => false end.

Definition is_request (e : event) : bool :=
  match e with EmbedOne _ _ | EmbedBatch _ => true | _ => false end.

Definition is_update (e : event) : bool :=
  match e with Update _ _ => true | _ => false end.

Definition is_dimension_warning (e : event) : bool :=
  match e with Log WARNING (MsgUnexpectedDimension _ _) => true | _ => false end.

Definition is_error_log (e : event) : bool :=
  match e with Log ERROR _ => true | _ => false end.

(** The pauses, the provider requests and the store updates of a trace, in
    order. *)
Definition sleeps (tr : list event) : list event := filter is_sleep tr.
Definition requests (tr : list event) : list event := filter is_request tr.
Definition updates (tr : list event) : list event := filter is_update tr.

(** The pause before the retry that follows attempt [attempt]. *)
Definition backoff (attempt : nat) : event :=
  Sleep (IntSeconds (2 ^ Z.of_nat attempt)).

(** Records with an outcome: each fetched record ends in one of the four
    counters. *)
Definition accounted (t : Stats) : Z :=
  (processed t + errors t + skipped_empty t + skipped_too_long t)%Z.

(** What producing an embedding leaves alone: the outcome counters, the
    two report lists and the store; the call counter only grows. *)
Record generation_frame (s s' : state) : Prop := {
  gf_total : total_found (stats s') = total_found (stats s);
  gf_processed : processed (stats s') = processed (stats s);
  gf_errors : errors (stats s') = errors (stats s);
  gf_too_long : skipped_too_long (stats s') = skipped_too_long (stats s);
  gf_empty : skipped_empty (stats s') = skipped_empty (stats s);
  gf_skipped : skipped_notes s' = skipped_notes s;
  gf_failed : error_notes s' = error_notes s;
  gf_store : store_calls s' = store_calls s;
  gf_updates : updates (trace s') = updates (trace s);
  gf_api : (api_calls (stats s) <= api_calls (stats s'))%Z
}.

(** ** Outcome of one attempt *)

Section Outcomes.

Variable cfg : config.
Variable env : environment.
Variable provider : EmbeddingProvider.

(** What the [try] of [_generate_embedding_with_retry] returns when it
    runs as provider call number [n]; [None] when it raises. *)
Definition single_outcome (text : string) (n : nat) : option vector :=
  match embed_one env n provider text with
  | Returns (Some embedding) => Some embedding
  | _ => None
  end.

(** The warning loop of the batch wrapper names [note_ids[i]]: it needs an
    identity at the position of every vector of unexpected length. *)
Fixpoint warnings_indexable (n_ids i : nat) (embeddings : list vector) : bool :=
  match embeddings with
  | [] => true
  | e :: rest =>
      ((length e =? EXPECTED_VECTOR_DIMENSION cfg) || (i <? n_ids))
      && warnings_indexable n_ids (S i) rest
  end.

(** What the [try] of [_generate_embeddings_batch_with_retry] returns when
    it runs as provider call number [n]; [None] when it raises. *)
Definition batch_outcome (texts : list string) (note_ids : list json)
  (n : nat) : option embeddings_dict :=
  match embed_batch env n texts with
  | Returns (Some embeddings) =>
      if warnings_indexable (length note_ids) 0 embeddings then
        match dict_of_zip note_ids embeddings with
        | Ok d => Some d
        | Raise _ => None
        end
      else None
  | _ => None
  end.

End Outcomes.

(** The state after more events. *)
Definition add_events (evs : list event) (s : state) : state := {|
  stats := stats s;
  skipped_notes := skipped_notes s;
  error_notes := error_notes s;
  trace := trace s ++ evs;
  provider_calls := provider_calls s;
  store_calls := store_calls s
|}.

(** The state after a provider request. *)
Definition after_request (e : event) (s : state) : state := {|
  stats := stats s;
  skipped_notes := skipped_notes s;
  error_notes := error_notes s;
  trace := trace s ++ [e];
  provider_calls := S (provider_calls s);
  store_calls := store_calls s
|}.

(** The state after a store update request. *)
Definition after_update (e : event) (s : state) : state := {|
  stats := stats s;
  skipped_notes := skipped_notes s;
  error_notes := error_notes s;
  trace := trace s ++ [e];
  provider_calls := provider_calls s;
  store_calls := S (store_calls s)
|}.

(** The state after one more entry of [self.error_notes]. *)
Definition add_error (n : error_note) (s : state) : state := {|
  stats := stats s;
  skipped_notes := skipped_notes s;
  error_notes := error_notes s ++ [n];
  trace := trace s;
  provider_calls := provider_calls s;
  store_calls := store_calls s
|}.

(** The store confirms the write requested as its call number [n]. *)
Definition store_confirms (env : environment) (n : nat) (note_id : json)
  (embedding : vector) : bool :=
  match store_update env n note_id embedding with
  | Returns true => true
  | _ => false
  end.

(** The entry of [self.error_notes] for a record. *)
Definition error_entry (reason : string) (note : dict) : error_note := {|
  error_id := get "id" note;
  error_title := py_or (get "title" note) untitled;
  error := reason
|}.

(** ** Chunks of the batch loop *)

(** The successive values of [batch_notes] in [_process_notes_batch]. *)
Definition chunks (cfg : config) (valid_notes : list (dict * string))
  : list (list (dict * string)) :=
  map (fun batch_start =>
         slice valid_notes batch_start
           (Nat.min (batch_start + GEMINI_BATCH_SIZE cfg) (length valid_notes)))
      (py_range 0 (length valid_notes) (GEMINI_BATCH_SIZE cfg)).

(** The texts and the identities of a chunk, as the batch wrapper
    extracts them. *)
Definition chunk_texts (chunk : list (dict * string)) : list string :=
  map snd chunk.

Definition chunk_ids (chunk : list (dict * string)) : list json :=
  map (fun item => get "id" (fst item)) chunk.

(** A request that carries only texts of the list. *)
Definition request_within (texts : list string) (e : event) : Prop :=
  match e with
  | EmbedOne _ text => In text texts
  | EmbedBatch batch => incl batch texts
  | _ => True
  end.

(** ** Validation, in the words of the specification *)

Inductive ValidationOutcome : Type :=
| Accepted (text : string)
| SkippedEmpty
| SkippedTooLong (measured : nat).

(** Empty after trimming: skipped as empty; longer than the maximum:
    skipped as too long, with the measured length; accepted otherwise. *)
Definition classify (cfg : config) (text : string) : ValidationOutcome :=
  if negb (PyStr.nonempty (PyStr.strip text)) then SkippedEmpty
  else if MAX_TEXT_LENGTH cfg <? String.length text
       then SkippedTooLong (String.length text)
       else Accepted text.

(** The state after one more entry of [self.skipped_notes]. *)
Definition add_skipped (n : skipped_note) (s : state) : state := {|
  stats := stats s;
  skipped_notes := skipped_notes s ++ [n];
  error_notes := error_notes s;
  trace := trace s;
  provider_calls := provider_calls s;
  store_calls := store_calls s
|}.

(** The records of a fetched list that validation accepts, with their
    assembled texts. *)
Definition accepted (cfg : config) (py : runtime) (notes : list dict)
  : list (dict * string) :=
  flat_map
    (fun note =>
       match _build_text_for_embedding py note with
       | Ok text =>
           match classify cfg text with
           | Accepted t => [(note, t)]
           | _ => []
           end
       | Raise _ => []
       end)
    notes.

(** ** The steps of a run, named *)

(** The state after a failed attempt that is followed by a retry. *)
Definition after_backoff {R} (who : option json) (body : M R)
  (attempt : nat) (s : state) : state :=
  snd (sleep (IntSeconds (2 ^ Z.of_nat attempt))
         (snd (log WARNING
                 (MsgAttemptFailed who attempt (2 ^ Z.of_nat attempt))
                 (snd (body s))))).

(** The state after the failed attempt that ends the loop. *)
Definition after_last {R} (who : option json) (body : M R) (s : state)
  : state :=
  snd (log ERROR (MsgAllAttemptsFailed who) (snd (body s))).

(** The wrapped operation of [_generate_embedding_with_retry], as the
    retry loop sees it. *)
Definition single_result (env : environment) (provider : EmbeddingProvider)
  (text : string) (n : nat) : option (option vector) :=
  option_map Some (single_outcome env provider text n).

(** The new requests of a step all carry texts of the list. *)
Definition requests_within (texts : list string) (s s' : state) : Prop :=
  exists new,
    requests (trace s') = requests (trace s) ++ new
    /\ Forall (request_within texts) new.

(** What the steps before validation leave alone. *)
Record prologue (s s1 : state) : Prop := {
  pr_provider : provider_calls s1 = provider_calls s;
  pr_store : store_calls s1 = store_calls s;
  pr_requests : requests (trace s1) = requests (trace s);
  pr_updates : updates (trace s1) = updates (trace s);
  pr_accounted : accounted (stats s1) = accounted (stats s);
  pr_api : api_calls (stats s1) = api_calls (stats s)
}.

(** The dispatch of step 4 of [process]. *)
Definition dispatch (cfg : config) (py : runtime) (env : environment)
  (provider : EmbeddingProvider) (dry_run : bool)
  (valid_notes : list (dict * string)) : M unit :=
  if match provider with GEMINI => true | OPENAI => false end
     && supports_batch provider
  then _process_notes_batch cfg py env dry_run valid_notes
  else _process_notes_single cfg env provider dry_run valid_notes.

(** Splits a conjunction, and nothing else. *)
Ltac splits := repeat match goal with |- _ /\ _ => split end.

(** A text whose first character is not a space. *)
Definition starts_with_ink (s : string) : bool :=
  match s with
  | EmptyString => false
  | String c _ => negb (PyStr.is_space c)
  end.

(** ** The title shown in progress lines and in the report *)

(** [title[:limit] + "..." if len(title) > limit else title]: the limit
    is 50 in [DualLogger.processing] and 40 in [_print_final_report]. *)
Definition display_title (limit : nat) (title : string) : string :=
  if limit <? String.length title
  then (substring 0 limit title ++ "...")%string
  else title.

(** ** Start-up and entry point *)

(** [PROVIDER_CONFIG[p]["env_var"]] *)
Definition env_var (p : EmbeddingProvider) : string :=
  match p with
  | OPENAI => "OPENAI_API_KEY"
  | GEMINI => "GEMINI_API_KEY"
  end.

(** [not os.getenv(name)]: the variable is absent or empty. *)
Definition unset (getenv : string -> option string) (name : string) : bool :=
  match getenv name with
  | Some v => negb (PyStr.nonempty v)
  | None => true
  end.

(** The list [missing_vars] of [_init_clients]. *)
Definition missing_vars (getenv : string -> option string)
  (provider : EmbeddingProvider) : list string :=
  (if unset getenv "SUPABASE_URL" then ["SUPABASE_URL"] else [])
  ++ (if unset getenv "SUPABASE_KEY" then ["SUPABASE_KEY"] else [])
  ++ (if unset getenv (env_var provider) then [env_var provider] else []).

(** The check of [_init_clients]: [sys.exit(1)] when a variable is
    missing.  The log lines and the construction of the clients are left
    out. *)
Definition _init_clients (getenv : string -> option string)
  (provider : EmbeddingProvider) : result unit :=
  match missing_vars getenv provider with
  | [] => Ok tt
  | _ :: _ => Raise (SystemExit 1)
  end.

(** What [input()] delivers: a line, or Ctrl+C. *)
Inductive keyboard : Type :=
| Line (s : string)
| Interrupt.

(** The loop of [prompt_provider_selection] over what the user types: the
    outcome and the number of "Scelta non valida" warnings.  At the end of
    the input, [input()] raises [EOFError], which the loop does not
    catch. *)
Fixpoint prompt_provider_selection (inputs : list keyboard)
  : result EmbeddingProvider * nat :=
  match inputs with
  | [] => (Raise (OtherError "EOFError"), 0)
  | Interrupt :: _ => (Raise (SystemExit 0), 0)
  | Line l :: rest =>
      let choice := PyStr.strip l in
      if String.eqb choice "1" then (Ok OPENAI, 0)
      else if String.eqb choice "2" then (Ok GEMINI, 0)
      else
        let '(r, warnings) := prompt_provider_selection rest in
        (r, S warnings)
  end.

(** The parsed command line: [--provider] and [--dry-run]. *)
Record arguments : Type := {
  arg_provider : option string;
  arg_dry_run : bool
}.

(** The provider selection of [main]. *)
Definition select_provider (args : arguments) (inputs : list keyboard)
  : result EmbeddingProvider :=
  match arg_provider args with
  | Some p =>
      if PyStr.nonempty p then
        if String.eqb p "openai" then Ok OPENAI else Ok GEMINI
      else fst (prompt_provider_selection inputs)
  | None => fst (prompt_provider_selection inputs)
  end.

(** The exit status of the script: 0 when [main] returns, the code of a
    [sys.exit], 1 from the clause [except Exception]. *)
Definition exit_status (r : result unit) : Z :=
  match r with
  | Ok _ => 0
  | Raise (SystemExit code) => code
  | Raise _ => 1
  end.

(** [main]: the exit status and the processor's final state. *)
Definition main (cfg : config) (py : runtime) (env : environment)
  (getenv : string -> option string) (args : arguments)
  (inputs : list keyboard) : Z * state :=
  match select_provider args inputs with
  | Raise e => (exit_status (Raise e), initial_state)
  | Ok provider =>
      match _init_clients getenv provider with
      | Raise e => (exit_status (Raise e), initial_state)
      | Ok _ =>
          let out :=
            process cfg py env provider (arg_dry_run args) initial_state in
          (exit_status (fst out), snd out)
      end
  end.

(** ** Bookkeeping of a run *)

(** The seconds of the pauses between attempts in a trace. *)
Fixpoint waited (tr : list event) : Z :=
  match tr with
  | [] => 0
  | Sleep (IntSeconds z) :: rest => z + waited rest
  | _ :: rest => waited rest
  end.

(** The requests a run with a provider sends: one text at a time to
    OpenAI, batches to Gemini. *)
Definition request_of (provider : EmbeddingProvider) (e : event) : bool :=
  match provider, e with
  | OPENAI, EmbedOne OPENAI _ => true
  | GEMINI, EmbedBatch _ => true
  | _, _ => false
  end.

Definition single_request_of (provider : EmbeddingProvider) (e : event)
  : bool :=
  match provider, e with
  | OPENAI, EmbedOne OPENAI _ => true
  | GEMINI, EmbedOne GEMINI _ => true
  | _, _ => false
  end.

Definition is_batch_request (e : event) : bool :=
  match e with EmbedBatch _ => true | _ => false end.

(** What every step of a run maintains between the counters, the two
    report lists and the calls to the remote services. *)
Record ledger (kind : event -> bool) (dry_run : bool) (s s' : state)
  : Prop := {
  lg_requests :
    exists new,
      requests (trace s') = requests (trace s) ++ new
      /\ provider_calls s' = provider_calls s + length new
      /\ (api_calls (stats s) <= api_calls (stats s')
          <= api_calls (stats s) + Z.of_nat (length new))%Z
      /\ forallb kind new = true;
  lg_updates :
    exists new,
      updates (trace s') = updates (trace s) ++ new
      /\ store_calls s' = store_calls s + length new
      /\ (processed (stats s) <= processed (stats s'))%Z
      /\ (if dry_run then new = []
          else (processed (stats s') - processed (stats s)
                <= Z.of_nat (length new))%Z);
  lg_errors :
    exists new,
      error_notes s' = error_notes s ++ new
      /\ errors (stats s') = (errors (stats s) + Z.of_nat (length new))%Z;
  lg_skipped :
    exists new,
      skipped_notes s' = skipped_notes s ++ new
      /\ skipped_too_long (stats s')
         = (skipped_too_long (stats s) + Z.of_nat (length new))%Z;
  lg_empty : (skipped_empty (stats s) <= skipped_empty (stats s'))%Z
}.

(** A computation that maintains a relation between the state it starts
    from and the state it leaves, whatever it returns or raises. *)
Definition keeps (R : state -> state -> Prop) {A} (m : M A) : Prop :=
  forall s, R s (snd (m s)).

Definition is_report (e : event) : bool :=
  match e with Report _ _ _ _ => true | _ => false end.

(** The pauses between records or chunks, as opposed to the pauses
    between attempts. *)
Definition is_delay (e : event) : bool :=
  match e with Sleep (FloatSeconds _) => true | _ => false end.

(** The number of provider calls that the dispatch of [units] records
    can take: one generation per record with OpenAI, one per chunk with
    Gemini. *)
Definition generations (cfg : config) (provider : EmbeddingProvider)
  (units : nat) : nat :=
  match provider with
  | OPENAI => units
  | GEMINI =>
      if GEMINI_BATCH_SIZE cfg =? 0 then 0
      else (units + GEMINI_BATCH_SIZE cfg - 1) / GEMINI_BATCH_SIZE cfg
  end.

(** The events of a run before the fetch returns or raises. *)
Definition opening (dry_run : bool) : list event :=
  (if dry_run then [Log WARNING MsgDryRunActive] else [])
  ++ [Log INFO MsgFetching; FetchNotes].

(** Two states whose traces show the same events of a kind. *)
Definition quiet_on (p : event -> bool) (s s' : state) : Prop :=
  filter p (trace s') = filter p (trace s).

(** The pause between two records or two chunks. *)
Definition delay (cfg : config) : event :=
  Sleep (FloatSeconds (DELAY_BETWEEN_CALLS cfg)).

(** A step that adds at most one pause, and only when [allowed]. *)
Definition pauses_once (cfg : config) (allowed : bool) (s s' : state)
  : Prop :=
  exists k,
    filter is_delay (trace s')
    = filter is_delay (trace s) ++ repeat (delay cfg) k
    /\ k <= (if allowed then 1 else 0).

(** [total_pending_response.count or len(notes)] *)
Definition total_pending (count : option Z) (fetched : nat) : Z :=
  match count with
  | Some c => if (c =? 0)%Z then Z.of_nat fetched else c
  | None => Z.of_nat fetched
  end.

(** Two states that differ in their traces only. *)
Definition same_but_trace (s s' : state) : Prop :=
  stats s' = stats s /\ skipped_notes s' = skipped_notes s
  /\ error_notes s' = error_notes s
  /\ provider_calls s' = provider_calls s /\ store_calls s' = store_calls s.

(** ** The entries of the two report lists *)

(** [process] after the fetch has returned [notes]. *)
Definition after_fetch (cfg : config) (py : runtime) (env : environment)
  (provider : EmbeddingProvider) (dry_run : bool) (notes : list dict)
  : M unit :=
  (update_stats (set_total_found (Z.of_nat (length notes))) ;;
   match notes with
   | [] =>
       log SUCCESS MsgNothingToProcess ;;
       _print_final_report
   | _ :: _ =>
       log SUCCESS (MsgFound (length notes)) ;;
       count_step cfg env notes ;;
       valid_notes <- fold_each notes [] (validate_note cfg py) ;;
       match valid_notes with
       | [] =>
           log WARNING MsgNoValidNotes ;;
           _print_final_report
       | _ :: _ =>
           log INFO (MsgValidReady (length valid_notes)) ;;
           dispatch cfg py env provider dry_run valid_notes ;;
           _print_final_report
       end
   end)%proc.

(** The reason recorded when no embedding could be generated. *)
Definition generation_reason (provider : EmbeddingProvider) : string :=
  match provider with
  | OPENAI => generation_failed
  | GEMINI => generation_failed_in_batch
  end.

(** An entry of [self.skipped_notes] that describes a record of the
    list: its identity, its title and the length of its assembled text,
    which exceeds the maximum. *)
Definition skipped_entry_of (cfg : config) (py : runtime)
  (notes : list dict) (n : skipped_note) : Prop :=
  exists note text,
    In note notes
    /\ _build_text_for_embedding py note = Ok text
    /\ MAX_TEXT_LENGTH cfg < String.length text
    /\ n = {| skipped_id := get "id" note;
              skipped_title := py_or (get "title" note) untitled;
              text_length := String.length text |}.

(** An entry of [self.error_notes] that describes a record of the list,
    with one of the two reasons. *)
Definition error_entry_of (reason : string) (notes : list dict)
  (n : error_note) : Prop :=
  exists note,
    In note notes
    /\ (n = error_entry reason note \/ n = error_entry update_failed note).

(** The two lists only grow, by entries of a kind. *)
Definition lists_grow (Pk : skipped_note -> Prop) (Pe : error_note -> Prop)
  (s s' : state) : Prop :=
  (exists new, skipped_notes s' = skipped_notes s ++ new /\ Forall Pk new)
  /\ (exists new, error_notes s' = error_notes s ++ new /\ Forall Pe new).

(** Builds a [ledger] from the new requests, updates and entries. *)
Ltac ledger_with nr nu ne nk :=
  constructor;
  [ exists nr | exists nu | exists ne | exists nk | ];
  cbn; unfold requests, updates; rewrite ?filter_app; cbn;
  rewrite ?app_nil_r, ?Nat.add_0_r; splits; try reflexivity; try lia.

(** The generations that the dispatch of the accepted records asks for,
    in order: one per record with OpenAI, one per chunk with Gemini. *)
Definition generation_units (cfg : config) (provider : EmbeddingProvider)
  (valid_notes : list (dict * string)) : list event :=
  match provider with
  | OPENAI => map (fun item => EmbedOne OPENAI (snd item)) valid_notes
  | GEMINI =>
      map (fun chunk => EmbedBatch (chunk_texts chunk))
        (chunks cfg valid_notes)
  end.

(** Each unit requested as many times as its count says, in order. *)
Definition repeated (units : list event) (counts : list nat) : list event :=
  List.concat (map (fun um => repeat (fst um) (snd um)) (combine units counts)).

(** A step that sends one request between 1 and [MAX_RETRIES] times. *)
Definition asks (cfg : config) (request : event) (s s' : state) : Prop :=
  exists m,
    1 <= m <= MAX_RETRIES cfg
    /\ requests (trace s') = requests (trace s) ++ repeat request m.

(** * Properties *)

(** ** The text assembler *)

Section AssemblerFacts.

Variable py : runtime.

Lemma field_text_strip v s :
  field_text v = Some s -> str_strip (py_or v (JStr "")) = Ok (PyStr.strip s).
Proof.
  unfold field_text. destruct (py_or v (JStr "")); try discriminate.
  intros [= ->]. reflexivity.
Qed.

Lemma str_strip_field_text v r :
  str_strip (py_or v (JStr "")) = Ok r ->
  exists s, field_text v = Some s /\ r = PyStr.strip s.
Proof.
  unfold field_text. destruct (py_or v (JStr "")); try discriminate.
  simpl. intros [= <-]. eauto.
Qed.

Lemma field_text_JStr s : field_text (JStr s) = Some s.
Proof. unfold field_text, py_or. destruct s; reflexivity. Qed.

Lemma field_text_JNull : field_text JNull = Some "".
Proof. reflexivity. Qed.

(** The assembler computes the segments in the fixed order. *)
Lemma build_text_segments note t e c n :
  field_text (get "title" note) = Some t ->
  field_text (get "excerpt" note) = Some e ->
  field_text (get "categories" note) = Some c ->
  field_text (get "transcription" note) = Some n ->
  _build_text_for_embedding py note =
    rbind (tags_segment py (get "tags" note))
      (fun g => Ok (PyStr.join " | "
                      (labelled "Title" t ++ labelled "Excerpt" e
                       ++ labelled "Category" c ++ g
                       ++ labelled "Content" n))).
Proof.
  intros Ht He Hc Hn. unfold _build_text_for_embedding.
  rewrite (field_text_strip _ Ht), (field_text_strip _ He),
    (field_text_strip _ Hc), (field_text_strip _ Hn).
  cbn [rbind]. cbv zeta. unfold tags_segment, labelled.
  destruct (PyStr.nonempty (PyStr.strip t)),
    (PyStr.nonempty (PyStr.strip e)),
    (PyStr.nonempty (PyStr.strip c)),
    (PyStr.nonempty (PyStr.strip n)),
    (truthy (get "tags" note));
    cbn [rbind app]; try reflexivity;
    (destruct (resolve_tags py (get "tags" note)) as [v|x]; cbn [rbind];
     [|reflexivity];
     destruct v as [| | | | |[|i l]|]; reflexivity).
Qed.

(** A successful run of the assembler read every text column as text. *)
Lemma build_text_ok_inv note text :
  _build_text_for_embedding py note = Ok text ->
  exists t e c n g,
    field_text (get "title" note) = Some t
    /\ field_text (get "excerpt" note) = Some e
    /\ field_text (get "categories" note) = Some c
    /\ field_text (get "transcription" note) = Some n
    /\ tags_segment py (get "tags" note) = Ok g
    /\ text = PyStr.join " | "
                (labelled "Title" t ++ labelled "Excerpt" e
                 ++ labelled "Category" c ++ g ++ labelled "Content" n).
Proof.
  intros H.
  assert (Ht : exists t, field_text (get "title" note) = Some t).
  { revert H. unfold _build_text_for_embedding.
    destruct (str_strip (py_or (get "title" note) (JStr ""))) eqn:E;
      [|discriminate].
    destruct (str_strip_field_text _ E) as (s & Hs & _). eauto. }
  destruct Ht as [t Ht].
  assert (He : exists e, field_text (get "excerpt" note) = Some e).
  { revert H. unfold _build_text_for_embedding.
    rewrite (field_text_strip _ Ht). cbn [rbind].
    destruct (str_strip (py_or (get "excerpt" note) (JStr ""))) eqn:E;
      [|discriminate].
    destruct (str_strip_field_text _ E) as (s & Hs & _). eauto. }
  destruct He as [e He].
  assert (Hc : exists c, field_text (get "categories" note) = Some c).
  { revert H. unfold _build_text_for_embedding.
    rewrite (field_text_strip _ Ht), (field_text_strip _ He). cbn [rbind].
    destruct (str_strip (py_or (get "categories" note) (JStr ""))) eqn:E;
      [|discriminate].
    destruct (str_strip_field_text _ E) as (s & Hs & _). eauto. }
  destruct Hc as [c Hc].
  assert (Hn : exists n, field_text (get "transcription" note) = Some n).
  { revert H. unfold _build_text_for_embedding.
    rewrite (field_text_strip _ Ht), (field_text_strip _ He),
      (field_text_strip _ Hc). cbn [rbind].
    destruct (if truthy (get "tags" note) then _ else _); cbn [rbind];
      [|discriminate].
    destruct (str_strip (py_or (get "transcription" note) (JStr ""))) eqn:E;
      [|discriminate].
    destruct (str_strip_field_text _ E) as (s & Hs & _). eauto. }
  destruct Hn as [n Hn].
  rewrite (build_text_segments _ Ht He Hc Hn) in H.
  destruct (tags_segment py (get "tags" note)) as [g|x] eqn:Hg;
    cbn [rbind] in H; [|discriminate].
  injection H as <-. exists t, e, c, n, g. repeat split; assumption.
Qed.

(** Reading a row by key does not depend on the order of its keys. *)
Lemma get_permutation (d d' : dict) :
  Permutation d d' -> NoDup (map fst d) ->
  forall k, get k d = get k d'.
Proof.
  induction 1 as [|[kx vx] l l' HP IH|[kx vx] [ky vy] l|l l' l'' HP1 IH1 HP2 IH2];
    intros ND k; cbn [get].
  - reflexivity.
  - inversion ND; subst. now rewrite IH.
  - cbn [map fst] in ND. inversion ND as [|? ? Hnotin _]; subst.
    destruct (String.eqb ky k) eqn:Ey, (String.eqb kx k) eqn:Ex; try reflexivity.
    apply String.eqb_eq in Ey, Ex. subst. exfalso. apply Hnotin. now left.
  - rewrite IH1 by assumption. apply IH2.
    eapply Permutation_NoDup; [|exact ND]. now apply Permutation_map.
Qed.

Lemma build_text_ext (d d' : dict) :
  (forall k, get k d = get k d') ->
  _build_text_for_embedding py d = _build_text_for_embedding py d'.
Proof.
  intros H. unfold _build_text_for_embedding. now rewrite !H.
Qed.

Lemma labelled_blank label value :
  PyStr.strip value = "" -> labelled label value = [].
Proof. unfold labelled. now intros ->. Qed.

Lemma labelled_present label value :
  PyStr.strip value <> "" ->
  labelled label value = [(label ++ ": " ++ PyStr.strip value)%string].
Proof.
  unfold labelled. destruct (PyStr.strip value); [congruence|reflexivity].
Qed.

End AssemblerFacts.

Lemma truthy_JStr s : s <> "" -> truthy (JStr s) = true.
Proof. destruct s; [congruence|reflexivity]. Qed.

Lemma labelled_nonempty label value seg :
  In seg (labelled label value) -> seg <> "".
Proof.
  unfold labelled. destruct (PyStr.nonempty _); [|now intros []].
  intros [<-|[]]. destruct label; discriminate.
Qed.

Lemma tags_segment_nonempty py tags g seg :
  tags_segment py tags = Ok g -> In seg g -> seg <> "".
Proof.
  unfold tags_segment. destruct (truthy tags).
  - destruct (resolve_tags py tags) as [v|]; [|discriminate].
    destruct v as [| | | | |[|i l]|]; intros [= <-]; try now intros [].
    intros [<-|[]]. discriminate.
  - intros [= <-]. now intros [].
Qed.

(** C5 (amended).  Whenever the assembler returns a text, it is the
    [" | "]-join of the segments Title, Excerpt, Category, Tags, Content in
    that order: a text column contributes ["Label: value"] with its value
    trimmed and is left out when the trimmed value is empty; the tags
    contribute their segment as [tags_segment] gives it (their elements are
    not trimmed).  No segment is empty, so no separator dangles; the text
    is the same for every ordering of the keys of the row; and a row whose
    other text columns are blank and whose tags are falsy gives exactly
    ["Content: <text>"]. *)
Theorem build_text_fixed_order (py : runtime) (note : dict) (text : string) :
  _build_text_for_embedding py note = Ok text ->
  (exists t e c n g,
      field_text (get "title" note) = Some t
      /\ field_text (get "excerpt" note) = Some e
      /\ field_text (get "categories" note) = Some c
      /\ field_text (get "transcription" note) = Some n
      /\ tags_segment py (get "tags" note) = Ok g
      /\ let segments :=
           labelled "Title" t ++ labelled "Excerpt" e
           ++ labelled "Category" c ++ g ++ labelled "Content" n in
         text = PyStr.join " | " segments
         /\ Forall (fun seg => seg <> "") segments
         /\ (PyStr.strip t = "" -> PyStr.strip e = "" ->
             PyStr.strip c = "" -> truthy (get "tags" note) = false ->
             PyStr.strip n <> "" ->
             text = ("Content: " ++ PyStr.strip n)%string))
  /\ (forall note',
         Permutation note note' -> NoDup (map fst note) ->
         _build_text_for_embedding py note' = Ok text).
Proof.
  intros H. split.
  - destruct (build_text_ok_inv _ _ H) as (t & e & c & n & g & Ht & He & Hc & Hn & Hg & ->).
    exists t, e, c, n, g. repeat (split; [assumption|]).
    cbv zeta. split; [reflexivity|]. split.
    + apply Forall_forall. intros seg Hin.
      repeat (apply in_app_or in Hin; destruct Hin as [Hin|Hin]);
        eauto using labelled_nonempty, tags_segment_nonempty.
    + intros Bt Be Bc Bg Bn.
      rewrite (labelled_blank _ _ Bt), (labelled_blank _ _ Be),
        (labelled_blank _ _ Bc), (labelled_present _ _ Bn).
      unfold tags_segment in Hg. rewrite Bg in Hg. injection Hg as <-.
      reflexivity.
  - intros note' HP ND. rewrite <- H. symmetry.
    apply build_text_ext. now apply get_permutation.
Qed.

(** C6 (amended).  For a row whose text columns are texts and whose tags
    are a non-empty string [s]: when [s] decodes to a non-empty list the
    Tags segment is the comma-joined list; when [s] does not decode
    ([JSONDecodeError]) the segment is [s] itself and the assembler
    returns; when [s] decodes to the empty list, or the tags are the empty
    list, there is no Tags segment. *)
Theorem tags_string_rendering (py : runtime) (note : dict) (t e c n : string) :
  field_text (get "title" note) = Some t ->
  field_text (get "excerpt" note) = Some e ->
  field_text (get "categories" note) = Some c ->
  field_text (get "transcription" note) = Some n ->
  let before :=
    labelled "Title" t ++ labelled "Excerpt" e ++ labelled "Category" c in
  let after := labelled "Content" n in
  (forall s x l,
      get "tags" note = JStr s -> s <> "" ->
      json_loads py s = Ok (JList (x :: l)) ->
      _build_text_for_embedding py note =
        Ok (PyStr.join " | "
              (before
               ++ [("Tags: " ++ PyStr.join ", " (map (py_str py) (x :: l)))%string]
               ++ after)))
  /\ (forall s,
         get "tags" note = JStr s -> s <> "" ->
         json_loads py s = Raise JSONDecodeError ->
         _build_text_for_embedding py note =
           Ok (PyStr.join " | " (before ++ [("Tags: " ++ s)%string] ++ after)))
  /\ (forall s,
         get "tags" note = JStr s ->
         json_loads py s = Ok (JList []) ->
         _build_text_for_embedding py note =
           Ok (PyStr.join " | " (before ++ after)))
  /\ (get "tags" note = JList [] ->
      _build_text_for_embedding py note =
        Ok (PyStr.join " | " (before ++ after))).
Proof.
  intros Ht He Hc Hn before after.
  pose proof (build_text_segments py _ Ht He Hc Hn) as B.
  subst before after. repeat split.
  - intros s x l Hs Hne Hl. rewrite B, Hs. unfold tags_segment.
    rewrite (truthy_JStr Hne). cbn [resolve_tags]. rewrite Hl. cbn [rbind].
    now rewrite <- !app_assoc.
  - intros s Hs Hne Hl. rewrite B, Hs. unfold tags_segment.
    rewrite (truthy_JStr Hne). cbn [resolve_tags]. rewrite Hl. cbn [rbind].
    now rewrite <- !app_assoc.
  - intros s Hs Hl. rewrite B, Hs. unfold tags_segment.
    destruct (truthy (JStr s)); cbn [resolve_tags rbind];
      rewrite ?Hl; cbn [rbind app]; now rewrite <- !app_assoc.
  - intros Hs. rewrite B, Hs. cbn. now rewrite <- !app_assoc.
Qed.

Lemma build_text_fixed_order_witness :
  _build_text_for_embedding RefRuntime.rt Sample.memo = Ok Sample.memo_text
  /\ (forall note',
         Permutation Sample.memo note' -> NoDup (map fst Sample.memo) ->
         _build_text_for_embedding RefRuntime.rt note' = Ok Sample.memo_text).
Proof.
  assert (H : _build_text_for_embedding RefRuntime.rt Sample.memo
              = Ok Sample.memo_text) by (vm_compute; reflexivity).
  split; [exact H|].
  exact (proj2 (build_text_fixed_order RefRuntime.rt Sample.memo H)).
Defined.

(** C5, as stated, fails: a tags list holding the empty string is truthy
    and non-empty, so the label is emitted with an empty value. *)
Lemma blank_tag_keeps_its_label :
  PyStr.strip "" = ""
  /\ _build_text_for_embedding RefRuntime.rt [("tags", JList [JStr ""])]
     = Ok "Tags: ".
Proof. split; vm_compute; reflexivity. Qed.

Lemma tags_string_rendering_witness :
  _build_text_for_embedding RefRuntime.rt Sample.memo
  = Ok (PyStr.join " | "
          (["Title: Memo"] ++ ["Tags: a, b"] ++ ["Content: call the plumber"]))
  /\ _build_text_for_embedding RefRuntime.rt Sample.tagged
     = Ok (PyStr.join " | " (["Title: Shopping"] ++ ["Tags: work, ideas"] ++ [])).
Proof.
  split.
  - refine (proj1 (tags_string_rendering RefRuntime.rt Sample.memo
                     (t := "Memo") (e := "") (c := "")
                     (n := "  call the plumber ") _ _ _ _)
              RefRuntime.tags_a_b (JStr "a") [JStr "b"] _ _ _);
      try (vm_compute; reflexivity).
    vm_compute. discriminate.
  - refine (proj1 (proj2 (tags_string_rendering RefRuntime.rt Sample.tagged
                     (t := "Shopping") (e := "") (c := "") (n := "") _ _ _ _))
              "work, ideas" _ _ _);
      try (vm_compute; reflexivity).
    discriminate.
Defined.

(** C6, as stated, fails: the empty string is not a JSON document, and the
    guard [if tags:] drops it. *)
Lemma empty_tags_string_dropped :
  json_loads RefRuntime.rt "" = Raise JSONDecodeError
  /\ _build_text_for_embedding RefRuntime.rt
       [("title", JStr "Memo"); ("tags", JStr "")]
     = Ok "Title: Memo".
Proof. split; vm_compute; reflexivity. Qed.

(** ** Computations, step by step *)


Lemma bind_run {A B} (m : M A) (k : A -> M B) s :
  bind m k s =
    match m s with
    | (Ok a, s') => k a s'
    | (Raise e, s') => (Raise e, s')
    end.
Proof. reflexivity. Qed.

Lemma bind_ok {A B} (m : M A) (k : A -> M B) s a s' :
  m s = (Ok a, s') -> bind m k s = k a s'.
Proof. intros H. unfold bind. now rewrite H. Qed.

Lemma bind_raise {A B} (m : M A) (k : A -> M B) s e s' :
  m s = (Raise e, s') -> bind m k s = (Raise e, s').
Proof. intros H. unfold bind. now rewrite H. Qed.

Lemma generation_frame_refl s : generation_frame s s.
Proof. constructor; reflexivity || lia. Qed.

Lemma generation_frame_trans s1 s2 s3 :
  generation_frame s1 s2 -> generation_frame s2 s3 -> generation_frame s1 s3.
Proof.
  intros [] []. constructor; try congruence. lia.
Qed.

Lemma generation_frame_emit e s :
  is_update e = false -> generation_frame s (snd (emit e s)).
Proof.
  intros H. constructor; cbn; try reflexivity; try lia.
  unfold updates. rewrite filter_app. cbn. rewrite H. now rewrite app_nil_r.
Qed.

(** ** The retry loop *)

Section RetryFacts.

Variable cfg : config.
Variable R : Type.
Variable who : option json.
Variables body exhausted : M R.
Variable req : event.
Variable outcome : nat -> option R.

Hypothesis body_result : forall s,
  match outcome (provider_calls s) with
  | Some r => fst (body s) = Ok r
  | None => exists e, fst (body s) = Raise e /\ is_Exception e = true
  end.
Hypothesis body_calls : forall s,
  provider_calls (snd (body s)) = S (provider_calls s).
Hypothesis body_sleeps : forall s,
  sleeps (trace (snd (body s))) = sleeps (trace s).
Hypothesis body_requests : forall s,
  requests (trace (snd (body s))) = requests (trace s) ++ [req].
Hypothesis body_frame : forall s, generation_frame s (snd (body s)).
Hypothesis exhausted_quiet : forall s, snd (exhausted s) = s.


Lemma retry_step_ok remaining attempt s r :
  outcome (provider_calls s) = Some r ->
  retry_loop cfg who body exhausted (S remaining) attempt s
  = (Ok r, snd (body s)).
Proof.
  intros Ho. pose proof (body_result s) as Hb. rewrite Ho in Hb.
  cbn [retry_loop]. unfold try_except.
  destruct (body s) as [res s1]. cbn in Hb. now subst.
Qed.

Lemma retry_step_again remaining attempt s :
  outcome (provider_calls s) = None ->
  attempt < MAX_RETRIES cfg ->
  retry_loop cfg who body exhausted (S remaining) attempt s
  = retry_loop cfg who body exhausted remaining (S attempt)
      (after_backoff who body attempt s).
Proof.
  intros Ho Hlt. pose proof (body_result s) as Hb. rewrite Ho in Hb.
  destruct Hb as (e & He & Hexc).
  cbn [retry_loop]. unfold try_except, after_backoff.
  destruct (body s) as [res s1]. cbn in He. subst res. rewrite Hexc.
  apply Nat.ltb_lt in Hlt. rewrite Hlt. reflexivity.
Qed.


Lemma retry_step_last remaining attempt s :
  outcome (provider_calls s) = None ->
  MAX_RETRIES cfg <= attempt ->
  retry_loop cfg who body exhausted (S remaining) attempt s
  = exhausted (after_last who body s).
Proof.
  intros Ho Hle. pose proof (body_result s) as Hb. rewrite Ho in Hb.
  destruct Hb as (e & He & Hexc).
  cbn [retry_loop]. unfold try_except, after_last.
  destruct (body s) as [res s1]. cbn in He. subst res. rewrite Hexc.
  apply Nat.ltb_ge in Hle. rewrite Hle. reflexivity.
Qed.

Lemma after_backoff_calls attempt s :
  provider_calls (after_backoff who body attempt s) = S (provider_calls s).
Proof. unfold after_backoff. cbn. apply body_calls. Qed.

Lemma after_backoff_sleeps attempt s :
  sleeps (trace (after_backoff who body attempt s))
  = sleeps (trace s) ++ [backoff attempt].
Proof.
  unfold after_backoff, sleeps. cbn. rewrite !filter_app. cbn.
  rewrite app_nil_r. fold (sleeps (trace (snd (body s)))).
  now rewrite body_sleeps.
Qed.

Lemma after_backoff_requests attempt s :
  requests (trace (after_backoff who body attempt s)) = requests (trace s) ++ [req].
Proof.
  unfold after_backoff, requests. cbn. rewrite !filter_app. cbn.
  rewrite !app_nil_r. apply body_requests.
Qed.

Lemma after_backoff_frame attempt s :
  generation_frame s (after_backoff who body attempt s).
Proof.
  unfold after_backoff.
  eapply generation_frame_trans; [apply body_frame|].
  eapply generation_frame_trans; apply generation_frame_emit; reflexivity.
Qed.

Lemma after_last_calls s :
  provider_calls (after_last who body s) = S (provider_calls s).
Proof. unfold after_last. cbn. apply body_calls. Qed.

Lemma after_last_sleeps s :
  sleeps (trace (after_last who body s)) = sleeps (trace s).
Proof.
  unfold after_last, sleeps. cbn. rewrite !filter_app. cbn.
  rewrite app_nil_r. apply body_sleeps.
Qed.

Lemma after_last_requests s :
  requests (trace (after_last who body s)) = requests (trace s) ++ [req].
Proof.
  unfold after_last, requests. cbn. rewrite !filter_app. cbn.
  rewrite !app_nil_r. apply body_requests.
Qed.

Lemma after_last_frame s : generation_frame s (after_last who body s).
Proof.
  unfold after_last.
  eapply generation_frame_trans; [apply body_frame|].
  apply generation_frame_emit; reflexivity.
Qed.

(** [k] failed attempts, then a success. *)
Lemma retry_succeeds_after k : forall remaining attempt s r,
  k < remaining -> attempt + k <= MAX_RETRIES cfg ->
  (forall j, j < k -> outcome (provider_calls s + j) = None) ->
  outcome (provider_calls s + k) = Some r ->
  let out := retry_loop cfg who body exhausted remaining attempt s in
  fst out = Ok r
  /\ provider_calls (snd out) = provider_calls s + k + 1
  /\ sleeps (trace (snd out))
     = sleeps (trace s) ++ map backoff (seq attempt k)
  /\ requests (trace (snd out)) = requests (trace s) ++ repeat req (k + 1)
  /\ generation_frame s (snd out).
Proof.
  induction k as [|k IH]; intros remaining attempt s r Hrem Hatt Hfail Hok out;
    subst out; destruct remaining as [|remaining]; try lia.
  - rewrite Nat.add_0_r in Hok. rewrite (retry_step_ok _ _ _ Hok). cbn [fst snd].
    rewrite body_calls, body_sleeps, body_requests. cbn.
    rewrite app_nil_r. splits; try reflexivity; try lia. apply body_frame.
  - assert (H0 : outcome (provider_calls s) = None).
    { rewrite <- (Nat.add_0_r (provider_calls s)). apply Hfail. lia. }
    rewrite (retry_step_again _ _ H0) by lia.
    destruct (IH remaining (S attempt) (after_backoff who body attempt s) r)
      as (Hr & Hc & Hs & Hq & Hf); try lia.
    + intros j Hj. rewrite after_backoff_calls.
      replace (S (provider_calls s) + j) with (provider_calls s + S j) by lia.
      apply Hfail. lia.
    + rewrite after_backoff_calls.
      now replace (S (provider_calls s) + k) with (provider_calls s + S k) by lia.
    + rewrite Hr, Hc, Hs, Hq, after_backoff_calls, after_backoff_sleeps,
        after_backoff_requests.
      cbn [seq map repeat Nat.add]. rewrite <- !app_assoc. cbn [app].
      splits; try reflexivity; try lia.
      eapply generation_frame_trans; [apply after_backoff_frame|exact Hf].
Qed.

(** Every attempt fails. *)
Lemma retry_exhausts : forall remaining attempt s,
  attempt + remaining = MAX_RETRIES cfg + 1 ->
  (forall j, j < remaining -> outcome (provider_calls s + j) = None) ->
  let out := retry_loop cfg who body exhausted remaining attempt s in
  exists s', fst out = fst (exhausted s') /\ snd out = s'
  /\ provider_calls s' = provider_calls s + remaining
  /\ sleeps (trace s')
     = sleeps (trace s) ++ map backoff (seq attempt (remaining - 1))
  /\ requests (trace s') = requests (trace s) ++ repeat req remaining
  /\ generation_frame s s'.
Proof.
  induction remaining as [|remaining IH]; intros attempt s Hsum Hfail out;
    subst out.
  - cbn [retry_loop]. exists s. rewrite exhausted_quiet. cbn.
    rewrite !app_nil_r. splits; try reflexivity; try lia. apply generation_frame_refl.
  - assert (H0 : outcome (provider_calls s) = None).
    { rewrite <- (Nat.add_0_r (provider_calls s)). apply Hfail. lia. }
    destruct remaining as [|remaining].
    + rewrite (retry_step_last _ _ H0) by lia.
      exists (after_last who body s). rewrite exhausted_quiet.
      rewrite after_last_calls, after_last_sleeps, after_last_requests.
      cbn. rewrite app_nil_r.
      splits; try reflexivity; try lia. apply after_last_frame.
    + rewrite (retry_step_again _ _ H0) by lia.
      destruct (IH (S attempt) (after_backoff who body attempt s))
        as (s' & Hr & Hs' & Hc & Hs & Hq & Hf); try lia.
      * intros j Hj. rewrite after_backoff_calls.
        replace (S (provider_calls s) + j) with (provider_calls s + S j) by lia.
        apply Hfail. lia.
      * exists s'. rewrite Hr, Hs', Hc, Hs, Hq, after_backoff_calls,
          after_backoff_sleeps, after_backoff_requests.
        cbn [seq map repeat Nat.sub]. rewrite Nat.sub_0_r.
        rewrite <- !app_assoc. cbn [app].
        splits; try reflexivity; try lia.
        eapply generation_frame_trans; [apply after_backoff_frame|exact Hf].
Qed.

(** Whatever the provider does, the loop only talks to the provider. *)
Lemma retry_frame : forall remaining attempt s,
  let out := retry_loop cfg who body exhausted remaining attempt s in
  generation_frame s (snd out)
  /\ (exists m, m <= remaining
        /\ requests (trace (snd out)) = requests (trace s) ++ repeat req m
        /\ provider_calls (snd out) = provider_calls s + m)
  /\ (forall e, fst out = Raise e -> exists s', fst (exhausted s') = Raise e).
Proof.
  induction remaining as [|remaining IH]; intros attempt s out; subst out.
  - cbn [retry_loop]. rewrite exhausted_quiet. split; [apply generation_frame_refl|].
    split.
    + exists 0. cbn. rewrite app_nil_r. splits; try reflexivity; lia.
    + intros e He. eauto.
  - destruct (outcome (provider_calls s)) as [r|] eqn:Ho.
    + rewrite (retry_step_ok _ _ _ Ho). cbn [fst snd].
      split; [apply body_frame|]. split.
      * exists 1. rewrite body_requests, body_calls. splits; try reflexivity; lia.
      * discriminate.
    + destruct (Nat.lt_ge_cases attempt (MAX_RETRIES cfg)) as [Hlt|Hge].
      * rewrite (retry_step_again _ _ Ho Hlt).
        destruct (IH (S attempt) (after_backoff who body attempt s))
          as (Hf & (m & Hm & Hq & Hc) & He).
        split; [eapply generation_frame_trans;
                [apply after_backoff_frame|exact Hf]|].
        split; [|exact He].
        exists (S m). rewrite Hq, Hc, after_backoff_requests,
          after_backoff_calls. cbn [repeat].
        rewrite <- app_assoc. splits; try reflexivity; lia.
      * rewrite (retry_step_last _ _ Ho Hge).
        rewrite exhausted_quiet. split; [apply after_last_frame|]. split.
        { exists 1. rewrite after_last_requests, after_last_calls.
          splits; try reflexivity; lia. }
        intros e He. eauto.
Qed.

End RetryFacts.

(** ** One attempt *)

Lemma add_events_nil s : add_events [] s = s.
Proof. destruct s. unfold add_events. cbn. now rewrite app_nil_r. Qed.

Lemma add_events_app a b s :
  add_events b (add_events a s) = add_events (a ++ b) s.
Proof. unfold add_events. cbn. now rewrite app_assoc. Qed.

Lemma emit_run e s : emit e s = (Ok tt, add_events [e] s).
Proof. reflexivity. Qed.

Lemma generation_frame_add_events evs s :
  updates evs = [] -> generation_frame s (add_events evs s).
Proof.
  intros H. constructor; cbn; try reflexivity; try lia.
  unfold updates in *. rewrite filter_app, H. now rewrite app_nil_r.
Qed.

Section AttemptFacts.

Variable cfg : config.
Variable py : runtime.
Variable env : environment.
Variable provider : EmbeddingProvider.

Lemma single_attempt_facts text s :
  let out := single_attempt cfg env provider text s in
  match single_outcome env provider text (provider_calls s) with
  | Some v =>
      fst out = Ok (Some v)
      /\ api_calls (stats (snd out)) = (api_calls (stats s) + 1)%Z
      /\ filter is_dimension_warning (trace (snd out))
         = filter is_dimension_warning (trace s)
           ++ (if length v =? EXPECTED_VECTOR_DIMENSION cfg then []
               else [Log WARNING (MsgUnexpectedDimension None (length v))])
      /\ filter is_error_log (trace (snd out)) = filter is_error_log (trace s)
  | None => exists e, fst out = Raise e /\ is_Exception e = true
  end
  /\ provider_calls (snd out) = S (provider_calls s)
  /\ sleeps (trace (snd out)) = sleeps (trace s)
  /\ requests (trace (snd out))
     = requests (trace s) ++ [EmbedOne provider text]
  /\ generation_frame s (snd out).
Proof.
  unfold single_attempt, single_outcome, _generate_embedding_openai,
    _generate_embedding_gemini, provider_call, update_stats, extract,
    bind, ret, raise, log, emit, sleeps, requests.
  destruct provider;
    (destruct (embed_one env (provider_calls s) _ text) as [reason|[v|]];
     cbn -[Nat.eqb];
     [ | destruct (length v =? EXPECTED_VECTOR_DIMENSION cfg); cbn | ];
     rewrite ?filter_app; cbn; rewrite ?app_nil_r;
     splits; eauto;
     constructor; cbn; try reflexivity; try lia;
     unfold updates; rewrite ?filter_app; cbn; now rewrite ?app_nil_r).
Qed.

(** The warning loop of the batch wrapper. *)
Lemma check_dimensions_run note_ids : forall embeddings i s,
  exists evs,
    check_dimensions cfg note_ids i embeddings s
    = (if warnings_indexable cfg (length note_ids) i embeddings
       then Ok tt else Raise IndexError,
       add_events evs s)
    /\ Forall (fun e => is_dimension_warning e = true) evs
    /\ (warnings_indexable cfg (length note_ids) i embeddings = true ->
        forall j e note_id,
          nth_error embeddings j = Some e ->
          nth_error note_ids (i + j) = Some note_id ->
          length e <> EXPECTED_VECTOR_DIMENSION cfg ->
          In (Log WARNING (MsgUnexpectedDimension (Some note_id) (length e)))
            evs).
Proof.
  induction embeddings as [|e rest IH]; intros i s.
  - exists []. cbn. rewrite add_events_nil. splits; auto.
    intros _ [|j] ? ? H; discriminate H.
  - cbn [check_dimensions warnings_indexable].
    destruct (length e =? EXPECTED_VECTOR_DIMENSION cfg) eqn:Edim; cbn [negb orb andb].
    + destruct (IH (S i) s) as (evs & Hrun & Hw & Hin).
      exists evs. unfold bind at 1. cbn [ret]. rewrite Hrun.
      splits; auto.
      intros Hidx [|j] e' nid He' Hid Hlen.
      * cbn in He'. injection He' as <-. apply Nat.eqb_eq in Edim. contradiction.
      * cbn in He'. apply (Hin Hidx j e' nid He'); [|assumption].
        now replace (S i + j) with (i + S j) by lia.
    + destruct (nth_error note_ids i) as [nid|] eqn:Eid.
      * assert (Hlt : (i <? length note_ids) = true).
        { apply Nat.ltb_lt. apply nth_error_Some. congruence. }
        rewrite Hlt. cbn [andb].
        destruct (IH (S i) (add_events
                    [Log WARNING (MsgUnexpectedDimension (Some nid) (length e))] s))
          as (evs & Hrun & Hw & Hin).
        exists (Log WARNING (MsgUnexpectedDimension (Some nid) (length e)) :: evs).
        unfold bind at 1, log. rewrite emit_run, Hrun, add_events_app.
        splits; auto.
        intros Hidx [|j] e' nid' He' Hid Hlen.
        -- cbn in He'. injection He' as <-. rewrite Nat.add_0_r in Hid.
           rewrite Eid in Hid. injection Hid as <-. now left.
        -- right. cbn in He'. apply (Hin Hidx j e' nid' He'); [|assumption].
           now replace (S i + j) with (i + S j) by lia.
      * assert (Hge : (i <? length note_ids) = false).
        { apply Nat.ltb_ge. now apply nth_error_None. }
        rewrite Hge. cbn [andb]. exists []. unfold bind, raise.
        rewrite add_events_nil. splits; auto. discriminate.
Qed.

Lemma gemini_batch_run texts s :
  _generate_embeddings_gemini_batch env texts s
  = let s1 := after_request (EmbedBatch texts)
                (add_events [Log DEBUG (MsgBatchDebug (length texts))] s) in
    match embed_batch env (provider_calls s) texts with
    | Fails reason => (Raise (RemoteError reason), s1)
    | Returns None => (Raise (OtherError "LookupError"), set_stats incr_api_calls s1)
    | Returns (Some embeddings) => (Ok embeddings, set_stats incr_api_calls s1)
    end.
Proof.
  unfold _generate_embeddings_gemini_batch, provider_call, bind, log, emit,
    update_stats, extract, ret, raise.
  cbn. destruct (embed_batch env (provider_calls s) texts) as [r|[v|]];
    reflexivity.
Qed.

Lemma dimension_warnings_quiet evs :
  Forall (fun e => is_dimension_warning e = true) evs ->
  sleeps evs = [] /\ requests evs = [] /\ updates evs = []
  /\ filter is_error_log evs = [].
Proof.
  induction 1 as [|e l He _ IHl]; [auto|].
  destruct IHl as (H1 & H2 & H3 & H4).
  destruct e as [[] []| | | | | | |]; try discriminate He; cbn; auto.
Qed.

Lemma batch_attempt_facts texts note_ids s :
  let out := batch_attempt cfg env texts note_ids s in
  match batch_outcome cfg env texts note_ids (provider_calls s) with
  | Some d =>
      fst out = Ok d
      /\ api_calls (stats (snd out)) = (api_calls (stats s) + 1)%Z
      /\ filter is_error_log (trace (snd out)) = filter is_error_log (trace s)
  | None => exists e, fst out = Raise e /\ is_Exception e = true
  end
  /\ provider_calls (snd out) = S (provider_calls s)
  /\ sleeps (trace (snd out)) = sleeps (trace s)
  /\ requests (trace (snd out)) = requests (trace s) ++ [EmbedBatch texts]
  /\ generation_frame s (snd out).
Proof.
  unfold batch_attempt, batch_outcome. rewrite bind_run, gemini_batch_run.
  cbv zeta.
  destruct (embed_batch env (provider_calls s) texts) as [reason|[embeddings|]].
  - cbn. unfold sleeps, requests. rewrite !filter_app. cbn.
    rewrite !app_nil_r. splits; eauto.
    constructor; cbn; try reflexivity; try lia.
    unfold updates. rewrite !filter_app. cbn. now rewrite !app_nil_r.
  - rewrite bind_run.
    match goal with |- context [check_dimensions cfg note_ids 0 embeddings ?s0] =>
      destruct (check_dimensions_run note_ids embeddings 0 s0)
        as (evs & Hrun & Hw & _)
    end.
    rewrite Hrun.
    destruct (dimension_warnings_quiet Hw) as (Hs1 & Hs2 & Hs3 & Hs4).
    match goal with |- context [add_events evs ?s0] =>
      assert (Hframe : generation_frame s (add_events evs s0))
    end.
    { constructor; cbn; try reflexivity; try lia.
      unfold updates in *. rewrite !filter_app, Hs3. cbn.
      now rewrite !app_nil_r. }
    destruct (warnings_indexable cfg (length note_ids) 0 embeddings).
    + unfold lift. destruct (dict_of_zip note_ids embeddings) as [d|e] eqn:Ed.
      * cbn. unfold sleeps, requests in *. rewrite !filter_app, Hs1, Hs2, Hs4.
        cbn. rewrite !app_nil_r. splits; auto.
      * cbn. unfold sleeps, requests in *. rewrite !filter_app, Hs1, Hs2.
        cbn. rewrite !app_nil_r. splits; auto.
        exists e. split; [reflexivity|].
        unfold dict_of_zip in Ed.
        destruct (forallb _ _); [discriminate|]. now injection Ed as <-.
    + cbn. unfold sleeps, requests in *. rewrite !filter_app, Hs1, Hs2.
      cbn. rewrite !app_nil_r. splits; eauto.
  - cbn. unfold sleeps, requests. rewrite !filter_app. cbn.
    rewrite !app_nil_r. splits; eauto.
    constructor; cbn; try reflexivity; try lia.
    unfold updates. rewrite !filter_app. cbn. now rewrite !app_nil_r.
Qed.

End AttemptFacts.

(** ** The two retry wrappers *)

Section WrapperFacts.

Variable cfg : config.
Variable env : environment.
Variable provider : EmbeddingProvider.


Lemma single_body_result text s :
  match single_result env provider text (provider_calls s) with
  | Some r => fst (single_attempt cfg env provider text s) = Ok r
  | None => exists e, fst (single_attempt cfg env provider text s) = Raise e
                      /\ is_Exception e = true
  end.
Proof.
  unfold single_result.
  destruct (single_attempt_facts cfg env provider text s) as (H & _).
  destruct (single_outcome env provider text (provider_calls s)); cbn.
  - apply H.
  - exact H.
Qed.

Lemma single_body_calls text s :
  provider_calls (snd (single_attempt cfg env provider text s))
  = S (provider_calls s).
Proof. apply (single_attempt_facts cfg env provider text s). Qed.

Lemma single_body_sleeps text s :
  sleeps (trace (snd (single_attempt cfg env provider text s)))
  = sleeps (trace s).
Proof. apply (single_attempt_facts cfg env provider text s). Qed.

Lemma single_body_requests text s :
  requests (trace (snd (single_attempt cfg env provider text s)))
  = requests (trace s) ++ [EmbedOne provider text].
Proof. apply (single_attempt_facts cfg env provider text s). Qed.

Lemma single_body_frame text s :
  generation_frame s (snd (single_attempt cfg env provider text s)).
Proof. apply (single_attempt_facts cfg env provider text s). Qed.

Lemma batch_body_result texts note_ids s :
  match batch_outcome cfg env texts note_ids (provider_calls s) with
  | Some r => fst (batch_attempt cfg env texts note_ids s) = Ok r
  | None => exists e, fst (batch_attempt cfg env texts note_ids s) = Raise e
                      /\ is_Exception e = true
  end.
Proof.
  destruct (batch_attempt_facts cfg env texts note_ids s) as (H & _).
  destruct (batch_outcome cfg env texts note_ids (provider_calls s)).
  - apply H.
  - exact H.
Qed.

Lemma batch_body_calls texts note_ids s :
  provider_calls (snd (batch_attempt cfg env texts note_ids s))
  = S (provider_calls s).
Proof. apply (batch_attempt_facts cfg env texts note_ids s). Qed.

Lemma batch_body_sleeps texts note_ids s :
  sleeps (trace (snd (batch_attempt cfg env texts note_ids s)))
  = sleeps (trace s).
Proof. apply (batch_attempt_facts cfg env texts note_ids s). Qed.

Lemma batch_body_requests texts note_ids s :
  requests (trace (snd (batch_attempt cfg env texts note_ids s)))
  = requests (trace s) ++ [EmbedBatch texts].
Proof. apply (batch_attempt_facts cfg env texts note_ids s). Qed.

Lemma batch_body_frame texts note_ids s :
  generation_frame s (snd (batch_attempt cfg env texts note_ids s)).
Proof. apply (batch_attempt_facts cfg env texts note_ids s). Qed.

Lemma single_retry_succeeds text note_id s k v :
  k < MAX_RETRIES cfg ->
  (forall j, j < k ->
     single_outcome env provider text (provider_calls s + j) = None) ->
  single_outcome env provider text (provider_calls s + k) = Some v ->
  let out := _generate_embedding_with_retry cfg env provider text note_id s in
  fst out = Ok (Some v)
  /\ provider_calls (snd out) = provider_calls s + k + 1
  /\ sleeps (trace (snd out)) = sleeps (trace s) ++ map backoff (seq 1 k)
  /\ requests (trace (snd out))
     = requests (trace s) ++ repeat (EmbedOne provider text) (k + 1)
  /\ generation_frame s (snd out).
Proof.
  intros Hk Hfail Hok. unfold _generate_embedding_with_retry.
  apply (@retry_succeeds_after cfg _ (Some note_id) _ (ret None) _ _
           (single_body_result text) (single_body_calls text)
           (single_body_sleeps text) (single_body_requests text)
           (single_body_frame text)); try lia.
  - intros j Hj. unfold single_result. now rewrite Hfail.
  - unfold single_result. now rewrite Hok.
Qed.

Lemma single_retry_exhausts text note_id s :
  (forall j, j < MAX_RETRIES cfg ->
     single_outcome env provider text (provider_calls s + j) = None) ->
  let out := _generate_embedding_with_retry cfg env provider text note_id s in
  fst out = Ok None
  /\ provider_calls (snd out) = provider_calls s + MAX_RETRIES cfg
  /\ sleeps (trace (snd out))
     = sleeps (trace s) ++ map backoff (seq 1 (MAX_RETRIES cfg - 1))
  /\ requests (trace (snd out))
     = requests (trace s) ++ repeat (EmbedOne provider text) (MAX_RETRIES cfg)
  /\ generation_frame s (snd out).
Proof.
  intros Hfail. unfold _generate_embedding_with_retry.
  destruct (@retry_exhausts cfg _ (Some note_id) _ (ret None) _ _
              (single_body_result text) (single_body_calls text)
              (single_body_sleeps text) (single_body_requests text)
              (single_body_frame text) (fun s => eq_refl)
              (MAX_RETRIES cfg) 1 s)
    as (s' & Hr & Hs' & Hrest); try lia.
  - intros j Hj. unfold single_result. now rewrite Hfail.
  - cbv zeta. rewrite Hr, Hs'. split; [reflexivity|exact Hrest].
Qed.

Lemma batch_retry_succeeds texts_with_ids s k d :
  let texts := map (fun t => fst (fst t)) texts_with_ids in
  let note_ids := map (fun t => snd (fst t)) texts_with_ids in
  k < MAX_RETRIES cfg ->
  (forall j, j < k ->
     batch_outcome cfg env texts note_ids (provider_calls s + j) = None) ->
  batch_outcome cfg env texts note_ids (provider_calls s + k) = Some d ->
  let out := _generate_embeddings_batch_with_retry cfg env texts_with_ids s in
  fst out = Ok d
  /\ provider_calls (snd out) = provider_calls s + k + 1
  /\ sleeps (trace (snd out)) = sleeps (trace s) ++ map backoff (seq 1 k)
  /\ requests (trace (snd out))
     = requests (trace s) ++ repeat (EmbedBatch texts) (k + 1)
  /\ generation_frame s (snd out).
Proof.
  intros texts note_ids Hk Hfail Hok.
  unfold _generate_embeddings_batch_with_retry.
  apply (@retry_succeeds_after cfg _ None _ (lift (dict_of_none note_ids)) _ _
           (batch_body_result texts note_ids) (batch_body_calls texts note_ids)
           (batch_body_sleeps texts note_ids)
           (batch_body_requests texts note_ids)
           (batch_body_frame texts note_ids)); try lia; assumption.
Qed.

Lemma batch_retry_exhausts texts_with_ids s :
  let texts := map (fun t => fst (fst t)) texts_with_ids in
  let note_ids := map (fun t => snd (fst t)) texts_with_ids in
  (forall j, j < MAX_RETRIES cfg ->
     batch_outcome cfg env texts note_ids (provider_calls s + j) = None) ->
  let out := _generate_embeddings_batch_with_retry cfg env texts_with_ids s in
  fst out = dict_of_none note_ids
  /\ provider_calls (snd out) = provider_calls s + MAX_RETRIES cfg
  /\ sleeps (trace (snd out))
     = sleeps (trace s) ++ map backoff (seq 1 (MAX_RETRIES cfg - 1))
  /\ requests (trace (snd out))
     = requests (trace s) ++ repeat (EmbedBatch texts) (MAX_RETRIES cfg)
  /\ generation_frame s (snd out).
Proof.
  intros texts note_ids Hfail.
  unfold _generate_embeddings_batch_with_retry.
  destruct (@retry_exhausts cfg _ None _ (lift (dict_of_none note_ids)) _ _
              (batch_body_result texts note_ids)
              (batch_body_calls texts note_ids)
              (batch_body_sleeps texts note_ids)
              (batch_body_requests texts note_ids)
              (batch_body_frame texts note_ids) (fun s => eq_refl)
              (MAX_RETRIES cfg) 1 s)
    as (s' & Hr & Hs' & Hrest); try lia.
  - assumption.
  - cbv zeta. fold texts note_ids. rewrite Hr, Hs'.
    split; [reflexivity|exact Hrest].
Qed.

End WrapperFacts.

(** C1.  For each of the two retry wrappers, with [MAX_RETRIES] attempts:
    when the wrapped operation fails on the attempts 1..k (k below the
    maximum) and succeeds on attempt k+1, the wrapper returns that result
    after exactly the k pauses of 2^1, ..., 2^k seconds and k+1 provider
    requests; when it fails on every attempt, the wrapper returns the
    failure marker ([None]; for a batch the dictionary that maps every
    identity to [None]) after exactly [MAX_RETRIES - 1] pauses and
    [MAX_RETRIES] provider requests, never one more. *)
Theorem retry_executor_contract (cfg : config) (env : environment)
  (provider : EmbeddingProvider) (s : state) :
  (forall text note_id k v,
      k < MAX_RETRIES cfg ->
      (forall j, j < k ->
         single_outcome env provider text (provider_calls s + j) = None) ->
      single_outcome env provider text (provider_calls s + k) = Some v ->
      let out := _generate_embedding_with_retry cfg env provider text note_id s in
      fst out = Ok (Some v)
      /\ sleeps (trace (snd out)) = sleeps (trace s) ++ map backoff (seq 1 k)
      /\ requests (trace (snd out))
         = requests (trace s) ++ repeat (EmbedOne provider text) (k + 1)
      /\ provider_calls (snd out) = provider_calls s + (k + 1))
  /\ (forall text note_id,
         (forall j, j < MAX_RETRIES cfg ->
            single_outcome env provider text (provider_calls s + j) = None) ->
         let out :=
           _generate_embedding_with_retry cfg env provider text note_id s in
         fst out = Ok None
         /\ sleeps (trace (snd out))
            = sleeps (trace s) ++ map backoff (seq 1 (MAX_RETRIES cfg - 1))
         /\ requests (trace (snd out))
            = requests (trace s)
              ++ repeat (EmbedOne provider text) (MAX_RETRIES cfg)
         /\ provider_calls (snd out) = provider_calls s + MAX_RETRIES cfg)
  /\ (forall texts_with_ids k d,
         let texts := map (fun t => fst (fst t)) texts_with_ids in
         let note_ids := map (fun t => snd (fst t)) texts_with_ids in
         k < MAX_RETRIES cfg ->
         (forall j, j < k ->
            batch_outcome cfg env texts note_ids (provider_calls s + j) = None) ->
         batch_outcome cfg env texts note_ids (provider_calls s + k) = Some d ->
         let out :=
           _generate_embeddings_batch_with_retry cfg env texts_with_ids s in
         fst out = Ok d
         /\ sleeps (trace (snd out)) = sleeps (trace s) ++ map backoff (seq 1 k)
         /\ requests (trace (snd out))
            = requests (trace s) ++ repeat (EmbedBatch texts) (k + 1)
         /\ provider_calls (snd out) = provider_calls s + (k + 1))
  /\ (forall texts_with_ids,
         let texts := map (fun t => fst (fst t)) texts_with_ids in
         let note_ids := map (fun t => snd (fst t)) texts_with_ids in
         forallb hashable note_ids = true ->
         (forall j, j < MAX_RETRIES cfg ->
            batch_outcome cfg env texts note_ids (provider_calls s + j) = None) ->
         let out :=
           _generate_embeddings_batch_with_retry cfg env texts_with_ids s in
         fst out = Ok (map (fun note_id => (note_id, None)) note_ids)
         /\ sleeps (trace (snd out))
            = sleeps (trace s) ++ map backoff (seq 1 (MAX_RETRIES cfg - 1))
         /\ requests (trace (snd out))
            = requests (trace s) ++ repeat (EmbedBatch texts) (MAX_RETRIES cfg)
         /\ provider_calls (snd out) = provider_calls s + MAX_RETRIES cfg).
Proof.
  splits.
  - intros text note_id k v Hk Hfail Hok.
    destruct (single_retry_succeeds cfg env provider text note_id s Hk Hfail Hok)
      as (H1 & H2 & H3 & H4 & _).
    cbv zeta. rewrite H1, H2, H3, H4. splits; try reflexivity. lia.
  - intros text note_id Hfail.
    destruct (single_retry_exhausts cfg env provider text note_id s Hfail)
      as (H1 & H2 & H3 & H4 & _).
    cbv zeta. rewrite H1, H2, H3, H4. splits; reflexivity.
  - intros tw k d texts note_ids Hk Hfail Hok.
    destruct (batch_retry_succeeds cfg env tw s Hk Hfail Hok)
      as (H1 & H2 & H3 & H4 & _).
    cbv zeta. rewrite H1, H2, H3, H4. splits; try reflexivity. lia.
  - intros tw texts note_ids Hhash Hfail.
    destruct (batch_retry_exhausts cfg env tw s Hfail)
      as (H1 & H2 & H3 & H4 & _).
    cbv zeta. rewrite H1, H2, H3, H4. fold note_ids.
    unfold dict_of_none. rewrite Hhash. splits; reflexivity.
Qed.

Lemma retry_executor_contract_witness :
  let out :=
    _generate_embedding_with_retry Sample.small_config Sample.flaky OPENAI
      "Title: Memo" (JInt 7) initial_state in
  fst out = Ok (Some Sample.unit_vector)
  /\ sleeps (trace (snd out)) = [] ++ map backoff (seq 1 2)
  /\ requests (trace (snd out))
     = [] ++ repeat (EmbedOne OPENAI "Title: Memo") (2 + 1)
  /\ provider_calls (snd out) = 0 + (2 + 1).
Proof.
  refine (proj1 (retry_executor_contract Sample.small_config Sample.flaky
                   OPENAI initial_state)
            "Title: Memo" (JInt 7) 2 Sample.unit_vector _ _ _).
  - vm_compute. lia.
  - intros [|[|j]] Hj; try reflexivity. lia.
  - reflexivity.
Defined.

(** ** Persisting one embedding *)

Section PersistFacts.

Variable env : environment.

Lemma update_run dry_run note_id embedding s :
  _update_note_embedding env dry_run note_id embedding s
  = if dry_run then
      (Ok true, add_events [Log INFO (MsgDryRunUpdate note_id)] s)
    else
      let s1 := after_update (Update note_id embedding) s in
      match store_update env (store_calls s) note_id embedding with
      | Returns true => (Ok true, s1)
      | Returns false =>
          (Ok false,
           add_events [Log WARNING (MsgNoDataReturned note_id)] s1)
      | Fails _ =>
          (Ok false, add_events [Log ERROR (MsgUpdateFailed note_id)] s1)
      end.
Proof.
  unfold _update_note_embedding, try_except, store_call, bind, log, emit, ret.
  destruct dry_run; [reflexivity|]. cbn.
  destruct (store_update env (store_calls s) note_id embedding) as [r|[|]];
    reflexivity.
Qed.

(** The persistence step returns a flag whatever the store does. *)
Lemma update_never_raises dry_run note_id embedding s :
  exists b, fst (_update_note_embedding env dry_run note_id embedding s) = Ok b.
Proof.
  rewrite update_run. destruct dry_run; [cbn; eauto|]. cbv zeta.
  destruct (store_update env (store_calls s) note_id embedding) as [r|[|]];
    cbn; eauto.
Qed.

Lemma record_error_run note_id title reason s :
  record_error note_id title reason s
  = (Ok tt,
     add_error {| error_id := note_id; error_title := title; error := reason |}
       (set_stats incr_errors s)).
Proof. reflexivity. Qed.

Lemma persist_run dry_run note_id title embedding s :
  persist env dry_run note_id title embedding s
  = if dry_run then
      (Ok tt,
       set_stats incr_processed
         (add_events [Log INFO (MsgDryRunUpdate note_id);
                      Log SUCCESS (MsgUpdated note_id)] s))
    else
      let s1 := after_update (Update note_id embedding) s in
      match store_update env (store_calls s) note_id embedding with
      | Returns true =>
          (Ok tt,
           set_stats incr_processed
             (add_events [Log SUCCESS (MsgUpdated note_id)] s1))
      | Returns false =>
          (Ok tt,
           add_error
             {| error_id := note_id; error_title := title;
                error := update_failed |}
             (set_stats incr_errors
                (add_events [Log WARNING (MsgNoDataReturned note_id)] s1)))
      | Fails _ =>
          (Ok tt,
           add_error
             {| error_id := note_id; error_title := title;
                error := update_failed |}
             (set_stats incr_errors
                (add_events [Log ERROR (MsgUpdateFailed note_id)] s1)))
      end.
Proof.
  unfold persist. rewrite bind_run, update_run.
  destruct dry_run.
  - unfold bind, log, emit, update_stats, add_events, set_stats. cbn.
    now rewrite <- app_assoc.
  - cbv zeta.
    destruct (store_update env (store_calls s) note_id embedding) as [r|[|]];
      reflexivity.
Qed.

(** What persisting one embedding does to the accounts. *)
Lemma persist_facts dry_run note_id title embedding s :
  let out := persist env dry_run note_id title embedding s in
  let confirmed :=
    dry_run || store_confirms env (store_calls s) note_id embedding in
  fst out = Ok tt
  /\ processed (stats (snd out))
     = (processed (stats s) + if confirmed then 1 else 0)%Z
  /\ errors (stats (snd out))
     = (errors (stats s) + if confirmed then 0 else 1)%Z
  /\ error_notes (snd out)
     = error_notes s
       ++ (if confirmed then []
           else [{| error_id := note_id; error_title := title;
                    error := update_failed |}])
  /\ store_calls (snd out) = store_calls s + (if dry_run then 0 else 1)
  /\ updates (trace (snd out))
     = updates (trace s)
       ++ (if dry_run then [] else [Update note_id embedding])
  /\ total_found (stats (snd out)) = total_found (stats s)
  /\ skipped_empty (stats (snd out)) = skipped_empty (stats s)
  /\ skipped_too_long (stats (snd out)) = skipped_too_long (stats s)
  /\ api_calls (stats (snd out)) = api_calls (stats s)
  /\ skipped_notes (snd out) = skipped_notes s
  /\ provider_calls (snd out) = provider_calls s
  /\ requests (trace (snd out)) = requests (trace s)
  /\ sleeps (trace (snd out)) = sleeps (trace s).
Proof.
  rewrite persist_run. unfold store_confirms, updates, requests, sleeps.
  destruct dry_run; cbv zeta.
  - cbn. rewrite !filter_app. cbn. rewrite !app_nil_r.
    splits; try reflexivity; lia.
  - destruct (store_update env (store_calls s) note_id embedding) as [r|[|]];
      cbn; rewrite !filter_app; cbn; rewrite ?app_nil_r;
      splits; try reflexivity; lia.
Qed.

End PersistFacts.

(** ** One record *)

Section RecordFacts.

Variable cfg : config.
Variable py : runtime.
Variable env : environment.
Variable provider : EmbeddingProvider.
Variable dry_run : bool.

(** The single wrapper always returns, and only talks to the provider. *)
Lemma single_retry_frame text note_id s :
  let out := _generate_embedding_with_retry cfg env provider text note_id s in
  (exists r, fst out = Ok r)
  /\ generation_frame s (snd out)
  /\ exists m, m <= MAX_RETRIES cfg
       /\ requests (trace (snd out))
          = requests (trace s) ++ repeat (EmbedOne provider text) m
       /\ provider_calls (snd out) = provider_calls s + m.
Proof.
  unfold _generate_embedding_with_retry.
  destruct (@retry_frame cfg _ (Some note_id) _ (ret None) _ _
              (single_body_result cfg env provider text)
              (single_body_calls cfg env provider text)
              (single_body_requests cfg env provider text)
              (single_body_frame cfg env provider text)
              (fun s => eq_refl) (MAX_RETRIES cfg) 1 s)
    as (Hf & Hm & He).
  cbv zeta. splits; [|exact Hf|exact Hm].
  destruct (fst (retry_loop cfg (Some note_id)
                   (single_attempt cfg env provider text) (ret None)
                   (MAX_RETRIES cfg) 1 s)) as [r|e] eqn:E; [eauto|].
  destruct (He e eq_refl) as (s' & Hs'). discriminate Hs'.
Qed.

(** The batch wrapper raises only when the all-[None] dictionary cannot be
    built. *)
Lemma batch_retry_frame texts_with_ids s :
  let texts := map (fun t => fst (fst t)) texts_with_ids in
  let note_ids := map (fun t => snd (fst t)) texts_with_ids in
  let out := _generate_embeddings_batch_with_retry cfg env texts_with_ids s in
  (forall e, fst out = Raise e -> dict_of_none note_ids = Raise e)
  /\ generation_frame s (snd out)
  /\ exists m, m <= MAX_RETRIES cfg
       /\ requests (trace (snd out))
          = requests (trace s) ++ repeat (EmbedBatch texts) m
       /\ provider_calls (snd out) = provider_calls s + m.
Proof.
  intros texts note_ids. unfold _generate_embeddings_batch_with_retry.
  fold texts note_ids.
  destruct (@retry_frame cfg _ None _ (lift (dict_of_none note_ids)) _ _
              (batch_body_result cfg env texts note_ids)
              (batch_body_calls cfg env texts note_ids)
              (batch_body_requests cfg env texts note_ids)
              (batch_body_frame cfg env texts note_ids)
              (fun s => eq_refl) (MAX_RETRIES cfg) 1 s)
    as (Hf & Hm & He).
  cbv zeta. splits; [|exact Hf|exact Hm].
  intros e Hr. destruct (He e Hr) as (s' & Hs'). exact Hs'.
Qed.

(** The iteration of the single loop, in terms of what the wrapper
    returned. *)
Lemma single_iteration_run total index note text s :
  let note_id := get "id" note in
  let title := py_or (get "title" note) untitled in
  exists r s1,
    _generate_embedding_with_retry cfg env provider text note_id
      (add_events [Log INFO (MsgProcessing note_id title)] s) = (Ok r, s1)
    /\ generation_frame s s1
    /\ (exists m, m <= MAX_RETRIES cfg
          /\ requests (trace s1)
             = requests (trace s) ++ repeat (EmbedOne provider text) m
          /\ provider_calls s1 = provider_calls s + m)
    /\ single_iteration cfg env provider dry_run total (index, (note, text)) s
       = match r with
         | None => record_error note_id title generation_failed s1
         | Some embedding =>
             let out := persist env dry_run note_id title embedding s1 in
             (Ok tt,
              if index <? total
              then add_events [Sleep (FloatSeconds (DELAY_BETWEEN_CALLS cfg))]
                     (snd out)
              else snd out)
         end.
Proof.
  intros note_id title.
  set (s0 := add_events [Log INFO (MsgProcessing note_id title)] s).
  destruct (single_retry_frame text note_id s0) as ((r & Hr) & Hf & m & Hm & Hq & Hc).
  destruct (_generate_embedding_with_retry cfg env provider text note_id s0)
    as [res s1] eqn:E.
  cbn [fst snd] in *. subst res. exists r, s1. splits.
  - reflexivity.
  - eapply generation_frame_trans; [|exact Hf].
    apply generation_frame_add_events. reflexivity.
  - exists m. splits; [exact Hm| |exact Hc].
    rewrite Hq. unfold s0, requests. cbn. rewrite filter_app. cbn.
    now rewrite app_nil_r.
  - unfold single_iteration. fold note_id title.
    rewrite bind_run. unfold log. rewrite emit_run. fold s0.
    rewrite bind_run, E. destruct r as [embedding|]; [|reflexivity].
    rewrite bind_run.
    destruct (persist_facts env dry_run note_id title embedding s1) as (Hp & _).
    destruct (persist env dry_run note_id title embedding s1) as [pr s2].
    cbn [fst snd] in *. subst pr.
    destruct (index <? total); reflexivity.
Qed.

(** Each record of the single loop ends in exactly one counter. *)
(** The pause after a record leaves everything else alone. *)
Lemma pause_facts (b : bool) d s :
  let s' := if b then add_events [Sleep d] s else s in
  stats s' = stats s /\ store_calls s' = store_calls s
  /\ provider_calls s' = provider_calls s
  /\ error_notes s' = error_notes s /\ skipped_notes s' = skipped_notes s
  /\ updates (trace s') = updates (trace s)
  /\ requests (trace s') = requests (trace s).
Proof.
  destruct b; cbn; unfold updates, requests; rewrite ?filter_app; cbn;
    rewrite ?app_nil_r; splits; reflexivity.
Qed.

(** Each record of the single loop ends in exactly one counter. *)
Lemma single_iteration_facts total index note text s :
  let out :=
    single_iteration cfg env provider dry_run total (index, (note, text)) s in
  fst out = Ok tt
  /\ accounted (stats (snd out)) = (accounted (stats s) + 1)%Z
  /\ total_found (stats (snd out)) = total_found (stats s)
  /\ (dry_run = true ->
      store_calls (snd out) = store_calls s
      /\ updates (trace (snd out)) = updates (trace s))
  /\ (exists m, m <= MAX_RETRIES cfg
        /\ requests (trace (snd out))
           = requests (trace s) ++ repeat (EmbedOne provider text) m).
Proof.
  destruct (single_iteration_run total index note text s)
    as (r & s1 & _ & Hf & (m & Hm & Hq & _) & Hrun).
  cbv zeta. rewrite Hrun. destruct Hf. unfold accounted.
  destruct r as [embedding|].
  - destruct (persist_facts env dry_run (get "id" note)
                (py_or (get "title" note) untitled) embedding s1)
      as (_ & Hp & He & _ & Hsc & Hu & Ht & Hse & Hsl & _ & _ & _ & Hrq & _).
    cbv zeta in *. cbn [fst snd].
    set (s2 := snd (persist env dry_run (get "id" note)
                      (py_or (get "title" note) untitled) embedding s1)) in *.
    destruct (pause_facts (index <? total)
                (FloatSeconds (DELAY_BETWEEN_CALLS cfg)) s2)
      as (Hst & Hsc' & _ & _ & _ & Hu' & Hrq').
    cbv zeta in *. rewrite Hst, Hsc', Hu', Hrq'.
    splits.
    + reflexivity.
    + rewrite Hp, He, Hse, Hsl. destruct (dry_run || _); lia.
    + congruence.
    + intros ->. cbv beta iota in Hsc, Hu.
      rewrite Nat.add_0_r in Hsc. rewrite app_nil_r in Hu.
      split; congruence.
    + exists m. split; [exact Hm|congruence].
  - rewrite record_error_run. cbn.
    splits.
    + reflexivity.
    + lia.
    + congruence.
    + intros _. split; assumption.
    + exists m. split; [exact Hm|exact Hq].
Qed.

End RecordFacts.

(** ** Loops *)

Lemma for_each_cons {A} (x : A) xs body s :
  for_each (x :: xs) body s
  = match body x s with
    | (Ok _, s') => for_each xs body s'
    | (Raise e, s') => (Raise e, s')
    end.
Proof. reflexivity. Qed.

(** An invariant of every iteration is an invariant of the loop. *)
Lemma for_each_preserves {A} (P : state -> Prop) (body : A -> M unit) :
  forall xs s,
    (forall x s, In x xs -> P s -> P (snd (body x s))) ->
    P s -> P (snd (for_each xs body s)).
Proof.
  induction xs as [|x xs IH]; intros s Hbody HP; [exact HP|].
  rewrite for_each_cons.
  pose proof (Hbody x s (or_introl eq_refl) HP) as Hx.
  destruct (body x s) as [[[]|e] s']; cbn [snd] in *; [|exact Hx].
  apply IH; [|exact Hx]. intros y s0 Hy. apply Hbody. now right.
Qed.

(** A loop whose iterations return does return. *)
Lemma for_each_returns {A} (body : A -> M unit) :
  forall xs s,
    (forall x s, In x xs -> fst (body x s) = Ok tt) ->
    fst (for_each xs body s) = Ok tt.
Proof.
  induction xs as [|x xs IH]; intros s Hbody; [reflexivity|].
  rewrite for_each_cons.
  pose proof (Hbody x s (or_introl eq_refl)) as Hx.
  destruct (body x s) as [[[]|e] s']; cbn [fst] in *; [|discriminate].
  apply IH. intros y s0 Hy. apply Hbody. now right.
Qed.

(** A quantity that every returning iteration increases by [f x]. *)
Lemma for_each_count {A} (g : state -> Z) (f : A -> nat)
  (body : A -> M unit) :
  forall xs s,
    (forall x s, In x xs -> fst (body x s) = Ok tt ->
                 g (snd (body x s)) = (g s + Z.of_nat (f x))%Z) ->
    fst (for_each xs body s) = Ok tt ->
    g (snd (for_each xs body s)) = (g s + Z.of_nat (list_sum (map f xs)))%Z.
Proof.
  induction xs as [|x xs IH]; intros s Hbody Hok; [cbn; lia|].
  rewrite for_each_cons in *.
  pose proof (Hbody x s (or_introl eq_refl)) as Hx.
  destruct (body x s) as [[[]|e] s']; cbn [fst snd] in *; [|discriminate].
  rewrite IH; [|intros y s0 Hy; apply Hbody; now right|exact Hok].
  rewrite Hx by reflexivity. cbn [map]. unfold list_sum. cbn [fold_right]. lia.
Qed.

(** ** The range and the slices of the batch loop *)

Lemma ceil_div_step d step :
  0 < step -> 0 < d ->
  (d + step - 1) / step = S ((d - step + step - 1) / step).
Proof.
  intros Hs Hd.
  replace (d + step - 1) with ((d - 1) + 1 * step) by lia.
  rewrite Nat.div_add by lia.
  destruct (Nat.le_gt_cases step d) as [Hle|Hgt].
  - replace (d - step + step - 1) with (d - 1) by lia. lia.
  - replace (d - step + step - 1) with (step - 1) by lia.
    rewrite !Nat.div_small by lia. lia.
Qed.

Lemma py_range_from_spec step : 0 < step ->
  forall fuel start stop,
    stop - start <= fuel ->
    py_range_from fuel start stop step
    = map (fun i => start + i * step)
        (seq 0 ((stop - start + step - 1) / step)).
Proof.
  intros Hstep. induction fuel as [|fuel IH]; intros start stop Hfuel.
  - replace (stop - start) with 0 by lia. cbn [Nat.add].
    rewrite Nat.div_small by lia. reflexivity.
  - cbn [py_range_from]. destruct (start <? stop) eqn:E.
    + apply Nat.ltb_lt in E.
      rewrite (ceil_div_step (d := stop - start)) by lia.
      cbn [seq map]. rewrite Nat.add_0_r. f_equal.
      rewrite IH by lia. rewrite <- seq_shift, map_map.
      replace (stop - (start + step)) with (stop - start - step) by lia.
      apply map_ext. intros i. cbn. lia.
    + apply Nat.ltb_ge in E. replace (stop - start) with 0 by lia.
      cbn [Nat.add]. rewrite Nat.div_small by lia. reflexivity.
Qed.

Lemma py_range_spec total step :
  0 < step ->
  py_range 0 total step
  = map (fun i => i * step) (seq 0 ((total + step - 1) / step)).
Proof.
  intros Hstep. unfold py_range. rewrite py_range_from_spec by lia.
  now rewrite Nat.sub_0_r.
Qed.

Lemma slice_length {A} (l : list A) a b :
  b <= length l -> length (slice l a b) = b - a.
Proof.
  intros Hb. unfold slice. rewrite length_firstn, length_skipn. lia.
Qed.

Lemma slice_incl {A} (l : list A) a b : incl (slice l a b) l.
Proof.
  unfold slice. intros x Hx.
  rewrite <- (firstn_skipn a l). apply in_or_app. right.
  rewrite <- (firstn_skipn (b - a) (skipn a l)). apply in_or_app. now left.
Qed.

(** The slices taken by the loop, concatenated, are the rest of the
    list. *)
Lemma slices_concat {A} (l : list A) step : 0 < step ->
  forall fuel start,
    length l - start <= fuel ->
    List.concat (map (fun b => slice l b (Nat.min (b + step) (length l)))
              (py_range_from fuel start (length l) step))
    = skipn start l.
Proof.
  intros Hstep. induction fuel as [|fuel IH]; intros start Hfuel.
  - cbn. symmetry. apply skipn_all2. lia.
  - cbn [py_range_from]. destruct (start <? length l) eqn:E.
    + apply Nat.ltb_lt in E. cbn [map List.concat]. rewrite IH by lia.
      unfold slice.
      replace (start + step) with (step + start) by lia.
      rewrite <- skipn_skipn.
      destruct (Nat.le_gt_cases (step + start) (length l)) as [Hle|Hgt].
      * rewrite Nat.min_l by lia.
        replace (step + start - start) with step by lia.
        apply firstn_skipn.
      * rewrite Nat.min_r by lia.
        rewrite (skipn_all2 (n := step)) by (rewrite length_skipn; lia).
        rewrite app_nil_r. apply firstn_all2. rewrite length_skipn. lia.
    + apply Nat.ltb_ge in E. cbn. symmetry. now apply skipn_all2.
Qed.

Lemma chunks_concat cfg valid_notes :
  0 < GEMINI_BATCH_SIZE cfg -> List.concat (chunks cfg valid_notes) = valid_notes.
Proof.
  intros Hstep. unfold chunks, py_range.
  rewrite slices_concat by lia. reflexivity.
Qed.

Lemma chunks_length cfg valid_notes :
  0 < GEMINI_BATCH_SIZE cfg ->
  length (chunks cfg valid_notes)
  = (length valid_notes + GEMINI_BATCH_SIZE cfg - 1) / GEMINI_BATCH_SIZE cfg.
Proof.
  intros Hstep. unfold chunks. rewrite py_range_spec by assumption.
  now rewrite !length_map, length_seq.
Qed.

Lemma chunks_total cfg valid_notes :
  0 < GEMINI_BATCH_SIZE cfg ->
  list_sum (map (fun c => length c) (chunks cfg valid_notes))
  = length valid_notes.
Proof.
  intros Hstep. rewrite <- (chunks_concat cfg valid_notes Hstep) at 2.
  induction (chunks cfg valid_notes) as [|c cs IH]; [reflexivity|].
  cbn [map list_sum fold_right List.concat]. rewrite length_app.
  unfold list_sum in IH. lia.
Qed.

Lemma chunks_nth cfg valid_notes i :
  0 < GEMINI_BATCH_SIZE cfg ->
  i < length (chunks cfg valid_notes) ->
  nth i (chunks cfg valid_notes) []
  = slice valid_notes (i * GEMINI_BATCH_SIZE cfg)
      (Nat.min (i * GEMINI_BATCH_SIZE cfg + GEMINI_BATCH_SIZE cfg)
         (length valid_notes)).
Proof.
  intros Hstep Hi. rewrite chunks_length in Hi by assumption.
  unfold chunks. rewrite py_range_spec by assumption. rewrite map_map.
  set (F := fun i => slice valid_notes (i * GEMINI_BATCH_SIZE cfg)
                      (Nat.min (i * GEMINI_BATCH_SIZE cfg + GEMINI_BATCH_SIZE cfg)
                         (length valid_notes))).
  rewrite nth_indep with (d' := F 0)
    by (now rewrite length_map, length_seq).
  rewrite (map_nth F), seq_nth by assumption. reflexivity.
Qed.

Lemma ceil_div_exact total size :
  0 < size -> total mod size = 0 -> (total + size - 1) / size = total / size.
Proof.
  intros Hs Hm. pose proof (Nat.div_mod_eq total size) as H.
  rewrite Hm, Nat.add_0_r in H. symmetry.
  apply Nat.div_unique with (r := size - 1); lia.
Qed.

Lemma ceil_div_inexact total size :
  0 < size -> total mod size <> 0 ->
  (total + size - 1) / size = S (total / size).
Proof.
  intros Hs Hm. pose proof (Nat.div_mod_eq total size) as H.
  pose proof (Nat.mod_upper_bound total size ltac:(lia)) as Hb.
  symmetry. apply Nat.div_unique with (r := total mod size - 1); lia.
Qed.

Lemma chunk_size cfg valid_notes i :
  let size := GEMINI_BATCH_SIZE cfg in
  let total := length valid_notes in
  0 < size ->
  i < length (chunks cfg valid_notes) ->
  length (nth i (chunks cfg valid_notes) [])
  = if (S i <? length (chunks cfg valid_notes)) || (total mod size =? 0)
    then size else total mod size.
Proof.
  intros size total Hstep Hi.
  rewrite chunks_nth by assumption.
  rewrite slice_length by apply Nat.le_min_r.
  rewrite chunks_length in * by assumption. fold size total in Hi |- *.
  pose proof (Nat.div_mod_eq total size) as Hdm.
  pose proof (Nat.mod_upper_bound total size ltac:(lia)) as Hmod.
  destruct (S i <? (total + size - 1) / size) eqn:E1; cbn [orb].
  - apply Nat.ltb_lt in E1.
    pose proof (Nat.div_mod_eq (total + size - 1) size) as Hq.
    assert (size * (i + 2) <= size * ((total + size - 1) / size))
      by (apply Nat.mul_le_mono_l; lia).
    lia.
  - apply Nat.ltb_ge in E1.
    destruct (total mod size =? 0) eqn:E2.
    + apply Nat.eqb_eq in E2.
      rewrite (@ceil_div_exact total size Hstep E2) in *.
      assert (total / size = S i) as Hd by lia.
      rewrite Hd, E2 in Hdm. lia.
    + apply Nat.eqb_neq in E2.
      rewrite (@ceil_div_inexact total size Hstep E2) in *.
      assert (total / size = i) as Hd by lia.
      rewrite Hd in Hdm. lia.
Qed.

(** ** One record and one chunk of the batch loop *)

Section BatchFacts.

Variable cfg : config.
Variable py : runtime.
Variable env : environment.
Variable dry_run : bool.

Lemma dict_get_hashable note_id (d : embeddings_dict) :
  hashable note_id = true ->
  dict_get py note_id d = Ok (dict_lookup py note_id d).
Proof. intros H. unfold dict_get. now rewrite H. Qed.

Lemma dict_get_raises note_id (d : embeddings_dict) e :
  dict_get py note_id d = Raise e ->
  e = TypeError /\ hashable note_id = false.
Proof.
  unfold dict_get. destruct (hashable note_id); [discriminate|].
  intros [= <-]. now split.
Qed.

Lemma batch_record_run embeddings note text s :
  batch_record py env dry_run embeddings (note, text) s
  = match dict_get py (get "id" note) embeddings with
    | Raise e => (Raise e, s)
    | Ok None =>
        record_error (get "id" note) (py_or (get "title" note) untitled)
          generation_failed_in_batch s
    | Ok (Some embedding) =>
        persist env dry_run (get "id" note)
          (py_or (get "title" note) untitled) embedding s
    end.
Proof.
  unfold batch_record. rewrite bind_run. unfold lift.
  destruct (dict_get py (get "id" note) embeddings) as [[embedding|]|e];
    reflexivity.
Qed.

(** Each record of a chunk ends in exactly one counter, without any
    provider request; the lookup of an identity that cannot be hashed
    raises and leaves the processor as it was. *)
Lemma batch_record_facts embeddings item s :
  let out := batch_record py env dry_run embeddings item s in
  (hashable (get "id" (fst item)) = true -> fst out = Ok tt)
  /\ (fst out = Ok tt ->
      accounted (stats (snd out)) = (accounted (stats s) + 1)%Z)
  /\ (forall e, fst out = Raise e ->
        e = TypeError /\ hashable (get "id" (fst item)) = false
        /\ snd out = s)
  /\ total_found (stats (snd out)) = total_found (stats s)
  /\ api_calls (stats (snd out)) = api_calls (stats s)
  /\ provider_calls (snd out) = provider_calls s
  /\ requests (trace (snd out)) = requests (trace s)
  /\ (dry_run = true ->
      store_calls (snd out) = store_calls s
      /\ updates (trace (snd out)) = updates (trace s)).
Proof.
  destruct item as [note text]. cbv zeta. cbn [fst]. rewrite batch_record_run.
  unfold accounted.
  destruct (dict_get py (get "id" note) embeddings) as [[embedding|]|e] eqn:Eg.
  - destruct (persist_facts env dry_run (get "id" note)
                (py_or (get "title" note) untitled) embedding s)
      as (Hr & Hp & He & _ & Hsc & Hu & Ht & Hse & Hsl & Ha & _ & Hc & Hrq & _).
    cbv zeta in *. splits; try assumption.
    + intros _. exact Hr.
    + intros _. rewrite Hp, He, Hse, Hsl. destruct (dry_run || _); lia.
    + intros e H. rewrite Hr in H. discriminate.
    + intros ->. cbv beta iota in Hsc, Hu.
      rewrite Nat.add_0_r in Hsc. rewrite app_nil_r in Hu. now split.
  - rewrite record_error_run. cbn. splits; try reflexivity; try lia.
    + discriminate.
    + intros _. now split.
  - destruct (dict_get_raises _ _ Eg) as (-> & Hh). cbn [fst snd].
    splits; try reflexivity.
    + intros H. congruence.
    + discriminate.
    + intros e [= <-]. splits; auto.
    + intros _. now split.
Qed.

(** The records of a chunk, one after the other. *)
Lemma batch_records_facts embeddings : forall items s,
  let out := for_each items (batch_record py env dry_run embeddings) s in
  (Forall (fun item : dict * string => hashable (get "id" (fst item)) = true)
     items -> fst out = Ok tt)
  /\ (fst out = Ok tt ->
      accounted (stats (snd out))
      = (accounted (stats s) + Z.of_nat (length items))%Z)
  /\ (forall e, fst out = Raise e -> e = TypeError)
  /\ total_found (stats (snd out)) = total_found (stats s)
  /\ api_calls (stats (snd out)) = api_calls (stats s)
  /\ provider_calls (snd out) = provider_calls s
  /\ requests (trace (snd out)) = requests (trace s)
  /\ (dry_run = true ->
      store_calls (snd out) = store_calls s
      /\ updates (trace (snd out)) = updates (trace s)).
Proof.
  induction items as [|item items IH]; intros s; cbv zeta.
  - cbn. splits; try reflexivity; try lia; try discriminate.
    intros _. now split.
  - rewrite for_each_cons.
    destruct (batch_record_facts embeddings item s)
      as (Hr & Hacc & Hraise & Ht & Ha & Hc & Hq & Hdry).
    cbv zeta in *.
    destruct (batch_record py env dry_run embeddings item s) as [[[]|e] s1];
      cbn [fst snd] in *.
    + destruct (IH s1) as (Hr' & Hacc' & Hraise' & Ht' & Ha' & Hc' & Hq' & Hdry').
      cbv zeta in *. rewrite Ht', Ha', Hc', Hq'.
      splits; try assumption; try congruence.
      * intros Hall. inversion Hall; subst. now apply Hr'.
      * intros Hok. rewrite (Hacc' Hok), (Hacc eq_refl). cbn [length]. lia.
      * intros Hd. destruct (Hdry Hd), (Hdry' Hd). split; congruence.
    + splits; try assumption.
      * intros Hall. inversion Hall as [|? ? Hh _]; subst.
        specialize (Hr Hh). discriminate.
      * discriminate.
      * intros e0 [= <-]. now destruct (Hraise e eq_refl).
Qed.

(** A lookup in the dictionary of the exhausted wrapper finds [None]. *)
Lemma dict_get_none note_id (note_ids : list json) :
  dict_lookup py note_id (map (fun k => (k, @None vector)) note_ids) = None.
Proof.
  unfold dict_lookup.
  assert (H : forall acc, acc = None ->
            fold_left
              (fun found kv =>
                 if py_key_eq py (fst kv) note_id then snd kv else found)
              (map (fun k => (k, @None vector)) note_ids) acc = None).
  { induction note_ids as [|k ks IH]; intros acc Hacc; [exact Hacc|].
    cbn. apply IH. now destruct (py_key_eq py k note_id). }
  now apply H.
Qed.

(** The records of a chunk whose dictionary holds no vector. *)
Lemma batch_records_all_failed (note_ids : list json) : forall items s,
  Forall (fun item : dict * string => hashable (get "id" (fst item)) = true)
    items ->
  for_each items
    (batch_record py env dry_run (map (fun k => (k, @None vector)) note_ids)) s
  = (Ok tt,
     {| stats :=
          {| total_found := total_found (stats s);
             processed := processed (stats s);
             errors := errors (stats s) + Z.of_nat (length items);
             skipped_too_long := skipped_too_long (stats s);
             skipped_empty := skipped_empty (stats s);
             api_calls := api_calls (stats s) |};
        skipped_notes := skipped_notes s;
        error_notes :=
          error_notes s
          ++ map (fun item => error_entry generation_failed_in_batch (fst item))
               items;
        trace := trace s;
        provider_calls := provider_calls s;
        store_calls := store_calls s |}).
Proof.
  induction items as [|[note text] items IH]; intros s Hall.
  - cbn. rewrite app_nil_r, Z.add_0_r. now destruct s as [[]].
  - inversion Hall as [|? ? Hh Hrest]; subst. cbn [fst] in Hh.
    rewrite for_each_cons, batch_record_run.
    rewrite dict_get_hashable by exact Hh.
    rewrite dict_get_none, record_error_run.
    rewrite (IH _ Hrest). cbn -[Z.of_nat Z.add]. f_equal. f_equal.
    + f_equal. lia.
    + now rewrite <- app_assoc.
Qed.

Lemma chunk_ids_hashable (items : list (dict * string)) :
  forallb hashable (chunk_ids items) = true
  <-> Forall (fun item : dict * string => hashable (get "id" (fst item)) = true)
        items.
Proof.
  unfold chunk_ids. rewrite forallb_forall, Forall_forall. split.
  - intros H item Hin. apply H.
    apply (in_map (fun item : dict * string => get "id" (fst item))).
    exact Hin.
  - intros H k Hk. apply in_map_iff in Hk. destruct Hk as (item & <- & Hin).
    now apply H.
Qed.

(** The iteration of the outer loop, in terms of what the wrapper
    returned. *)
Lemma batch_iteration_run valid_notes total_notes batch_start s :
  let batch_end :=
    Nat.min (batch_start + GEMINI_BATCH_SIZE cfg) total_notes in
  let batch_notes := slice valid_notes batch_start batch_end in
  let texts_with_ids :=
    map (fun item : dict * string =>
           (snd item, get "id" (fst item),
            py_or (get "title" (fst item)) untitled)) batch_notes in
  let s0 :=
    add_events
      [Log INFO (MsgBatchProgress (batch_start + 1) batch_end total_notes)] s in
  batch_iteration cfg py env dry_run valid_notes total_notes batch_start s
  = match _generate_embeddings_batch_with_retry cfg env texts_with_ids s0 with
    | (Ok embeddings, s1) =>
        match
          for_each batch_notes (batch_record py env dry_run embeddings) s1
        with
        | (Ok _, s2) =>
            (Ok tt,
             if batch_end <? total_notes
             then add_events [Sleep (FloatSeconds (DELAY_BETWEEN_CALLS cfg))]
                    s2
             else s2)
        | (Raise e, s2) => (Raise e, s2)
        end
    | (Raise e, s1) => (Raise e, s1)
    end.
Proof.
  cbv zeta. unfold batch_iteration. rewrite bind_run. unfold log.
  rewrite emit_run, bind_run.
  destruct (_generate_embeddings_batch_with_retry cfg env _ _)
    as [[embeddings|e] s1]; [|reflexivity].
  rewrite bind_run.
  destruct (for_each _ (batch_record py env dry_run embeddings) s1)
    as [[[]|e] s2]; [|reflexivity].
  destruct (_ <? total_notes); reflexivity.
Qed.

Lemma chunk_texts_eq (batch_notes : list (dict * string)) :
  map (fun t : string * json * json => fst (fst t))
    (map (fun item : dict * string =>
            (snd item, get "id" (fst item),
             py_or (get "title" (fst item)) untitled)) batch_notes)
  = chunk_texts batch_notes.
Proof. unfold chunk_texts. rewrite map_map. reflexivity. Qed.

Lemma chunk_ids_eq (batch_notes : list (dict * string)) :
  map (fun t : string * json * json => snd (fst t))
    (map (fun item : dict * string =>
            (snd item, get "id" (fst item),
             py_or (get "title" (fst item)) untitled)) batch_notes)
  = chunk_ids batch_notes.
Proof. unfold chunk_ids. rewrite map_map. reflexivity. Qed.

(** What one chunk does to the accounts, whatever the provider does. *)
Lemma batch_iteration_facts valid_notes total_notes batch_start s :
  let batch_notes :=
    slice valid_notes batch_start
      (Nat.min (batch_start + GEMINI_BATCH_SIZE cfg) total_notes) in
  let out :=
    batch_iteration cfg py env dry_run valid_notes total_notes batch_start s in
  (fst out = Ok tt ->
   accounted (stats (snd out))
   = (accounted (stats s) + Z.of_nat (length batch_notes))%Z)
  /\ total_found (stats (snd out)) = total_found (stats s)
  /\ (dry_run = true ->
      store_calls (snd out) = store_calls s
      /\ updates (trace (snd out)) = updates (trace s))
  /\ (exists m, m <= MAX_RETRIES cfg
        /\ requests (trace (snd out))
           = requests (trace s)
             ++ repeat (EmbedBatch (chunk_texts batch_notes)) m).
Proof.
  cbv zeta. rewrite batch_iteration_run. cbv zeta.
  match goal with
  | |- context [_generate_embeddings_batch_with_retry cfg env ?tw ?s0] =>
      destruct (batch_retry_frame cfg env tw s0) as (_ & Hf & m & Hm & Hq & _);
      destruct (_generate_embeddings_batch_with_retry cfg env tw s0)
        as [[embeddings|e] s1]
  end; cbv zeta in *; cbn [fst snd] in *;
    rewrite chunk_texts_eq in Hq;
    assert (Hq0 : requests (trace s1)
                  = requests (trace s)
                    ++ repeat (EmbedBatch (chunk_texts
                         (slice valid_notes batch_start
                            (Nat.min (batch_start + GEMINI_BATCH_SIZE cfg)
                               total_notes)))) m)
      by (rewrite Hq; unfold requests; cbn; rewrite filter_app; cbn;
          now rewrite app_nil_r);
    destruct Hf; cbn [add_events stats store_calls trace] in *;
    unfold updates in *; rewrite filter_app in *; cbn [filter is_update] in *;
    rewrite app_nil_r in *.
  - match goal with
    | |- context [for_each ?items (batch_record py env dry_run embeddings) s1] =>
        destruct (batch_records_facts embeddings items s1)
          as (_ & Hacc & _ & Ht & _ & _ & Hrq & Hdry);
        destruct (for_each items (batch_record py env dry_run embeddings) s1)
          as [[[]|e] s2]
    end; cbv zeta in *; cbn [fst snd] in *.
    + match goal with
      | |- context [if ?b then _ else _] =>
          destruct (pause_facts b (FloatSeconds (DELAY_BETWEEN_CALLS cfg)) s2)
            as (Hst & Hsc' & _ & _ & _ & Hu' & Hrq')
      end.
      cbv zeta in *. rewrite Hst, Hsc', Hrq'. fold (updates) in *.
      unfold updates in Hu'. rewrite Hu'.
      splits.
      * intros _. rewrite (Hacc eq_refl). unfold accounted. lia.
      * congruence.
      * intros Hd. destruct (Hdry Hd) as (H1 & H2). unfold updates in H2.
        split; congruence.
      * exists m. split; [exact Hm|congruence].
    + splits.
      * discriminate.
      * congruence.
      * intros Hd. destruct (Hdry Hd) as (H1 & H2). unfold updates in H2.
        split; congruence.
      * exists m. split; [exact Hm|congruence].
  - splits.
    + discriminate.
    + assumption.
    + intros _. now split.
    + exists m. split; [exact Hm|exact Hq0].
Qed.

End BatchFacts.

(** C3.  When the batch call of a chunk fails on every attempt (and the
    identities of the chunk can be dictionary keys), the iteration of the
    outer loop returns, counts one error and appends one error summary per
    record of the chunk, counts none as processed, asks the store for
    nothing, and sends the provider nothing but the [MAX_RETRIES] batch
    requests: no record is retried on its own. *)
Theorem chunk_failure_marks_all (cfg : config) (py : runtime)
  (env : environment) (dry_run : bool) (valid_notes : list (dict * string))
  (total_notes batch_start : nat) (s : state) :
  let batch_notes :=
    slice valid_notes batch_start
      (Nat.min (batch_start + GEMINI_BATCH_SIZE cfg) total_notes) in
  forallb hashable (chunk_ids batch_notes) = true ->
  (forall j, j < MAX_RETRIES cfg ->
     batch_outcome cfg env (chunk_texts batch_notes) (chunk_ids batch_notes)
       (provider_calls s + j) = None) ->
  let out :=
    batch_iteration cfg py env dry_run valid_notes total_notes batch_start s in
  fst out = Ok tt
  /\ errors (stats (snd out))
     = (errors (stats s) + Z.of_nat (length batch_notes))%Z
  /\ error_notes (snd out)
     = error_notes s
       ++ map (fun item => error_entry generation_failed_in_batch (fst item))
            batch_notes
  /\ processed (stats (snd out)) = processed (stats s)
  /\ store_calls (snd out) = store_calls s
  /\ updates (trace (snd out)) = updates (trace s)
  /\ requests (trace (snd out))
     = requests (trace s)
       ++ repeat (EmbedBatch (chunk_texts batch_notes)) (MAX_RETRIES cfg)
  /\ provider_calls (snd out) = provider_calls s + MAX_RETRIES cfg.
Proof.
  intros batch_notes Hhash Hfail. cbv zeta.
  rewrite batch_iteration_run. cbv zeta. fold batch_notes.
  match goal with
  | |- context [_generate_embeddings_batch_with_retry cfg env ?tw ?s0] =>
      pose proof (batch_retry_exhausts cfg env tw s0) as Hex;
      set (s0' := s0) in *
  end.
  cbv zeta in Hex. rewrite chunk_texts_eq, chunk_ids_eq in Hex.
  destruct (Hex Hfail) as (Hr & Hc & _ & Hq & Hf). clear Hex.
  unfold dict_of_none in Hr. rewrite Hhash in Hr.
  destruct (_generate_embeddings_batch_with_retry cfg env _ s0')
    as [res s1]. cbn [fst snd] in *. subst res.
  rewrite batch_records_all_failed by (now apply chunk_ids_hashable).
  cbv beta iota. cbn [fst snd].
  destruct Hf. subst s0'. cbn [add_events stats trace store_calls
    provider_calls error_notes] in *.
  match goal with
  | |- context [if ?b then _ else _] =>
      destruct (pause_facts b (FloatSeconds (DELAY_BETWEEN_CALLS cfg))
                  {| stats :=
                       {| total_found := total_found (stats s1);
                          processed := processed (stats s1);
                          errors := errors (stats s1)
                                    + Z.of_nat (length batch_notes);
                          skipped_too_long := skipped_too_long (stats s1);
                          skipped_empty := skipped_empty (stats s1);
                          api_calls := api_calls (stats s1) |};
                     skipped_notes := skipped_notes s1;
                     error_notes :=
                       error_notes s1
                       ++ map (fun item =>
                                 error_entry generation_failed_in_batch
                                   (fst item)) batch_notes;
                     trace := trace s1;
                     provider_calls := provider_calls s1;
                     store_calls := store_calls s1 |})
        as (Hst & Hsc & Hpc & Hen & _ & Hu & Hrq)
  end.
  cbv zeta in *. rewrite Hst, Hsc, Hpc, Hen, Hu, Hrq.
  cbn [stats errors processed error_notes store_calls trace provider_calls].
  unfold updates, requests in *. rewrite filter_app in *.
  cbn [filter is_update is_request] in *. rewrite app_nil_r in *.
  splits; try reflexivity; try congruence.
Qed.

Lemma chunk_failure_marks_all_witness :
  let out :=
    batch_iteration Sample.small_config RefRuntime.rt Sample.down false
      Sample.candidates 3 0 initial_state in
  fst out = Ok tt
  /\ errors (stats (snd out)) = 2%Z
  /\ processed (stats (snd out)) = 0%Z
  /\ provider_calls (snd out) = 3.
Proof.
  destruct (chunk_failure_marks_all Sample.small_config RefRuntime.rt
              Sample.down false Sample.candidates 3 0 initial_state)
    as (H1 & H2 & _ & H4 & _ & _ & _ & H8).
  - vm_compute. reflexivity.
  - intros j _. reflexivity.
  - cbv zeta. rewrite H1, H2, H4, H8. splits; reflexivity.
Defined.

(** ** The batch loop when every chunk succeeds at once *)

Section BatchSuccess.

Variable cfg : config.
Variable py : runtime.
Variable env : environment.
Variable dry_run : bool.

Lemma batch_iteration_first_try valid_notes total_notes batch_start s d :
  let batch_notes :=
    slice valid_notes batch_start
      (Nat.min (batch_start + GEMINI_BATCH_SIZE cfg) total_notes) in
  0 < MAX_RETRIES cfg ->
  forallb hashable (chunk_ids batch_notes) = true ->
  batch_outcome cfg env (chunk_texts batch_notes) (chunk_ids batch_notes)
    (provider_calls s) = Some d ->
  let out :=
    batch_iteration cfg py env dry_run valid_notes total_notes batch_start s in
  fst out = Ok tt
  /\ api_calls (stats (snd out)) = (api_calls (stats s) + 1)%Z
  /\ provider_calls (snd out) = S (provider_calls s)
  /\ requests (trace (snd out))
     = requests (trace s) ++ [EmbedBatch (chunk_texts batch_notes)].
Proof.
  intros batch_notes Hmax Hhash Hok. cbv zeta.
  rewrite batch_iteration_run. cbv zeta. fold batch_notes.
  unfold _generate_embeddings_batch_with_retry.
  rewrite chunk_texts_eq, chunk_ids_eq.
  destruct (MAX_RETRIES cfg) as [|remaining] eqn:Emax; [lia|].
  match goal with
  | |- context [retry_loop cfg None ?body ?ex (S remaining) 1 ?s0] =>
      rewrite (@retry_step_ok cfg _ None body ex
                 (batch_outcome cfg env (chunk_texts batch_notes)
                    (chunk_ids batch_notes))
                 (batch_body_result cfg env (chunk_texts batch_notes)
                    (chunk_ids batch_notes))
                 remaining 1 s0 d Hok);
      destruct (batch_attempt_facts cfg env (chunk_texts batch_notes)
                  (chunk_ids batch_notes) s0) as (Hres & Hc & _ & Hq & _);
      cbn [provider_calls add_events] in Hres;
      rewrite Hok in Hres; destruct Hres as (_ & Ha & _);
      set (s1 := snd (batch_attempt cfg env (chunk_texts batch_notes)
                        (chunk_ids batch_notes) s0)) in *
  end.
  cbv zeta in *.
  destruct (batch_records_facts py env dry_run d batch_notes s1)
    as (Hret & _ & _ & _ & Ha' & Hc' & Hq' & _).
  cbv zeta in *.
  specialize (Hret (proj1 (chunk_ids_hashable batch_notes) Hhash)).
  destruct (for_each batch_notes (batch_record py env dry_run d) s1)
    as [[[]|e] s2]; cbn [fst snd] in *; [|discriminate].
  match goal with
  | |- context [if ?b then _ else _] =>
      destruct (pause_facts b (FloatSeconds (DELAY_BETWEEN_CALLS cfg)) s2)
        as (Hst & _ & Hpc & _ & _ & _ & Hrq)
  end.
  cbv zeta in *. cbn [fst snd]. rewrite Hst, Hpc, Hrq, Ha', Hc', Hq', Ha, Hc, Hq.
  cbn [add_events stats provider_calls trace]. unfold requests.
  rewrite filter_app. cbn [filter is_request]. rewrite app_nil_r.
  splits; reflexivity.
Qed.

(** The outer loop over a list of chunk starts. *)
Lemma batch_loop_first_try valid_notes total_notes :
  0 < MAX_RETRIES cfg ->
  forallb hashable (chunk_ids valid_notes) = true ->
  forall starts s,
    (forall i, i < length starts ->
       let batch_notes :=
         slice valid_notes (nth i starts 0)
           (Nat.min (nth i starts 0 + GEMINI_BATCH_SIZE cfg) total_notes) in
       batch_outcome cfg env (chunk_texts batch_notes) (chunk_ids batch_notes)
         (provider_calls s + i) <> None) ->
    let out :=
      for_each starts (batch_iteration cfg py env dry_run valid_notes total_notes)
        s in
    fst out = Ok tt
    /\ api_calls (stats (snd out))
       = (api_calls (stats s) + Z.of_nat (length starts))%Z
    /\ provider_calls (snd out) = provider_calls s + length starts
    /\ requests (trace (snd out))
       = requests (trace s)
         ++ map (fun b =>
                   EmbedBatch
                     (chunk_texts
                        (slice valid_notes b
                           (Nat.min (b + GEMINI_BATCH_SIZE cfg) total_notes))))
              starts.
Proof.
  intros Hmax Hhash.
  assert (Hslice : forall a b,
             forallb hashable (chunk_ids (slice valid_notes a b)) = true).
  { intros a b. apply chunk_ids_hashable. apply chunk_ids_hashable in Hhash.
    rewrite Forall_forall in *. intros item Hin. apply Hhash.
    eapply slice_incl. exact Hin. }
  induction starts as [|b starts IH]; intros s Hok; cbv zeta.
  - cbn. rewrite app_nil_r. splits; try reflexivity; lia.
  - rewrite for_each_cons.
    pose proof (Hok 0 ltac:(cbn; lia)) as H0. cbv zeta in H0.
    cbn [nth] in H0. rewrite Nat.add_0_r in H0.
    destruct (batch_outcome cfg env _ _ (provider_calls s)) as [d|] eqn:Ed;
      [|congruence].
    destruct (batch_iteration_first_try valid_notes total_notes b s Hmax
                (Hslice _ _) Ed)
      as (Hr & Ha & Hc & Hq).
    cbv zeta in *.
    destruct (batch_iteration cfg py env dry_run valid_notes total_notes b s)
      as [r s1].
    cbn [fst snd] in *. subst r.
    destruct (IH s1) as (Hr' & Ha' & Hc' & Hq').
    { intros i Hi. cbv zeta. rewrite Hc.
      replace (S (provider_calls s) + i) with (provider_calls s + S i) by lia.
      apply (Hok (S i)). cbn. lia. }
    cbv zeta in *. rewrite Hr', Ha', Hc', Hq', Ha, Hc, Hq.
    cbn [length map]. rewrite <- app_assoc. cbn [app].
    splits; try reflexivity; lia.
Qed.

End BatchSuccess.

(** C2.  With a positive chunk size C, the batch loop cuts the M accepted
    candidates, in input order, into ceil(M/C) contiguous chunks: their
    concatenation is the input, every chunk but the last has C members and
    the last has M mod C when that is not zero.  Each chunk is one provider
    request per attempt, so when every chunk succeeds on its first attempt
    (and the identities of the records can be dictionary keys) the run
    returns having recorded exactly ceil(M/C) API calls, one batch request
    per chunk, in order. *)
Theorem batch_chunks_and_calls (cfg : config) (py : runtime)
  (env : environment) (dry_run : bool) (valid_notes : list (dict * string))
  (s : state) :
  let size := GEMINI_BATCH_SIZE cfg in
  let total := length valid_notes in
  let cs := chunks cfg valid_notes in
  0 < size ->
  List.concat cs = valid_notes
  /\ length cs = (total + size - 1) / size
  /\ (forall i, i < length cs ->
        length (nth i cs [])
        = if (S i <? length cs) || (total mod size =? 0)
          then size else total mod size)
  /\ (0 < MAX_RETRIES cfg ->
      forallb hashable (chunk_ids valid_notes) = true ->
      (forall i, i < length cs ->
         batch_outcome cfg env (chunk_texts (nth i cs []))
           (chunk_ids (nth i cs [])) (provider_calls s + i) <> None) ->
      let out := _process_notes_batch cfg py env dry_run valid_notes s in
      fst out = Ok tt
      /\ api_calls (stats (snd out))
         = (api_calls (stats s) + Z.of_nat ((total + size - 1) / size))%Z
      /\ requests (trace (snd out))
         = requests (trace s)
           ++ map (fun chunk => EmbedBatch (chunk_texts chunk)) cs).
Proof.
  intros size total cs Hsize. splits.
  - now apply chunks_concat.
  - now apply chunks_length.
  - intros i Hi. now apply chunk_size.
  - intros Hmax Hhash Hok. cbv zeta. unfold _process_notes_batch.
    fold size total.
    destruct (size =? 0) eqn:E; [apply Nat.eqb_eq in E; lia|].
    rewrite bind_run. unfold log. rewrite emit_run.
    match goal with
    | |- context [for_each ?starts ?body ?s0] =>
        destruct (@batch_loop_first_try cfg py env dry_run valid_notes total
                    Hmax Hhash starts s0) as (Hr & Ha & _ & Hq)
    end.
    + intros i Hi. cbv zeta. cbn [provider_calls add_events].
      assert (Hi' : i < length cs).
      { unfold cs, chunks. now rewrite length_map. }
      pose proof (Hok i Hi') as H. unfold cs, chunks in H.
      set (F := fun b => slice valid_notes b
                 (Nat.min (b + GEMINI_BATCH_SIZE cfg) (length valid_notes)))
        in H.
      rewrite nth_indep with (d' := F 0) in H by (now rewrite length_map).
      rewrite (map_nth F) in H. exact H.
    + cbv zeta in *. rewrite Hr, Ha, Hq.
      cbn [add_events stats trace]. unfold requests. rewrite filter_app.
      cbn [filter is_request]. rewrite app_nil_r.
      unfold cs, chunks. rewrite map_map.
      pose proof (chunks_length cfg valid_notes Hsize) as Hlen.
      unfold chunks in Hlen. rewrite length_map in Hlen.
      fold size total in Hlen. rewrite Hlen. splits; reflexivity.
Qed.

Lemma batch_chunks_and_calls_witness :
  let cs := chunks Sample.small_config Sample.candidates in
  let out :=
    _process_notes_batch Sample.small_config RefRuntime.rt Sample.healthy false
      Sample.candidates initial_state in
  map (fun c => length c) cs = [2; 1]
  /\ fst out = Ok tt
  /\ api_calls (stats (snd out)) = 2%Z
  /\ length (requests (trace (snd out))) = 2.
Proof.
  destruct (batch_chunks_and_calls Sample.small_config RefRuntime.rt
              Sample.healthy false Sample.candidates initial_state)
    as (_ & _ & _ & H).
  - vm_compute. lia.
  - destruct H as (H1 & H2 & H3).
    + vm_compute. lia.
    + reflexivity.
    + intros [|[|i]] Hi; try discriminate. vm_compute in Hi. lia.
    + cbv zeta. rewrite H1, H2, H3. splits; reflexivity.
Defined.

(** ** Validation *)

Section ValidationFacts.

Variable cfg : config.
Variable py : runtime.

Lemma validate_note_run valid_notes note s :
  validate_note cfg py valid_notes note s
  = match _build_text_for_embedding py note with
    | Raise e => (Raise e, s)
    | Ok text =>
        match classify cfg text with
        | SkippedEmpty =>
            (Ok valid_notes,
             set_stats incr_skipped_empty
               (add_events [Log WARNING (MsgSkippedEmpty (get "id" note))] s))
        | SkippedTooLong measured =>
            (Ok valid_notes,
             add_skipped
               {| skipped_id := get "id" note;
                  skipped_title := py_or (get "title" note) untitled;
                  text_length := measured |}
               (set_stats incr_skipped_too_long
                  (add_events
                     [Log WARNING (MsgSkippedTooLong (get "id" note) measured)]
                     s)))
        | Accepted t => (Ok (valid_notes ++ [(note, t)]), s)
        end
    end.
Proof.
  unfold validate_note, classify. rewrite bind_run. unfold lift.
  destruct (_build_text_for_embedding py note) as [text|e]; [|reflexivity].
  destruct (negb (PyStr.nonempty (PyStr.strip text))); [reflexivity|].
  destruct (MAX_TEXT_LENGTH cfg <? String.length text); reflexivity.
Qed.

(** What the validation of one record leaves alone. *)
Lemma validate_note_frame valid_notes note s :
  let out := validate_note cfg py valid_notes note s in
  provider_calls (snd out) = provider_calls s
  /\ store_calls (snd out) = store_calls s
  /\ api_calls (stats (snd out)) = api_calls (stats s)
  /\ total_found (stats (snd out)) = total_found (stats s)
  /\ requests (trace (snd out)) = requests (trace s)
  /\ updates (trace (snd out)) = updates (trace s)
  /\ (forall valid', fst out = Ok valid' ->
        (accounted (stats (snd out)) + Z.of_nat (length valid')
         = accounted (stats s) + Z.of_nat (length valid_notes) + 1)%Z
        /\ valid' = valid_notes ++ accepted cfg py [note]).
Proof.
  cbv zeta. rewrite validate_note_run. unfold accepted. cbn [flat_map].
  rewrite app_nil_r. unfold accounted, requests, updates.
  destruct (_build_text_for_embedding py note) as [text|e].
  - destruct (classify cfg text); cbn; rewrite ?filter_app; cbn;
      rewrite ?app_nil_r; splits; try reflexivity;
      intros valid' [= <-]; rewrite ?length_app, ?app_nil_r; cbn;
      split; try reflexivity; lia.
  - cbn. splits; try reflexivity. discriminate.
Qed.

(** The validation pass. *)
Lemma validation_facts : forall notes valid_notes s,
  let out := fold_each notes valid_notes (validate_note cfg py) s in
  provider_calls (snd out) = provider_calls s
  /\ store_calls (snd out) = store_calls s
  /\ api_calls (stats (snd out)) = api_calls (stats s)
  /\ total_found (stats (snd out)) = total_found (stats s)
  /\ requests (trace (snd out)) = requests (trace s)
  /\ updates (trace (snd out)) = updates (trace s)
  /\ (forall valid', fst out = Ok valid' ->
        (accounted (stats (snd out)) + Z.of_nat (length valid')
         = accounted (stats s) + Z.of_nat (length valid_notes)
           + Z.of_nat (length notes))%Z
        /\ valid' = valid_notes ++ accepted cfg py notes).
Proof.
  induction notes as [|note notes IH]; intros valid_notes s; cbv zeta.
  - cbn. splits; try reflexivity. intros valid' [= <-].
    rewrite app_nil_r. split; [lia|reflexivity].
  - cbn [fold_each]. rewrite bind_run.
    destruct (validate_note_frame valid_notes note s)
      as (H1 & H2 & H3 & H4 & H5 & H6 & H7).
    cbv zeta in *.
    destruct (validate_note cfg py valid_notes note s) as [[acc|e] s1];
      cbn [fst snd] in *.
    + destruct (IH acc s1) as (I1 & I2 & I3 & I4 & I5 & I6 & I7).
      cbv zeta in *. rewrite I1, I2, I3, I4, I5, I6.
      splits; try assumption.
      intros valid' Hv. destruct (I7 valid' Hv) as (Ha & Hb).
      destruct (H7 acc eq_refl) as (Hc & Hd).
      split.
      * cbn [length]. lia.
      * rewrite Hb, Hd. unfold accepted. cbn [flat_map].
        rewrite app_nil_r, <- app_assoc. reflexivity.
    + splits; try assumption. discriminate.
Qed.

End ValidationFacts.


(** ** The two dispatch loops *)

Section DispatchFacts.

Variable cfg : config.
Variable py : runtime.
Variable env : environment.
Variable provider : EmbeddingProvider.
Variable dry_run : bool.


Lemma requests_within_refl texts s : requests_within texts s s.
Proof. exists []. now rewrite app_nil_r. Qed.

Lemma requests_within_trans texts s1 s2 s3 :
  requests_within texts s1 s2 -> requests_within texts s2 s3 ->
  requests_within texts s1 s3.
Proof.
  intros (n1 & H1 & F1) (n2 & H2 & F2). exists (n1 ++ n2).
  split; [now rewrite H2, H1, app_assoc|]. apply Forall_app. now split.
Qed.

Lemma requests_within_same texts s s' :
  requests (trace s') = requests (trace s) -> requests_within texts s s'.
Proof. intros H. exists []. now rewrite app_nil_r. Qed.

Lemma single_loop_facts total : forall valid_notes start s,
  let out :=
    for_each (enumerate valid_notes start)
      (single_iteration cfg env provider dry_run total) s in
  fst out = Ok tt
  /\ accounted (stats (snd out))
     = (accounted (stats s) + Z.of_nat (length valid_notes))%Z
  /\ total_found (stats (snd out)) = total_found (stats s)
  /\ (dry_run = true ->
      store_calls (snd out) = store_calls s
      /\ updates (trace (snd out)) = updates (trace s))
  /\ requests_within (map snd valid_notes) s (snd out).
Proof.
  induction valid_notes as [|[note text] rest IH]; intros start s; cbv zeta.
  - cbn. splits; try reflexivity; try lia.
    + intros _. now split.
    + apply requests_within_refl.
  - unfold enumerate. cbn [length seq combine]. rewrite for_each_cons.
    destruct (single_iteration_facts cfg env provider dry_run total start
                note text s) as (Hr & Ha & Ht & Hd & m & _ & Hq).
    cbv zeta in *.
    destruct (single_iteration cfg env provider dry_run total
                (start, (note, text)) s) as [r s1].
    cbn [fst snd] in *. subst r.
    destruct (IH (S start) s1) as (Hr' & Ha' & Ht' & Hd' & Hq').
    cbv zeta in *. unfold enumerate in *.
    rewrite Hr', Ha', Ht'. splits.
    + reflexivity.
    + cbn [length]. lia.
    + exact Ht.
    + intros E. destruct (Hd E) as (H1 & H2), (Hd' E) as (H3 & H4).
      split; [now rewrite H3|now rewrite H4].
    + eapply requests_within_trans.
      * exists (repeat (EmbedOne provider text) m). split; [exact Hq|].
        apply Forall_forall. intros e He. apply repeat_spec in He. subst e.
        cbn. now left.
      * destruct Hq' as (new & Hn & Fn). exists new. split; [exact Hn|].
        eapply Forall_impl; [|exact Fn].
        intros [] H; cbn in *; auto. intros x Hx. right. now apply H.
Qed.

Lemma single_dispatch_facts valid_notes s :
  let out := _process_notes_single cfg env provider dry_run valid_notes s in
  fst out = Ok tt
  /\ accounted (stats (snd out))
     = (accounted (stats s) + Z.of_nat (length valid_notes))%Z
  /\ total_found (stats (snd out)) = total_found (stats s)
  /\ (dry_run = true ->
      store_calls (snd out) = store_calls s
      /\ updates (trace (snd out)) = updates (trace s))
  /\ requests_within (map snd valid_notes) s (snd out).
Proof. apply single_loop_facts. Qed.

Lemma batch_dispatch_facts valid_notes s :
  let out := _process_notes_batch cfg py env dry_run valid_notes s in
  (fst out = Ok tt ->
   accounted (stats (snd out))
   = (accounted (stats s) + Z.of_nat (length valid_notes))%Z)
  /\ total_found (stats (snd out)) = total_found (stats s)
  /\ (dry_run = true ->
      store_calls (snd out) = store_calls s
      /\ updates (trace (snd out)) = updates (trace s))
  /\ requests_within (map snd valid_notes) s (snd out).
Proof.
  cbv zeta. unfold _process_notes_batch.
  destruct (GEMINI_BATCH_SIZE cfg =? 0) eqn:E.
  - cbn. splits; try reflexivity; try discriminate.
    + intros _. now split.
    + apply requests_within_refl.
  - apply Nat.eqb_neq in E. rewrite bind_run. unfold log. rewrite emit_run.
    set (s0 := add_events _ s).
    set (body := batch_iteration cfg py env dry_run valid_notes
                   (length valid_notes)).
    set (starts := py_range 0 (length valid_notes) (GEMINI_BATCH_SIZE cfg)).
    splits.
    + intros Hok.
      rewrite (for_each_count (fun st => accounted (stats st))
                 (fun b => length (slice valid_notes b
                    (Nat.min (b + GEMINI_BATCH_SIZE cfg) (length valid_notes))))
                 body starts s0).
      * pose proof (chunks_total cfg valid_notes ltac:(lia)) as Hsum.
        unfold chunks in Hsum. rewrite map_map in Hsum.
        fold starts in Hsum. rewrite Hsum. reflexivity.
      * intros b st _ Hb.
        apply (batch_iteration_facts cfg py env dry_run valid_notes
                 (length valid_notes) b st). exact Hb.
      * exact Hok.
    + apply (for_each_preserves
               (fun st => total_found (stats st) = total_found (stats s))
               body starts s0); [|reflexivity].
      intros b st _ Hst. rewrite <- Hst.
      apply (batch_iteration_facts cfg py env dry_run valid_notes
               (length valid_notes) b st).
    + intros Hd.
      apply (for_each_preserves
               (fun st => store_calls st = store_calls s
                          /\ updates (trace st) = updates (trace s))
               body starts s0).
      * intros b st _ (H1 & H2).
        destruct (batch_iteration_facts cfg py env dry_run valid_notes
                    (length valid_notes) b st) as (_ & _ & Hs & _).
        destruct (Hs Hd) as (H3 & H4). unfold body.
        split; [now rewrite H3|now rewrite H4].
      * split; [reflexivity|]. unfold s0, updates. cbn.
        rewrite filter_app. cbn. now rewrite app_nil_r.
    + apply (for_each_preserves
               (fun st => requests_within (map snd valid_notes) s st)
               body starts s0).
      * intros b st _ Hst.
        destruct (batch_iteration_facts cfg py env dry_run valid_notes
                    (length valid_notes) b st) as (_ & _ & _ & m & _ & Hq).
        eapply requests_within_trans; [exact Hst|].
        eexists. split; [exact Hq|].
        apply Forall_forall. intros e He. apply repeat_spec in He. subst e.
        cbn. unfold chunk_texts. intros t Ht.
        apply in_map_iff in Ht. destruct Ht as (item & <- & Hin).
        apply in_map. eapply slice_incl. exact Hin.
      * apply requests_within_same. unfold s0, requests. cbn.
        rewrite filter_app. cbn. now rewrite app_nil_r.
Qed.

End DispatchFacts.

(** ** A run *)

Section RunFacts.

Variable cfg : config.
Variable py : runtime.
Variable env : environment.
Variable provider : EmbeddingProvider.
Variable dry_run : bool.



Lemma report_run s :
  _print_final_report s
  = (Ok tt,
     add_events
       [Report (stats s) (skipped_notes s) (error_notes s)
          (final_verdict (stats s))] s).
Proof. reflexivity. Qed.

Lemma count_step_run notes s :
  exists evs,
    count_step cfg env notes s = (Ok tt, add_events evs s)
    /\ requests evs = [] /\ updates evs = [].
Proof.
  unfold count_step, try_except, query, bind, emit, log, raise, ret.
  destruct (count_pending env) as [r|count]; cbn.
  - exists [CountPending]. auto.
  - match goal with |- context [if ?b then _ else _] => destruct b end; cbn.
    + eexists [CountPending; Log INFO (MsgMorePending _)].
      unfold add_events. cbn. rewrite <- app_assoc. splits; reflexivity.
    + exists [CountPending]. auto.
Qed.

(** The shape of a run: what happens before validation, and then. *)
Lemma process_run s :
  exists s1,
    process cfg py env provider dry_run s
    = match fetch_notes env with
      | Fails _ => (Raise (SystemExit 1), s1)
      | Returns [] => _print_final_report s1
      | Returns notes =>
          match fold_each notes [] (validate_note cfg py) s1 with
          | (Raise e, s2) => (Raise e, s2)
          | (Ok [], s2) =>
              _print_final_report
                (add_events [Log WARNING MsgNoValidNotes] s2)
          | (Ok valid_notes, s2) =>
              bind (dispatch cfg py env provider dry_run valid_notes) (fun _ => _print_final_report)
                (add_events [Log INFO (MsgValidReady (length valid_notes))] s2)
          end
      end
    /\ prologue s s1
    /\ match fetch_notes env with
       | Fails _ => total_found (stats s1) = total_found (stats s)
       | Returns notes => total_found (stats s1) = Z.of_nat (length notes)
       end.
Proof.
  unfold process.
  set (s_a := snd ((if dry_run then log WARNING MsgDryRunActive else ret tt) s)).
  assert (Ha : (if dry_run then log WARNING MsgDryRunActive else ret tt) s
               = (Ok tt, s_a)) by (subst s_a; destruct dry_run; reflexivity).
  assert (Pa : prologue s s_a).
  { subst s_a. destruct dry_run; constructor; cbn; try reflexivity;
      unfold requests, updates; rewrite filter_app; cbn;
      now rewrite app_nil_r. }
  assert (Hta : stats s_a = stats s) by (subst s_a; now destruct dry_run).
  rewrite bind_run, Ha, bind_run. unfold log at 1. rewrite emit_run, bind_run.
  unfold try_except, query. rewrite bind_run, emit_run.
  destruct Pa.
  destruct (fetch_notes env) as [r|notes].
  - cbn. eexists. split; [reflexivity|]. split; [|cbn; now rewrite Hta].
    constructor; cbn; try assumption;
      unfold requests, updates in *; rewrite !filter_app; cbn;
      now rewrite !app_nil_r.
  - cbn [ret raise fst snd is_Exception]. rewrite bind_run.
    unfold update_stats at 1. destruct notes as [|note notes].
    + rewrite bind_run. unfold log at 1. rewrite emit_run.
      eexists. split; [reflexivity|]. split; [|reflexivity].
      constructor; cbn; try assumption;
        unfold requests, updates in *; rewrite !filter_app; cbn;
        now rewrite !app_nil_r.
    + rewrite bind_run. unfold log at 1. rewrite emit_run, bind_run.
      match goal with
      | |- context [count_step cfg env ?ns ?s0] =>
          destruct (count_step_run ns s0) as (evs & Hc & Hq & Hu)
      end.
      rewrite Hc, bind_run.
      match goal with
      | |- context [fold_each _ _ _ ?s0] => exists s0
      end.
      split.
      * destruct (fold_each _ _ _ _) as [[valid|e] s2]; [|reflexivity].
        destruct valid as [|v valid].
        -- rewrite bind_run. unfold log at 1. rewrite emit_run. reflexivity.
        -- rewrite bind_run. unfold log at 1. rewrite emit_run.
           unfold dispatch. reflexivity.
      * split; [|reflexivity].
        constructor; cbn; try assumption;
          unfold requests, updates in *; rewrite !filter_app; cbn;
          rewrite ?Hq, ?Hu, !app_nil_r; assumption.
Qed.

Lemma dispatch_facts valid_notes s :
  let out := dispatch cfg py env provider dry_run valid_notes s in
  (fst out = Ok tt ->
   accounted (stats (snd out))
   = (accounted (stats s) + Z.of_nat (length valid_notes))%Z)
  /\ total_found (stats (snd out)) = total_found (stats s)
  /\ (dry_run = true ->
      store_calls (snd out) = store_calls s
      /\ updates (trace (snd out)) = updates (trace s))
  /\ requests_within (map snd valid_notes) s (snd out).
Proof.
  unfold dispatch.
  destruct (match provider with GEMINI => true | OPENAI => false end
            && supports_batch provider).
  - apply batch_dispatch_facts.
  - destruct (single_dispatch_facts cfg env provider dry_run valid_notes s)
      as (H1 & H2 & H3 & H4 & H5).
    cbv zeta in *. splits; auto.
Qed.

Lemma requests_add_events evs s :
  requests evs = [] ->
  requests (trace (add_events evs s)) = requests (trace s).
Proof.
  intros H. unfold requests in *. cbn. rewrite filter_app, H.
  apply app_nil_r.
Qed.

Lemma updates_add_events evs s :
  updates evs = [] ->
  updates (trace (add_events evs s)) = updates (trace s).
Proof.
  intros H. unfold updates in *. cbn. rewrite filter_app, H.
  apply app_nil_r.
Qed.

(** The accounts of a run. *)
Lemma process_facts s :
  let out := process cfg py env provider dry_run s in
  (fst out = Ok tt ->
   accounted (stats s) = 0%Z ->
   total_found (stats (snd out)) = accounted (stats (snd out))
   /\ exists tr sk er,
        trace (snd out)
        = tr ++ [Report (stats (snd out)) sk er
                   (final_verdict (stats (snd out)))])
  /\ (dry_run = true ->
      store_calls (snd out) = store_calls s
      /\ updates (trace (snd out)) = updates (trace s))
  /\ (forall notes, fetch_notes env = Returns notes ->
        requests_within (map snd (accepted cfg py notes)) s (snd out)).
Proof.
  cbv zeta. destruct (process_run s) as (s1 & Hrun & Hp & Ht).
  rewrite Hrun. clear Hrun. destruct Hp.
  destruct (fetch_notes env) as [r|notes].
  - cbn [fst snd]. splits.
    + discriminate.
    + intros _. now split.
    + discriminate.
  - destruct notes as [|note notes].
    + rewrite report_run. cbn [fst snd].
      rewrite updates_add_events by reflexivity.
      cbn [add_events stats trace store_calls]. splits.
      * intros _ H0. split; [cbn in Ht; lia|eauto].
      * intros _. now split.
      * intros ns [= <-]. apply requests_within_same.
        now rewrite requests_add_events.
    + destruct (validation_facts cfg py (note :: notes) [] s1)
        as (V1 & V2 & V3 & V4 & V5 & V6 & V7).
      cbv zeta in *.
      destruct (fold_each (note :: notes) [] (validate_note cfg py) s1)
        as [[valid|e] s2]; cbn [fst snd] in *.
      * destruct (V7 valid eq_refl) as (Hacc & Hvalid). cbn [app] in Hvalid.
        destruct valid as [|v valid].
        -- rewrite report_run. cbn [fst snd].
           rewrite !updates_add_events by reflexivity.
           cbn [add_events stats trace store_calls length] in *. splits.
           ++ intros _ H0. split; [lia|]. eexists. eauto.
           ++ intros _. split; congruence.
           ++ intros ns [= <-]. apply requests_within_same.
              rewrite !requests_add_events by reflexivity. congruence.
        -- rewrite bind_run.
           match goal with
           | |- context [dispatch cfg py env provider dry_run ?vs ?s0] =>
               destruct (dispatch_facts vs s0) as (D1 & D2 & D3 & D4);
               set (s3 := s0) in *
           end.
           cbv zeta in *.
           assert (S3 : accounted (stats s3) = accounted (stats s2)
                        /\ total_found (stats s3) = total_found (stats s2)
                        /\ store_calls s3 = store_calls s2
                        /\ updates (trace s3) = updates (trace s2)
                        /\ requests (trace s3) = requests (trace s2)).
           { subst s3. rewrite updates_add_events, requests_add_events
               by reflexivity. splits; reflexivity. }
           destruct S3 as (S31 & S32 & S33 & S34 & S35).
           assert (Hwithin : forall ns, Returns (note :: notes) = Returns ns ->
                     requests_within (map snd (accepted cfg py ns)) s
                       (snd (dispatch cfg py env provider dry_run (v :: valid) s3))).
           { intros ns [= <-]. rewrite <- Hvalid.
             eapply requests_within_trans; [|exact D4].
             apply requests_within_same. congruence. }
           destruct (dispatch cfg py env provider dry_run (v :: valid) s3) as [[[]|e] s4];
             cbn [fst snd] in *.
           ++ rewrite report_run. cbn [fst snd].
              rewrite updates_add_events by reflexivity.
              cbn [add_events stats trace store_calls]. splits.
              ** intros _ H0. split; [|eauto].
                 rewrite D2, S32, V4, Ht, (D1 eq_refl), S31.
                 cbn [length] in Hacc |- *. lia.
              ** intros E. destruct (D3 E). split; congruence.
              ** intros ns Hns.
                 eapply requests_within_trans; [exact (Hwithin ns Hns)|].
                 apply requests_within_same.
                 now rewrite requests_add_events.
           ++ splits.
              ** discriminate.
              ** intros E. destruct (D3 E). split; congruence.
              ** exact Hwithin.
      * splits.
        -- discriminate.
        -- intros _. split; congruence.
        -- intros ns [= <-]. apply requests_within_same. congruence.
Qed.

End RunFacts.

(** C10.  A run that reaches the report has, at that point, as many
    fetched records as records with an outcome:
    [total_found = processed + errors + skipped_empty + skipped_too_long],
    in the single and in the batch mode, simulated or not; the last event of
    the run is the report of these counters. *)
Theorem report_counters_add_up (cfg : config) (py : runtime)
  (env : environment) (provider : EmbeddingProvider) (dry_run : bool)
  (s' : state) :
  process cfg py env provider dry_run initial_state = (Ok tt, s') ->
  total_found (stats s')
  = (processed (stats s') + errors (stats s') + skipped_empty (stats s')
     + skipped_too_long (stats s'))%Z
  /\ exists tr sk er,
       trace s' = tr ++ [Report (stats s') sk er (final_verdict (stats s'))].
Proof.
  intros Hrun.
  destruct (process_facts cfg py env provider dry_run initial_state)
    as (H & _).
  cbv zeta in H. rewrite Hrun in H. cbn [fst snd] in H.
  destruct (H eq_refl eq_refl) as (Hsum & Hrep). split; [exact Hsum|exact Hrep].
Qed.

Lemma report_counters_add_up_witness :
  let s' :=
    snd (process Sample.small_config RefRuntime.rt Sample.flaky GEMINI true
           initial_state) in
  total_found (stats s')
  = (processed (stats s') + errors (stats s') + skipped_empty (stats s')
     + skipped_too_long (stats s'))%Z
  /\ total_found (stats s') = 2%Z.
Proof.
  cbv zeta. split; [|vm_compute; reflexivity].
  refine (proj1 (@report_counters_add_up Sample.small_config RefRuntime.rt
                   Sample.flaky GEMINI true _ _)).
  vm_compute. reflexivity.
Defined.

(** C7.  In a simulated run the store is never asked to update anything.
    A record whose embedding was generated is still counted as processed,
    once; a record whose generation failed is counted as an error, and is
    handled exactly as in a run that writes (as is a record of a chunk
    whose identity cannot be looked up, which raises in both). *)
Theorem dry_run_writes_nothing (cfg : config) (py : runtime)
  (env : environment) (provider : EmbeddingProvider) (s : state) :
  (let out := process cfg py env provider true s in
   store_calls (snd out) = store_calls s
   /\ updates (trace (snd out)) = updates (trace s))
  /\ (forall total index note text r s1,
         _generate_embedding_with_retry cfg env provider text (get "id" note)
           (add_events
              [Log INFO (MsgProcessing (get "id" note)
                           (py_or (get "title" note) untitled))] s)
         = (Ok r, s1) ->
         let item := (index, (note, text)) in
         let out := single_iteration cfg env provider true total item s in
         processed (stats (snd out))
         = (processed (stats s) + match r with Some _ => 1 | None => 0 end)%Z
         /\ errors (stats (snd out))
            = (errors (stats s) + match r with Some _ => 0 | None => 1 end)%Z
         /\ (r = None ->
             out = single_iteration cfg env provider false total item s))
  /\ (forall embeddings note text,
         let found := dict_get py (get "id" note) embeddings in
         let out := batch_record py env true embeddings (note, text) s in
         processed (stats (snd out))
         = (processed (stats s)
            + match found with Ok (Some _) => 1 | _ => 0 end)%Z
         /\ errors (stats (snd out))
            = (errors (stats s)
               + match found with Ok None => 1 | _ => 0 end)%Z
         /\ match found with
            | Ok (Some _) => True
            | Ok None | Raise _ =>
                out = batch_record py env false embeddings (note, text) s
            end).
Proof.
  split; [|split].
  - destruct (process_facts cfg py env provider true s) as (_ & H & _).
    exact (H eq_refl).
  - intros total index note text r s1 Hgen. cbv zeta.
    destruct (single_iteration_run cfg env provider true total index note text s)
      as (r1 & s1' & Hgen1 & Hf1 & _ & Hrun1).
    destruct (single_iteration_run cfg env provider false total index note text s)
      as (r2 & s2' & Hgen2 & _ & _ & Hrun2).
    cbv zeta in *. rewrite Hgen in Hgen1, Hgen2.
    injection Hgen1 as <- <-. injection Hgen2 as <- <-.
    rewrite Hrun1, Hrun2. destruct Hf1. destruct r as [v|].
    + destruct (persist_facts env true (get "id" note)
                  (py_or (get "title" note) untitled) v s1)
        as (_ & Hp & He & _).
      cbv zeta in *. cbn [orb] in Hp, He. cbn [fst snd].
      match goal with
      | |- context [if ?b then add_events ?e ?x else ?x] =>
          destruct (pause_facts b (FloatSeconds (DELAY_BETWEEN_CALLS cfg)) x)
            as (Hst & _)
      end.
      cbv zeta in Hst. rewrite Hst, Hp, He.
      splits; try lia. discriminate.
    + rewrite record_error_run. cbn. splits; try lia. reflexivity.
  - intros embeddings note text. cbv zeta. rewrite !batch_record_run.
    destruct (dict_get py (get "id" note) embeddings) as [[v|]|e].
    + destruct (persist_facts env true (get "id" note)
                  (py_or (get "title" note) untitled) v s)
        as (_ & Hp & He & _).
      cbv zeta in *. cbn [orb] in Hp, He. rewrite Hp, He.
      splits; try lia; exact I.
    + rewrite record_error_run. cbn. splits; try lia; reflexivity.
    + cbn. splits; try lia; reflexivity.
Qed.

(** C8.  The persistence step never raises.  When the embedding of a
    record was generated and the store does not confirm the write (it
    reports no row, or the call raises), the record is counted as an error
    once and gets one error summary, it is not counted as processed, the
    store was asked exactly once, and the iteration returns, so the loop
    goes on with the next record; the single loop as a whole always
    returns, and the inner loop of a chunk returns whenever the
    identities of its records can be hashed: the only exception that
    leaves it is the [TypeError] of looking up a list or a dictionary. *)
Theorem persistence_failure_is_recorded (cfg : config) (py : runtime)
  (env : environment) (provider : EmbeddingProvider) (s : state) :
  (forall dry_run note_id embedding,
      exists confirmed,
        fst (_update_note_embedding env dry_run note_id embedding s)
        = Ok confirmed)
  /\ (forall total index note text v s1,
         _generate_embedding_with_retry cfg env provider text (get "id" note)
           (add_events
              [Log INFO (MsgProcessing (get "id" note)
                           (py_or (get "title" note) untitled))] s)
         = (Ok (Some v), s1) ->
         store_confirms env (store_calls s) (get "id" note) v = false ->
         let out :=
           single_iteration cfg env provider false total (index, (note, text))
             s in
         fst out = Ok tt
         /\ errors (stats (snd out)) = (errors (stats s) + 1)%Z
         /\ processed (stats (snd out)) = processed (stats s)
         /\ error_notes (snd out)
            = error_notes s ++ [error_entry update_failed note]
         /\ store_calls (snd out) = S (store_calls s)
         /\ updates (trace (snd out))
            = updates (trace s) ++ [Update (get "id" note) v])
  /\ (forall embeddings note text v,
         dict_get py (get "id" note) embeddings = Ok (Some v) ->
         store_confirms env (store_calls s) (get "id" note) v = false ->
         let out := batch_record py env false embeddings (note, text) s in
         fst out = Ok tt
         /\ errors (stats (snd out)) = (errors (stats s) + 1)%Z
         /\ processed (stats (snd out)) = processed (stats s)
         /\ error_notes (snd out)
            = error_notes s ++ [error_entry update_failed note]
         /\ store_calls (snd out) = S (store_calls s)
         /\ updates (trace (snd out))
            = updates (trace s) ++ [Update (get "id" note) v])
  /\ (forall dry_run valid_notes,
         fst (_process_notes_single cfg env provider dry_run valid_notes s)
         = Ok tt)
  /\ (forall dry_run embeddings batch_notes,
         let out :=
           for_each batch_notes (batch_record py env dry_run embeddings) s in
         (Forall (fun item : dict * string =>
                    hashable (get "id" (fst item)) = true) batch_notes ->
          fst out = Ok tt)
         /\ (forall e, fst out = Raise e -> e = TypeError)).
Proof.
  splits.
  - intros. apply update_never_raises.
  - intros total index note text v s1 Hgen Hstore. cbv zeta.
    destruct (single_iteration_run cfg env provider false total index note text s)
      as (r1 & s1' & Hgen1 & Hf1 & _ & Hrun1).
    cbv zeta in *. rewrite Hgen in Hgen1. injection Hgen1 as <- <-.
    rewrite Hrun1. destruct Hf1.
    destruct (persist_facts env false (get "id" note)
                (py_or (get "title" note) untitled) v s1)
      as (_ & Hp & He & Hn & Hsc & Hu & _).
    cbv zeta in *. rewrite gf_store0, Hstore in *. cbn [orb] in *.
    cbn [fst snd].
    match goal with
    | |- context [if ?b then add_events ?e ?x else ?x] =>
        destruct (pause_facts b (FloatSeconds (DELAY_BETWEEN_CALLS cfg)) x)
          as (Hst & Hsc' & _ & Hen & _ & Hu' & _)
    end.
    cbv zeta in *. rewrite Hst, Hsc', Hen, Hu', Hp, He, Hn, Hsc, Hu.
    rewrite gf_errors0, gf_processed0, gf_failed0, gf_updates0.
    unfold error_entry. splits; try reflexivity; lia.
  - intros embeddings note text v Hget Hstore. cbv zeta.
    rewrite batch_record_run, Hget.
    destruct (persist_facts env false (get "id" note)
                (py_or (get "title" note) untitled) v s)
      as (Hr & Hp & He & Hn & Hsc & Hu & _).
    cbv zeta in *. rewrite Hstore in *. cbn [orb] in *.
    rewrite Hr, Hp, He, Hn, Hsc, Hu.
    unfold error_entry. splits; try reflexivity; lia.
  - intros dry_run valid_notes.
    apply (single_dispatch_facts cfg env provider dry_run valid_notes s).
  - intros dry_run embeddings batch_notes. cbv zeta.
    destruct (batch_records_facts py env dry_run embeddings batch_notes s)
      as (Hret & _ & Hraise & _).
    split; assumption.
Qed.

(** ** Vectors of unexpected length *)

Section DimensionFacts.

Variable cfg : config.
Variable env : environment.


Lemma dict_of_zip_hashable (note_ids : list json) (embeddings : list vector) :
  forallb hashable note_ids = true ->
  dict_of_zip note_ids embeddings
  = Ok (map (fun kv => (fst kv, Some (snd kv))) (combine note_ids embeddings)).
Proof.
  intros H. unfold dict_of_zip.
  assert (Hp : forallb (fun kv : json * vector => hashable (fst kv))
                 (combine note_ids embeddings) = true).
  { apply forallb_forall. intros [k v] Hin. cbn.
    apply in_combine_l in Hin.
    rewrite forallb_forall in H. now apply H. }
  now rewrite Hp.
Qed.


End DimensionFacts.

(** C4.  Validation gives each record whose text was assembled exactly one
    outcome, by [classify]: empty after trimming, it is counted as skipped
    for emptiness; longer than the maximum, it is counted as skipped for
    length and its summary carries the measured length; otherwise it joins
    the candidates.  Validation itself sends nothing to the provider and
    leaves the API-call counter alone, the whole pass runs before the first
    provider request, and in a run every provider request carries only
    texts of accepted records. *)
Theorem validation_before_provider (cfg : config) (py : runtime)
  (valid_notes : list (dict * string)) (note : dict) (text : string)
  (s : state) :
  _build_text_for_embedding py note = Ok text ->
  let out := validate_note cfg py valid_notes note s in
  match classify cfg text with
  | SkippedEmpty =>
      fst out = Ok valid_notes
      /\ skipped_empty (stats (snd out)) = (skipped_empty (stats s) + 1)%Z
      /\ skipped_too_long (stats (snd out)) = skipped_too_long (stats s)
      /\ skipped_notes (snd out) = skipped_notes s
  | SkippedTooLong measured =>
      measured = String.length text
      /\ fst out = Ok valid_notes
      /\ skipped_too_long (stats (snd out))
         = (skipped_too_long (stats s) + 1)%Z
      /\ skipped_empty (stats (snd out)) = skipped_empty (stats s)
      /\ skipped_notes (snd out)
         = skipped_notes s
           ++ [{| skipped_id := get "id" note;
                  skipped_title := py_or (get "title" note) untitled;
                  text_length := measured |}]
  | Accepted t =>
      t = text /\ fst out = Ok (valid_notes ++ [(note, text)]) /\ snd out = s
  end
  /\ provider_calls (snd out) = provider_calls s
  /\ api_calls (stats (snd out)) = api_calls (stats s)
  /\ requests (trace (snd out)) = requests (trace s)
  /\ processed (stats (snd out)) = processed (stats s)
  /\ errors (stats (snd out)) = errors (stats s)
  /\ (forall notes,
         let pass := fold_each notes valid_notes (validate_note cfg py) s in
         provider_calls (snd pass) = provider_calls s
         /\ api_calls (stats (snd pass)) = api_calls (stats s)
         /\ requests (trace (snd pass)) = requests (trace s)
         /\ (forall valid', fst pass = Ok valid' ->
               valid' = valid_notes ++ accepted cfg py notes))
  /\ (forall env provider dry_run notes,
         fetch_notes env = Returns notes ->
         let run := process cfg py env provider dry_run s in
         exists new,
           requests (trace (snd run)) = requests (trace s) ++ new
           /\ Forall (request_within (map snd (accepted cfg py notes))) new).
Proof.
  intros Hb. cbv zeta. rewrite validate_note_run, Hb.
  unfold classify, requests.
  splits.
  - destruct (negb (PyStr.nonempty (PyStr.strip text))).
    + cbn. splits; reflexivity.
    + destruct (MAX_TEXT_LENGTH cfg <? String.length text); cbn;
        splits; reflexivity.
  - destruct (negb _); [reflexivity|]. destruct (_ <? _); reflexivity.
  - destruct (negb _); [reflexivity|]. destruct (_ <? _); reflexivity.
  - destruct (negb _); [|destruct (_ <? _)]; cbn; rewrite ?filter_app; cbn;
      now rewrite ?app_nil_r.
  - destruct (negb _); [reflexivity|]. destruct (_ <? _); reflexivity.
  - destruct (negb _); [reflexivity|]. destruct (_ <? _); reflexivity.
  - intros notes.
    destruct (validation_facts cfg py notes valid_notes s)
      as (H1 & _ & H3 & _ & H5 & _ & H7).
    cbv zeta in *. splits; try assumption.
    intros valid' Hv. apply (H7 valid' Hv).
  - intros env provider dry_run notes Hfetch. cbv zeta.
    destruct (process_facts cfg py env provider dry_run s) as (_ & _ & H).
    exact (H notes Hfetch).
Qed.

Lemma validation_before_provider_witness :
  let out :=
    validate_note Sample.small_config RefRuntime.rt [] Sample.blank
      initial_state in
  fst out = Ok []
  /\ skipped_empty (stats (snd out)) = 1%Z
  /\ provider_calls (snd out) = 0
  /\ api_calls (stats (snd out)) = 0%Z.
Proof.
  assert (Hb : _build_text_for_embedding RefRuntime.rt Sample.blank = Ok "")
    by (vm_compute; reflexivity).
  destruct (@validation_before_provider Sample.small_config RefRuntime.rt []
              Sample.blank "" initial_state Hb)
    as (H1 & H2 & H3 & _).
  cbv zeta in *. change (classify Sample.small_config "") with SkippedEmpty in H1.
  destruct H1 as (H1 & H1' & _). rewrite H1, H1', H2, H3.
  splits; reflexivity.
Defined.



(** * Further properties *)

(** ** The assembler: errors and the empty text *)

Section AssemblerEdges.

Variable py : runtime.

Lemma strip_ink s : starts_with_ink s = true -> PyStr.strip s <> "".
Proof.
  destruct s as [|c r]; [discriminate|]. cbn [starts_with_ink].
  intros Hc. apply negb_true_iff in Hc.
  unfold PyStr.strip. cbn [PyStr.lstrip]. rewrite Hc.
  cbn [PyStr.rstrip]. rewrite Hc.
  destruct (PyStr.rstrip r); discriminate.
Qed.

Lemma join_ink sep segs :
  Forall (fun seg => starts_with_ink seg = true) segs -> segs <> [] ->
  starts_with_ink (PyStr.join sep segs) = true.
Proof.
  intros H Hne. destruct H as [|seg rest Hseg Hrest]; [congruence|].
  unfold PyStr.join. cbn [String.concat].
  destruct seg as [|c r]; [discriminate|].
  destruct rest; cbn; exact Hseg.
Qed.

Lemma labelled_ink label value :
  starts_with_ink label = true ->
  Forall (fun seg => starts_with_ink seg = true) (labelled label value).
Proof.
  intros Hl. unfold labelled. destruct (PyStr.nonempty _); [|constructor].
  constructor; [|constructor]. destruct label; [discriminate|exact Hl].
Qed.

Lemma tags_segment_ink tags g :
  tags_segment py tags = Ok g ->
  Forall (fun seg => starts_with_ink seg = true) g.
Proof.
  unfold tags_segment. destruct (truthy tags).
  - destruct (resolve_tags py tags) as [v|]; [|discriminate].
    destruct v as [| | | | |[|i l]|]; intros [= <-]; repeat constructor.
  - intros [= <-]. constructor.
Qed.

(** X1.  The assembled text is never blank without being empty: it is
    skipped as empty exactly when no segment was assembled. *)
Theorem assembled_text_blank_iff_empty (cfg : config) (note : dict)
  (text : string) :
  _build_text_for_embedding py note = Ok text ->
  (PyStr.strip text = "" <-> text = "")
  /\ (classify cfg text = SkippedEmpty <-> text = "").
Proof.
  intros H.
  destruct (build_text_ok_inv py _ H)
    as (t & e & c & n & g & _ & _ & _ & _ & Hg & ->).
  set (segs := labelled "Title" t ++ labelled "Excerpt" e
               ++ labelled "Category" c ++ g ++ labelled "Content" n).
  assert (Hink : Forall (fun seg => starts_with_ink seg = true) segs).
  { unfold segs. repeat (apply Forall_app; split);
      try (apply labelled_ink; reflexivity).
    eapply tags_segment_ink; eassumption. }
  assert (Hiff : PyStr.strip (PyStr.join " | " segs) = ""
                 <-> PyStr.join " | " segs = "").
  { split.
    - intros Hs. destruct segs as [|seg rest] eqn:E; [reflexivity|].
      exfalso. apply (@strip_ink (PyStr.join " | " (seg :: rest))); [|exact Hs].
      apply join_ink; [exact Hink|discriminate].
    - intros ->. reflexivity. }
  split; [exact Hiff|].
  unfold classify.
  destruct (PyStr.strip (PyStr.join " | " segs)) eqn:Es; cbn [PyStr.nonempty negb].
  - split; [intros _; now apply Hiff|reflexivity].
  - split.
    + destruct (_ <? _); discriminate.
    + intros Hempty. apply Hiff in Hempty. discriminate.
Qed.

(** X2.  The assembler returns a text for every row whose four text
    columns are strings, null or otherwise falsy and whose tags resolve;
    a truthy title, excerpt or category that is not a string makes it
    raise [AttributeError]; an exception of [json.loads] other than
    [JSONDecodeError] on a string of tags escapes it. *)
Theorem assembler_errors (note : dict) :
  (forall t e c n g,
      field_text (get "title" note) = Some t ->
      field_text (get "excerpt" note) = Some e ->
      field_text (get "categories" note) = Some c ->
      field_text (get "transcription" note) = Some n ->
      tags_segment py (get "tags" note) = Ok g ->
      exists text, _build_text_for_embedding py note = Ok text)
  /\ (field_text (get "title" note) = None
      \/ field_text (get "excerpt" note) = None
      \/ field_text (get "categories" note) = None ->
      _build_text_for_embedding py note = Raise AttributeError)
  /\ (forall t e c s x,
         field_text (get "title" note) = Some t ->
         field_text (get "excerpt" note) = Some e ->
         field_text (get "categories" note) = Some c ->
         get "tags" note = JStr s -> s <> "" ->
         json_loads py s = Raise x -> x <> JSONDecodeError ->
         _build_text_for_embedding py note = Raise x).
Proof.
  assert (Hnone : forall v, field_text v = None ->
            str_strip (py_or v (JStr "")) = Raise AttributeError).
  { intros v. unfold field_text.
    destruct (py_or v (JStr "")); try reflexivity. discriminate. }
  splits.
  - intros t e c n g Ht He Hc Hn Hg.
    rewrite (build_text_segments py _ Ht He Hc Hn), Hg. cbn. eauto.
  - unfold _build_text_for_embedding.
    destruct (field_text (get "title" note)) as [t|] eqn:Ht.
    + rewrite (field_text_strip _ Ht). cbn [rbind].
      destruct (field_text (get "excerpt" note)) as [e|] eqn:He.
      * rewrite (field_text_strip _ He). cbn [rbind].
        intros [H|[H|H]]; try discriminate.
        now rewrite (Hnone _ H).
      * intros _. now rewrite (Hnone _ He).
    + intros _. now rewrite (Hnone _ Ht).
  - intros t e c s x Ht He Hc Hs Hne Hx Hnot.
    unfold _build_text_for_embedding.
    rewrite (field_text_strip _ Ht), (field_text_strip _ He),
      (field_text_strip _ Hc). cbn [rbind]. cbv zeta.
    rewrite Hs, (truthy_JStr Hne). cbn [resolve_tags]. rewrite Hx.
    destruct x; try reflexivity. congruence.
Qed.

End AssemblerEdges.

Lemma assembled_text_blank_iff_empty_witness :
  classify Sample.small_config Sample.memo_text <> SkippedEmpty
  /\ (PyStr.strip "" = "" <-> "" = "").
Proof.
  split.
  - intros Hc.
    pose proof (proj1 (proj2 (@assembled_text_blank_iff_empty
                   RefRuntime.rt Sample.small_config Sample.memo Sample.memo_text
                   ltac:(vm_compute; reflexivity))) Hc) as Habs.
    discriminate Habs.
  - exact (proj1 (@assembled_text_blank_iff_empty RefRuntime.rt Sample.small_config
                    Sample.blank "" ltac:(vm_compute; reflexivity))).
Defined.

Lemma assembler_errors_witness :
  _build_text_for_embedding RefRuntime.rt [("title", JInt 5)]
  = Raise AttributeError.
Proof.
  apply (proj1 (proj2 (assembler_errors RefRuntime.rt [("title", JInt 5)]))).
  left. reflexivity.
Defined.

(** ** Titles on display *)

Lemma substring_prefix_length : forall n s,
  String.length (substring 0 n s) = Nat.min n (String.length s).
Proof.
  induction n as [|n IH]; intros [|c s]; cbn; auto.
Qed.

Lemma string_length_append : forall a b,
  String.length (a ++ b) = String.length a + String.length b.
Proof.
  induction a as [|c a IH]; intros b; cbn; auto.
Qed.

(** X3.  The title shown in a progress line or in the report is the title
    itself when it has at most [limit] characters; otherwise it is its
    first [limit] characters followed by three dots, [limit + 3]
    characters in all. *)
Theorem display_title_bounded (limit : nat) (title : string) :
  String.length (display_title limit title) <= limit + 3
  /\ (String.length title <= limit -> display_title limit title = title)
  /\ (limit < String.length title ->
      display_title limit title = (substring 0 limit title ++ "...")%string
      /\ String.length (display_title limit title) = limit + 3
      /\ String.prefix (substring 0 limit title) title = true).
Proof.
  unfold display_title.
  destruct (limit <? String.length title) eqn:E.
  - apply Nat.ltb_lt in E.
    assert (Hlen : String.length (substring 0 limit title ++ "...")
                   = limit + 3).
    { rewrite string_length_append, substring_prefix_length. cbn. lia. }
    splits; try lia; auto.
    intros _. splits; auto.
    clear. revert title. induction limit as [|n IH]; intros [|c t]; cbn; auto.
    rewrite IH. now destruct (Ascii.ascii_dec c c).
  - apply Nat.ltb_ge in E. splits; try lia; auto.
Qed.

(** ** Start-up *)

(** X4.  The start-up check lets the run begin exactly when the store's
    address, the store's key and the key of the selected provider are
    set and not empty; otherwise it exits with status 1.  The key of the
    other provider plays no part, and [missing_vars] names exactly the
    required variables that are missing. *)
Theorem init_clients_requires (getenv : string -> option string)
  (provider : EmbeddingProvider) :
  (_init_clients getenv provider = Ok tt
   <-> unset getenv "SUPABASE_URL" = false
       /\ unset getenv "SUPABASE_KEY" = false
       /\ unset getenv (env_var provider) = false)
  /\ (_init_clients getenv provider <> Ok tt ->
      _init_clients getenv provider = Raise (SystemExit 1))
  /\ (forall name,
         In name (missing_vars getenv provider)
         <-> (name = "SUPABASE_URL" \/ name = "SUPABASE_KEY"
              \/ name = env_var provider)
             /\ unset getenv name = true).
Proof.
  unfold _init_clients, missing_vars.
  destruct (unset getenv "SUPABASE_URL") eqn:Eu,
    (unset getenv "SUPABASE_KEY") eqn:Ek,
    (unset getenv (env_var provider)) eqn:Ep; cbn [app];
    (splits;
     [ split; [try discriminate; auto | intros (? & ? & ?); congruence]
     | intros H; try reflexivity; now contradiction H
     | intros name; cbn [In]; split;
       [ intros H; repeat destruct H as [ <- | H ]; try contradiction; auto
       | intros ([ -> | [ -> | -> ] ] & H); try congruence; auto ] ]).
Qed.

(** ** The interactive selection *)

(** X5.  The menu returns the provider of the first line that, trimmed,
    is 1 or 2; every line before it is answered with one warning and the
    question is asked again, so no provider is ever chosen by default.
    Ctrl+C ends the script with status 0; the end of the input raises
    [EOFError]. *)
Theorem prompt_takes_first_valid_choice (bad : list string) (l : string)
  (rest : list keyboard) :
  Forall (fun b => PyStr.strip b <> "1" /\ PyStr.strip b <> "2") bad ->
  (PyStr.strip l = "1" ->
   prompt_provider_selection (map Line bad ++ Line l :: rest)
   = (Ok OPENAI, length bad))
  /\ (PyStr.strip l = "2" ->
      prompt_provider_selection (map Line bad ++ Line l :: rest)
      = (Ok GEMINI, length bad))
  /\ prompt_provider_selection (map Line bad ++ Interrupt :: rest)
     = (Raise (SystemExit 0), length bad)
  /\ prompt_provider_selection (map Line bad)
     = (Raise (OtherError "EOFError"), length bad).
Proof.
  induction 1 as [|b bad [H1 H2] _ IH].
  - cbn. splits; auto.
    + intros ->. reflexivity.
    + intros ->. reflexivity.
  - destruct IH as (I1 & I2 & I3 & I4).
    apply String.eqb_neq in H1, H2.
    cbn [map app prompt_provider_selection length]. cbv zeta.
    rewrite H1, H2, I3, I4. splits; auto.
    + intros Hl. now rewrite (I1 Hl).
    + intros Hl. now rewrite (I2 Hl).
Qed.

Lemma prompt_takes_first_valid_choice_witness :
  prompt_provider_selection [Line "3"; Line "gemini"; Line " 2 "; Line "1"]
  = (Ok GEMINI, 2).
Proof.
  apply (proj1 (proj2 (@prompt_takes_first_valid_choice
                         ["3"; "gemini"] " 2 " [Line "1"]
                         ltac:(repeat constructor; discriminate)))).
  reflexivity.
Defined.

(** ** The dictionary of a batch *)

Section DictFacts.

Variable py : runtime.

Lemma lookup_skips (note_id : json) (d : embeddings_dict) :
  forall acc,
    (forall kv, In kv d -> py_key_eq py (fst kv) note_id = false) ->
    fold_left
      (fun found kv => if py_key_eq py (fst kv) note_id then snd kv else found)
      d acc = acc.
Proof.
  induction d as [|kv d IH]; intros acc H; [reflexivity|].
  cbn [fold_left]. rewrite (H kv (or_introl eq_refl)).
  apply IH. intros kv' Hin. apply H. now right.
Qed.

Lemma lookup_by_position : forall (note_ids : list json)
  (embeddings : list vector) i note_id acc,
  (forall j k a b,
      nth_error note_ids j = Some a -> nth_error note_ids k = Some b ->
      py_key_eq py a b = (j =? k)) ->
  nth_error note_ids i = Some note_id ->
  fold_left
    (fun found kv => if py_key_eq py (fst kv) note_id then snd kv else found)
    (map (fun kv : json * vector => (fst kv, Some (snd kv)))
       (combine note_ids embeddings)) acc
  = match nth_error embeddings i with
    | Some v => Some v
    | None => acc
    end.
Proof.
  induction note_ids as [|a ids IH]; intros embeddings i note_id acc Hd Hi.
  - destruct i; discriminate Hi.
  - destruct embeddings as [|e embeddings].
    + cbn. now destruct i.
    + cbn [combine map fold_left fst snd].
      assert (Hd' : forall j k x y,
                 nth_error ids j = Some x -> nth_error ids k = Some y ->
                 py_key_eq py x y = (j =? k)).
      { intros j k x y Hj Hk. apply (Hd (S j) (S k) x y Hj Hk). }
      destruct i as [|i].
      * cbn in Hi. injection Hi as <-.
        rewrite (Hd 0 0 a a eq_refl eq_refl). cbn [Nat.eqb nth_error].
        apply lookup_skips. intros kv Hin.
        apply in_map_iff in Hin. destruct Hin as ([k v] & <- & Hin).
        apply in_combine_l in Hin. cbn [fst].
        apply In_nth_error in Hin. destruct Hin as (j & Hj).
        apply (Hd (S j) 0 k a Hj eq_refl).
      * cbn in Hi. rewrite (Hd 0 (S i) a note_id eq_refl Hi).
        cbn [Nat.eqb nth_error]. now apply IH.
Qed.

(** X6.  When the identities of a chunk are hashable and pairwise
    different as dictionary keys, the dictionary built from a reply gives
    each record the vector at its own position, and nothing to the
    records beyond the last vector. *)
Theorem batch_vectors_follow_positions (note_ids : list json)
  (embeddings : list vector) :
  forallb hashable note_ids = true ->
  (forall j k a b,
      nth_error note_ids j = Some a -> nth_error note_ids k = Some b ->
      py_key_eq py a b = (j =? k)) ->
  exists d,
    dict_of_zip note_ids embeddings = Ok d
    /\ forall i note_id,
         nth_error note_ids i = Some note_id ->
         dict_get py note_id d = Ok (nth_error embeddings i).
Proof.
  intros Hhash Hd. eexists. split; [now apply dict_of_zip_hashable|].
  intros i note_id Hi. unfold dict_get, dict_lookup.
  rewrite forallb_forall in Hhash.
  rewrite (Hhash note_id (nth_error_In _ _ Hi)).
  rewrite (@lookup_by_position note_ids embeddings i note_id None Hd Hi).
  now destruct (nth_error embeddings i).
Qed.

End DictFacts.

Lemma batch_vectors_follow_positions_witness :
  exists d,
    dict_of_zip [JInt 7; JInt 8] [Sample.unit_vector; Sample.wide_vector]
    = Ok d
    /\ forall i note_id,
         nth_error [JInt 7; JInt 8] i = Some note_id ->
         dict_get RefRuntime.rt note_id d
         = Ok (nth_error [Sample.unit_vector; Sample.wide_vector] i).
Proof.
  apply (@batch_vectors_follow_positions RefRuntime.rt); [reflexivity|].
  intros [|[|j]] [|[|k]] a b Ha Hb; cbn in Ha, Hb;
    try (destruct j; discriminate); try (destruct k; discriminate);
    injection Ha as <-; injection Hb as <-; reflexivity.
Defined.

(** ** Replies with more vectors than texts *)

Section SurplusFacts.

Variable cfg : config.
Variable env : environment.

Lemma warnings_indexable_surplus n_ids : forall embeddings i,
  warnings_indexable cfg n_ids i embeddings
  = forallb (fun e => length e =? EXPECTED_VECTOR_DIMENSION cfg)
      (skipn (n_ids - i) embeddings).
Proof.
  induction embeddings as [|e rest IH]; intros i.
  - now rewrite skipn_nil.
  - cbn [warnings_indexable]. rewrite IH.
    destruct (i <? n_ids) eqn:E.
    + apply Nat.ltb_lt in E. rewrite orb_true_r. cbn [andb].
      replace (n_ids - i) with (S (n_ids - S i)) by lia. reflexivity.
    + apply Nat.ltb_ge in E. rewrite orb_false_r.
      replace (n_ids - i) with 0 by lia.
      replace (n_ids - S i) with 0 by lia. reflexivity.
Qed.

(** X7.  A reply of the batch provider is checked beyond the identities
    of the chunk: vectors in excess are dropped silently when they have
    the expected length, and make the attempt fail with [IndexError]
    when one of them has not, although the call is counted. *)
Theorem surplus_vectors (texts : list string) (note_ids : list json)
  (embeddings : list vector) (s : state) :
  embed_batch env (provider_calls s) texts = Returns (Some embeddings) ->
  let out := batch_attempt cfg env texts note_ids s in
  let surplus := skipn (length note_ids) embeddings in
  fst out
  = (if forallb (fun e => length e =? EXPECTED_VECTOR_DIMENSION cfg) surplus
     then dict_of_zip note_ids embeddings
     else Raise IndexError)
  /\ api_calls (stats (snd out)) = (api_calls (stats s) + 1)%Z.
Proof.
  intros Hreply out surplus. unfold out, batch_attempt.
  rewrite bind_run, gemini_batch_run, Hreply. cbv beta iota zeta.
  rewrite bind_run.
  match goal with |- context [check_dimensions cfg note_ids 0 embeddings ?s0] =>
    destruct (check_dimensions_run cfg note_ids embeddings 0 s0)
      as (evs & Hrun & _ & _)
  end.
  rewrite Hrun, warnings_indexable_surplus, Nat.sub_0_r. unfold surplus.
  destruct (forallb _ (skipn _ _)); split; reflexivity.
Qed.

End SurplusFacts.

Lemma surplus_vectors_witness :
  fst (batch_attempt Sample.small_config Sample.odd ["a"] [JInt 7]
         initial_state)
  = Ok [(JInt 7, Some Sample.wide_vector)]
  /\ fst (batch_attempt Sample.small_config Sample.odd ["a"; "b"] [JInt 7]
            initial_state)
     = Raise IndexError.
Proof.
  split.
  - exact (proj1 (@surplus_vectors Sample.small_config Sample.odd ["a"]
                    [JInt 7] [Sample.wide_vector] initial_state eq_refl)).
  - exact (proj1 (@surplus_vectors Sample.small_config Sample.odd ["a"; "b"]
                    [JInt 7] [Sample.wide_vector; Sample.wide_vector]
                    initial_state eq_refl)).
Defined.

(** ** The time spent waiting *)

Lemma waited_app a b : waited (a ++ b) = (waited a + waited b)%Z.
Proof.
  induction a as [|e a IH]; [reflexivity|].
  cbn [app waited]. destruct e as [| [z|f] | | | | | |]; rewrite IH; lia.
Qed.

Lemma waited_sleeps tr : waited (sleeps tr) = waited tr.
Proof.
  induction tr as [|e tr IH]; [reflexivity|].
  destruct e as [| [z|f] | | | | | |]; cbn; rewrite <- ?IH; reflexivity.
Qed.

Lemma waited_backoff : forall k attempt,
  waited (map backoff (seq attempt k))
  = (2 ^ Z.of_nat (attempt + k) - 2 ^ Z.of_nat attempt)%Z.
Proof.
  induction k as [|k IH]; intros attempt.
  - cbn. rewrite Nat.add_0_r. lia.
  - cbn [seq map waited backoff]. rewrite IH.
    replace (Z.of_nat (S attempt + k)) with (Z.of_nat (attempt + S k)) by lia.
    replace (Z.of_nat (S attempt)) with (Z.of_nat attempt + 1)%Z by lia.
    rewrite Z.pow_add_r by lia. lia.
Qed.

(** X8.  When the first [k] attempts of a generation fail and the next
    one returns or is the last one allowed, the pauses between the
    attempts add up to [2^(k+1) - 2] seconds: 2, 6, 14, ... *)
Theorem backoff_waits_double (cfg : config) (env : environment)
  (provider : EmbeddingProvider) (text : string) (note_id : json)
  (s : state) (k : nat) :
  k < MAX_RETRIES cfg ->
  (forall j, j < k ->
     single_outcome env provider text (provider_calls s + j) = None) ->
  single_outcome env provider text (provider_calls s + k) <> None
  \/ k + 1 = MAX_RETRIES cfg ->
  let out := _generate_embedding_with_retry cfg env provider text note_id s in
  waited (trace (snd out))
  = (waited (trace s) + 2 ^ Z.of_nat (k + 1) - 2)%Z.
Proof.
  intros Hk Hfail Hlast out.
  assert (Hsl : sleeps (trace (snd out))
                = sleeps (trace s) ++ map backoff (seq 1 k)).
  { destruct (single_outcome env provider text (provider_calls s + k))
      as [v|] eqn:Ev.
    - apply (@single_retry_succeeds cfg env provider text note_id s k v
               Hk Hfail Ev).
    - destruct Hlast as [Hlast|Hlast]; [congruence|].
      assert (Hall : forall j, j < MAX_RETRIES cfg ->
                single_outcome env provider text (provider_calls s + j) = None).
      { intros j Hj. destruct (Nat.eq_dec j k) as [->|Hne]; [exact Ev|].
        apply Hfail. lia. }
      destruct (@single_retry_exhausts cfg env provider text note_id s Hall)
        as (_ & _ & Hsl & _).
      replace (MAX_RETRIES cfg - 1) with k in Hsl by lia. exact Hsl. }
  rewrite <- (waited_sleeps (trace (snd out))), Hsl, waited_app,
    waited_sleeps, waited_backoff.
  replace (Z.of_nat (1 + k)) with (Z.of_nat (k + 1)) by lia.
  change (2 ^ Z.of_nat 1)%Z with 2%Z. lia.
Qed.

Lemma backoff_waits_double_witness :
  waited (trace (snd (_generate_embedding_with_retry Sample.small_config
                        Sample.down OPENAI "a" (JInt 7) initial_state)))
  = 6%Z.
Proof.
  apply (@backoff_waits_double Sample.small_config Sample.down OPENAI "a"
           (JInt 7) initial_state 2).
  - cbn. lia.
  - intros j _. reflexivity.
  - right. reflexivity.
Defined.

(** ** Computations that maintain a relation *)

Section KeepsFacts.

Variable R : state -> state -> Prop.
Hypothesis R_refl : forall s, R s s.
Hypothesis R_trans : forall s1 s2 s3, R s1 s2 -> R s2 s3 -> R s1 s3.

Lemma keeps_ret {A} (a : A) : keeps R (ret a).
Proof. intros s. apply R_refl. Qed.

Lemma keeps_raise {A} (e : exn) : keeps R (@raise A e).
Proof. intros s. apply R_refl. Qed.

Lemma keeps_lift {A} (r : result A) : keeps R (lift r).
Proof. intros s. apply R_refl. Qed.

Lemma keeps_bind {A B} (m : M A) (k : A -> M B) :
  keeps R m -> (forall a, keeps R (k a)) -> keeps R (bind m k).
Proof.
  intros Hm Hk s. unfold bind. specialize (Hm s).
  destruct (m s) as [[a|e] s1]; cbn [snd] in *; [|exact Hm].
  exact (R_trans Hm (Hk a s1)).
Qed.

Lemma keeps_try_except {A} (m : M A) (handler : exn -> M A) :
  keeps R m -> (forall e, keeps R (handler e)) ->
  keeps R (try_except m handler).
Proof.
  intros Hm Hh s. unfold try_except. specialize (Hm s).
  destruct (m s) as [[a|e] s1]; cbn [snd] in *; [exact Hm|].
  destruct (is_Exception e); [|exact Hm].
  exact (R_trans Hm (Hh e s1)).
Qed.

Lemma keeps_for_each {A} (body : A -> M unit) : forall xs,
  (forall x, keeps R (body x)) -> keeps R (for_each xs body).
Proof.
  induction xs as [|x xs IH]; intros Hb; [apply keeps_ret|].
  cbn [for_each]. apply keeps_bind; [apply Hb|]. intros _. now apply IH.
Qed.

Lemma keeps_fold_each {A B} (body : B -> A -> M B) : forall xs acc,
  (forall acc x, keeps R (body acc x)) -> keeps R (fold_each xs acc body).
Proof.
  induction xs as [|x xs IH]; intros acc Hb; [apply keeps_ret|].
  cbn [fold_each]. apply keeps_bind; [apply Hb|]. intros acc'. now apply IH.
Qed.

End KeepsFacts.

(** ** The ledger of a run *)

Section LedgerFacts.

Variable cfg : config.
Variable py : runtime.
Variable env : environment.
Variable provider : EmbeddingProvider.
Variable dry_run : bool.
Variable kind : event -> bool.

Lemma ledger_refl s : ledger kind dry_run s s.
Proof.
  constructor;
    [ exists [] | exists [] | exists [] | exists [] | ];
    cbn; rewrite ?app_nil_r, ?Nat.add_0_r; splits; try reflexivity; try lia.
  destruct dry_run; [reflexivity|lia].
Qed.

Lemma ledger_trans s1 s2 s3 :
  ledger kind dry_run s1 s2 -> ledger kind dry_run s2 s3 ->
  ledger kind dry_run s1 s3.
Proof.
  intros [(r1 & Hr1 & Hp1 & Ha1 & Hk1) (u1 & Hu1 & Hs1 & Hm1 & Hd1)
            (e1 & He1 & Hc1) (k1 & Hn1 & Hl1) Hy1]
         [(r2 & Hr2 & Hp2 & Ha2 & Hk2) (u2 & Hu2 & Hs2 & Hm2 & Hd2)
            (e2 & He2 & Hc2) (k2 & Hn2 & Hl2) Hy2].
  constructor.
  - exists (r1 ++ r2). rewrite Hr2, Hr1, Hp2, Hp1, length_app, forallb_app,
      Hk1, Hk2, <- app_assoc. splits; try reflexivity; lia.
  - exists (u1 ++ u2). rewrite Hu2, Hu1, Hs2, Hs1, length_app, <- app_assoc.
    splits; try reflexivity; try lia.
    destruct dry_run; [now subst|lia].
  - exists (e1 ++ e2). rewrite He2, He1, Hc2, Hc1, length_app, <- app_assoc.
    split; [reflexivity|lia].
  - exists (k1 ++ k2). rewrite Hn2, Hn1, Hl2, Hl1, length_app, <- app_assoc.
    split; [reflexivity|lia].
  - lia.
Qed.

Lemma ledger_quiet evs s :
  requests evs = [] -> updates evs = [] ->
  ledger kind dry_run s (add_events evs s).
Proof.
  intros Hr Hu.
  constructor;
    [ exists [] | exists [] | exists [] | exists [] | ];
    cbn; unfold requests, updates in *; rewrite ?filter_app, ?Hr, ?Hu;
    rewrite ?app_nil_r, ?Nat.add_0_r; splits; try reflexivity; try lia.
  destruct dry_run; [reflexivity|lia].
Qed.

Local Abbreviation keeps_ledger := (keeps (ledger kind dry_run)).

Lemma kl_ret {A} (a : A) : keeps_ledger (ret a).
Proof. exact (@keeps_ret _ ledger_refl A a). Qed.

Lemma kl_raise {A} (e : exn) : keeps_ledger (@raise A e).
Proof. exact (@keeps_raise _ ledger_refl A e). Qed.

Lemma kl_lift {A} (r : result A) : keeps_ledger (lift r).
Proof. exact (@keeps_lift _ ledger_refl A r). Qed.

Lemma kl_bind {A B} (m : M A) (k : A -> M B) :
  keeps_ledger m -> (forall a, keeps_ledger (k a)) -> keeps_ledger (bind m k).
Proof. exact (@keeps_bind _ ledger_trans A B m k). Qed.

Lemma kl_try_except {A} (m : M A) (handler : exn -> M A) :
  keeps_ledger m -> (forall e, keeps_ledger (handler e)) ->
  keeps_ledger (try_except m handler).
Proof. exact (@keeps_try_except _ ledger_trans A m handler). Qed.

Lemma kl_for_each {A} (body : A -> M unit) xs :
  (forall x, keeps_ledger (body x)) -> keeps_ledger (for_each xs body).
Proof. exact (@keeps_for_each _ ledger_refl ledger_trans A body xs). Qed.

Lemma kl_fold_each {A B} (body : B -> A -> M B) xs acc :
  (forall acc x, keeps_ledger (body acc x)) ->
  keeps_ledger (fold_each xs acc body).
Proof. exact (@keeps_fold_each _ ledger_refl ledger_trans A B body xs acc). Qed.

Lemma keeps_emit e :
  is_request e = false -> is_update e = false -> keeps_ledger (emit e).
Proof.
  intros Hr Hu s. rewrite emit_run. cbn [snd].
  apply ledger_quiet; cbn; [now rewrite Hr|now rewrite Hu].
Qed.

Lemma keeps_log lvl m : keeps_ledger (log lvl m).
Proof. now apply keeps_emit. Qed.

Lemma keeps_sleep d : keeps_ledger (sleep d).
Proof. now apply keeps_emit. Qed.

Lemma keeps_total_found n : keeps_ledger (update_stats (set_total_found n)).
Proof.
  intros s. cbn. ledger_with (@nil event) (@nil event) (@nil error_note)
                   (@nil skipped_note).
  destruct dry_run; [reflexivity|lia].
Qed.

Lemma keeps_provider_step {A} (e : event) (reply : nat -> remote (option A)) :
  kind e = true -> is_request e = true -> is_update e = false ->
  keeps_ledger
    (response <- provider_call e reply ;;
     update_stats incr_api_calls ;;
     extract response)%proc.
Proof.
  intros Hk Hr Hu s.
  unfold bind, provider_call, update_stats, extract, ret, raise.
  destruct (reply (provider_calls s)) as [reason|[a|]];
    ledger_with [e] (@nil event) (@nil error_note) (@nil skipped_note);
    rewrite ?Hr, ?Hu; cbn; rewrite ?app_nil_r, ?Hk;
    try reflexivity; try lia;
    destruct dry_run; try reflexivity; lia.
Qed.

Lemma keeps_retry_loop {R0} (who : option json) (body exhausted : M R0) :
  keeps_ledger body -> keeps_ledger exhausted ->
  forall remaining attempt,
    keeps_ledger (retry_loop cfg who body exhausted remaining attempt).
Proof.
  intros Hb He. induction remaining as [|remaining IH]; intros attempt.
  - exact He.
  - cbn [retry_loop].
    apply kl_try_except; [exact Hb|]. intros e.
    destruct (attempt <? MAX_RETRIES cfg).
    + apply kl_bind; [apply keeps_log|intros _].
      apply kl_bind; [apply keeps_sleep|intros _].
      apply IH.
    + apply kl_bind; [apply keeps_log|intros _]. exact He.
Qed.

Lemma keeps_single_attempt text :
  kind (EmbedOne provider text) = true ->
  keeps_ledger (single_attempt cfg env provider text).
Proof.
  intros Hk. unfold single_attempt.
  apply kl_bind.
  - destruct provider; now apply keeps_provider_step.
  - intros embedding. apply kl_bind.
    + destruct (negb _); [apply keeps_log|apply kl_ret].
    + intros _. apply kl_ret.
Qed.

Lemma keeps_single_retry text note_id :
  kind (EmbedOne provider text) = true ->
  keeps_ledger (_generate_embedding_with_retry cfg env provider text note_id).
Proof.
  intros Hk. apply keeps_retry_loop.
  - now apply keeps_single_attempt.
  - apply kl_ret.
Qed.

Lemma keeps_check_dimensions note_ids : forall embeddings i,
  keeps_ledger (check_dimensions cfg note_ids i embeddings).
Proof.
  induction embeddings as [|e rest IH]; intros i.
  - apply kl_ret.
  - cbn [check_dimensions]. apply kl_bind; [|intros _; apply IH].
    destruct (negb _); [|apply kl_ret].
    destruct (nth_error note_ids i);
      [apply keeps_log|apply kl_raise].
Qed.

Lemma keeps_batch_attempt texts note_ids :
  kind (EmbedBatch texts) = true ->
  keeps_ledger (batch_attempt cfg env texts note_ids).
Proof.
  intros Hk. unfold batch_attempt, _generate_embeddings_gemini_batch.
  apply kl_bind.
  - apply kl_bind; [apply keeps_log|intros _].
    now apply keeps_provider_step.
  - intros embeddings. apply kl_bind.
    + apply keeps_check_dimensions.
    + intros _. apply kl_lift.
Qed.

Lemma keeps_batch_retry texts_with_ids :
  (forall texts, kind (EmbedBatch texts) = true) ->
  keeps_ledger (_generate_embeddings_batch_with_retry cfg env texts_with_ids).
Proof.
  intros Hk. apply keeps_retry_loop.
  - now apply keeps_batch_attempt.
  - apply kl_lift.
Qed.

Lemma keeps_record_error note_id title reason :
  keeps_ledger (record_error note_id title reason).
Proof.
  intros s. rewrite record_error_run. cbn [snd].
  ledger_with (@nil event) (@nil event)
    [{| error_id := note_id; error_title := title; error := reason |}]
    (@nil skipped_note).
  destruct dry_run; [reflexivity|lia].
Qed.

Lemma keeps_persist note_id title embedding :
  keeps_ledger (persist env dry_run note_id title embedding).
Proof.
  intros s. rewrite persist_run.
  destruct dry_run.
  - cbn [snd].
    ledger_with (@nil event) (@nil event) (@nil error_note)
      (@nil skipped_note).
  - cbv zeta.
    destruct (store_update env (store_calls s) note_id embedding)
      as [reason|[|]]; cbn [snd].
    + ledger_with (@nil event) [Update note_id embedding]
        [{| error_id := note_id; error_title := title;
            error := update_failed |}] (@nil skipped_note).
    + ledger_with (@nil event) [Update note_id embedding] (@nil error_note)
        (@nil skipped_note).
    + ledger_with (@nil event) [Update note_id embedding]
        [{| error_id := note_id; error_title := title;
            error := update_failed |}] (@nil skipped_note).
Qed.

Lemma keeps_single_iteration total item :
  (forall text, kind (EmbedOne provider text) = true) ->
  keeps_ledger (single_iteration cfg env provider dry_run total item).
Proof.
  intros Hk. destruct item as [index [note text]]. unfold single_iteration.
  apply kl_bind; [apply keeps_log|intros _].
  apply kl_bind; [now apply keeps_single_retry|].
  intros [embedding|]; [|apply keeps_record_error].
  apply kl_bind; [apply keeps_persist|intros _].
  destruct (index <? total); [apply keeps_sleep|apply kl_ret].
Qed.

Lemma keeps_single_loop valid_notes :
  (forall text, kind (EmbedOne provider text) = true) ->
  keeps_ledger (_process_notes_single cfg env provider dry_run valid_notes).
Proof.
  intros Hk. apply kl_for_each.
  intros item. now apply keeps_single_iteration.
Qed.

Lemma keeps_batch_record embeddings item :
  keeps_ledger (batch_record py env dry_run embeddings item).
Proof.
  destruct item as [note text]. unfold batch_record.
  apply kl_bind; [apply kl_lift|].
  intros [embedding|]; [apply keeps_persist|apply keeps_record_error].
Qed.

Lemma keeps_batch_iteration valid_notes total_notes batch_start :
  (forall texts, kind (EmbedBatch texts) = true) ->
  keeps_ledger
    (batch_iteration cfg py env dry_run valid_notes total_notes batch_start).
Proof.
  intros Hk. unfold batch_iteration. cbv zeta.
  apply kl_bind; [apply keeps_log|intros _].
  apply kl_bind; [now apply keeps_batch_retry|].
  intros embeddings.
  apply kl_bind.
  - apply kl_for_each.
    intros item. apply keeps_batch_record.
  - intros _. destruct (_ <? _);
      [apply keeps_sleep|apply kl_ret].
Qed.

Lemma keeps_batch_loop valid_notes :
  (forall texts, kind (EmbedBatch texts) = true) ->
  keeps_ledger (_process_notes_batch cfg py env dry_run valid_notes).
Proof.
  intros Hk. unfold _process_notes_batch. cbv zeta.
  destruct (GEMINI_BATCH_SIZE cfg =? 0); [apply kl_raise|].
  apply kl_bind; [apply keeps_log|intros _].
  apply kl_for_each.
  intros batch_start. now apply keeps_batch_iteration.
Qed.

Lemma keeps_validate_note valid_notes note :
  keeps_ledger (validate_note cfg py valid_notes note).
Proof.
  intros s. rewrite validate_note_run.
  destruct (_build_text_for_embedding py note) as [text|e];
    [|apply ledger_refl].
  destruct (classify cfg text); cbn [snd].
  - apply ledger_refl.
  - ledger_with (@nil event) (@nil event) (@nil error_note)
      (@nil skipped_note).
    destruct dry_run; [reflexivity|lia].
  - ledger_with (@nil event) (@nil event) (@nil error_note)
      [{| skipped_id := get "id" note;
          skipped_title := py_or (get "title" note) untitled;
          text_length := measured |}].
    destruct dry_run; [reflexivity|lia].
Qed.

Lemma keeps_report : keeps_ledger _print_final_report.
Proof.
  intros s. rewrite report_run. cbn [snd]. now apply ledger_quiet.
Qed.

Lemma keeps_count_step notes : keeps_ledger (count_step cfg env notes).
Proof.
  intros s. destruct (count_step_run cfg env notes s) as (evs & -> & Hr & Hu).
  cbn [snd]. now apply ledger_quiet.
Qed.

Lemma keeps_query {A} e (reply : remote A) :
  is_request e = false -> is_update e = false -> keeps_ledger (query e reply).
Proof.
  intros Hr Hu. unfold query.
  apply kl_bind; [now apply keeps_emit|intros _].
  destruct reply; [apply kl_raise|apply kl_ret].
Qed.

End LedgerFacts.

Lemma process_ledger cfg py env provider dry_run :
  keeps (ledger (request_of provider) dry_run)
    (process cfg py env provider dry_run).
Proof.
  unfold process.
  apply kl_bind.
  { destruct dry_run; [apply keeps_log|apply kl_ret]. }
  intros _. apply kl_bind; [apply keeps_log|intros _].
  apply kl_bind.
  { apply kl_try_except; [now apply keeps_query|].
    intros e. apply kl_bind; [apply keeps_log|intros _].
    apply kl_raise. }
  intros notes. apply kl_bind; [apply keeps_total_found|intros _].
  destruct notes as [|note notes].
  { apply kl_bind; [apply keeps_log|intros _]. apply keeps_report. }
  apply kl_bind; [apply keeps_log|intros _].
  apply kl_bind; [apply keeps_count_step|intros _].
  apply kl_bind.
  { apply kl_fold_each. intros acc x.
    apply keeps_validate_note. }
  intros [|item valid_notes].
  { apply kl_bind; [apply keeps_log|intros _]. apply keeps_report. }
  apply kl_bind; [apply keeps_log|intros _].
  apply kl_bind; [|intros _; apply keeps_report].
  destruct provider; cbn [andb supports_batch].
  - apply keeps_single_loop. reflexivity.
  - apply keeps_batch_loop. reflexivity.
Qed.

(** ** What a whole run maintains *)

Section RunLedger.

Variable cfg : config.
Variable py : runtime.
Variable env : environment.
Variable provider : EmbeddingProvider.
Variable dry_run : bool.

(** A run that returns ends with the report of its own final state. *)
Lemma process_reports s :
  let out := process cfg py env provider dry_run s in
  fst out = Ok tt ->
  exists tr,
    trace (snd out)
    = tr ++ [Report (stats (snd out)) (skipped_notes (snd out))
               (error_notes (snd out)) (final_verdict (stats (snd out)))].
Proof.
  cbv zeta. destruct (process_run cfg py env provider dry_run s)
    as (s1 & -> & _ & _).
  destruct (fetch_notes env) as [r|[|note notes]].
  - discriminate.
  - rewrite report_run. cbn. eauto.
  - destruct (fold_each _ _ _ s1) as [[[|v valid]|e] s2].
    + rewrite report_run. cbn. eauto.
    + rewrite bind_run.
      destruct (dispatch _ _ _ _ _ _ _) as [[[]|e] s3].
      * rewrite report_run. cbn. eauto.
      * discriminate.
    + discriminate.
Qed.

(** X9.  In every run, whatever it returns or raises, the list of failed
    records has as many entries as the error counter counts and the list
    of records skipped as too long as many as its counter; a run that
    returns ends with a report that shows these lists and counters. *)
Theorem report_lists_match_counters :
  let out := process cfg py env provider dry_run initial_state in
  Z.of_nat (length (error_notes (snd out))) = errors (stats (snd out))
  /\ Z.of_nat (length (skipped_notes (snd out)))
     = skipped_too_long (stats (snd out))
  /\ (fst out = Ok tt ->
      exists tr,
        trace (snd out)
        = tr ++ [Report (stats (snd out)) (skipped_notes (snd out))
                   (error_notes (snd out))
                   (final_verdict (stats (snd out)))]).
Proof.
  cbv zeta.
  destruct (process_ledger cfg py env provider dry_run initial_state)
    as [_ _ (ne & He & Hc) (nk & Hk & Hl) _].
  splits.
  - rewrite He, Hc. reflexivity.
  - rewrite Hk, Hl. reflexivity.
  - apply process_reports.
Qed.

(** X10.  In every run the counter of API calls never exceeds the number
    of requests sent to the provider, which counts them all; a run with
    OpenAI sends only single texts to OpenAI, a run with Gemini only
    batches. *)
Theorem provider_requests_accounted :
  let out := process cfg py env provider dry_run initial_state in
  provider_calls (snd out) = length (requests (trace (snd out)))
  /\ (0 <= api_calls (stats (snd out))
      <= Z.of_nat (length (requests (trace (snd out)))))%Z
  /\ forallb (request_of provider) (requests (trace (snd out))) = true.
Proof.
  cbv zeta.
  destruct (process_ledger cfg py env provider dry_run initial_state)
    as [(nr & Hr & Hp & Ha & Hk) _ _ _ _].
  cbn in Hr, Hp, Ha. rewrite Hr. splits; auto; lia.
Qed.

(** X11.  In every run the store is asked for exactly the updates of the
    trace; in a run that writes, no record is counted as processed
    without an update request of its own. *)
Theorem store_updates_accounted :
  let out := process cfg py env provider dry_run initial_state in
  store_calls (snd out) = length (updates (trace (snd out)))
  /\ (0 <= processed (stats (snd out)))%Z
  /\ (dry_run = false ->
      (processed (stats (snd out))
       <= Z.of_nat (length (updates (trace (snd out)))))%Z).
Proof.
  cbv zeta.
  destruct (process_ledger cfg py env provider dry_run initial_state)
    as [_ (nu & Hu & Hs & Hm & Hd) _ _ _].
  cbn in Hu, Hs, Hm, Hd. rewrite Hu. splits; auto.
  intros ->. lia.
Qed.

(** X12.  The closing line of the report of a run says that everything
    was processed exactly when no record failed and none was skipped; it
    says that nothing was processed exactly when no record was processed
    although some were found; otherwise it gives the number of records
    that failed or were skipped. *)
Theorem final_verdict_meaning :
  let out := process cfg py env provider dry_run initial_state in
  let t := stats (snd out) in
  fst out = Ok tt ->
  (final_verdict t = Completed
   <-> errors t = 0%Z /\ skipped_empty t = 0%Z /\ skipped_too_long t = 0%Z)
  /\ (final_verdict t = NothingProcessed
      <-> processed t = 0%Z /\ total_found t <> 0%Z)
  /\ (forall remaining,
         final_verdict t = PartiallyCompleted remaining ->
         remaining
         = (errors t + skipped_empty t + skipped_too_long t)%Z
         /\ (0 < remaining)%Z /\ (0 < processed t)%Z).
Proof.
  cbv zeta. intros Hok.
  destruct (process_ledger cfg py env provider dry_run initial_state)
    as [_ (nu & _ & _ & Hm & _) (ne & _ & Hc) (nk & _ & Hl) Hy].
  destruct (process_facts cfg py env provider dry_run initial_state)
    as (Hacc & _).
  destruct (Hacc Hok eq_refl) as (Htot & _).
  cbn in Hm, Hc, Hl, Hy. unfold accounted in Htot.
  set (t := stats (snd (process cfg py env provider dry_run initial_state)))
    in *.
  unfold final_verdict.
  destruct (processed t =? total_found t)%Z eqn:E1.
  - apply Z.eqb_eq in E1. splits.
    + split; [intros _; lia|reflexivity].
    + split; [discriminate|]. intros [H1 H2]. lia.
    + discriminate.
  - apply Z.eqb_neq in E1.
    destruct (0 <? processed t)%Z eqn:E2.
    + apply Z.ltb_lt in E2. splits.
      * split; [discriminate|]. intros (H1 & H2 & H3). lia.
      * split; [discriminate|]. intros [H1 H2]. lia.
      * intros remaining [= <-]. lia.
    + apply Z.ltb_ge in E2. splits.
      * split; [discriminate|]. intros (H1 & H2 & H3). lia.
      * split; [intros _; lia|reflexivity].
      * discriminate.
Qed.

End RunLedger.

Lemma final_verdict_meaning_witness :
  final_verdict
    (stats (snd (process Sample.small_config RefRuntime.rt Sample.down OPENAI
                   false initial_state)))
  = NothingProcessed.
Proof.
  apply (proj1 (proj2 (@final_verdict_meaning Sample.small_config
                         RefRuntime.rt Sample.down OPENAI false
                         ltac:(vm_compute; reflexivity)))).
  vm_compute. split; [reflexivity|discriminate].
Defined.

(** ** How many calls a run can make *)

Lemma for_each_bound {A} (g : state -> nat) (c : nat) (body : A -> M unit) :
  forall xs s,
    (forall x s, g (snd (body x s)) <= g s + c) ->
    g (snd (for_each xs body s)) <= g s + c * length xs.
Proof.
  induction xs as [|x xs IH]; intros s Hb.
  - cbn. lia.
  - rewrite for_each_cons. specialize (Hb x s) as Hx.
    destruct (body x s) as [[[]|e] s1]; cbn [fst snd length] in *.
    + specialize (IH s1 Hb). lia.
    + lia.
Qed.

Section BoundFacts.

Variable cfg : config.
Variable py : runtime.
Variable env : environment.
Variable provider : EmbeddingProvider.
Variable dry_run : bool.

Lemma single_iteration_calls total item s :
  provider_calls
    (snd (single_iteration cfg env provider dry_run total item s))
  <= provider_calls s + MAX_RETRIES cfg.
Proof.
  destruct item as [index [note text]].
  destruct (single_iteration_run cfg env provider dry_run total index note
              text s) as (r & s1 & _ & _ & (m & Hm & _ & Hc) & ->).
  destruct r as [embedding|].
  - destruct (persist_facts env dry_run (get "id" note)
                (py_or (get "title" note) untitled) embedding s1)
      as (_ & _ & _ & _ & _ & _ & _ & _ & _ & _ & _ & Hp & _).
    cbv zeta in *. cbn [snd].
    destruct (index <? total); cbn [add_events provider_calls]; lia.
  - rewrite record_error_run. cbn. lia.
Qed.

Lemma batch_iteration_calls valid_notes total_notes batch_start s :
  provider_calls
    (snd (batch_iteration cfg py env dry_run valid_notes total_notes
            batch_start s))
  <= provider_calls s + MAX_RETRIES cfg.
Proof.
  rewrite batch_iteration_run. cbv zeta.
  match goal with
  | |- context [_generate_embeddings_batch_with_retry cfg env ?tw ?s0] =>
      destruct (batch_retry_frame cfg env tw s0)
        as (_ & _ & m & Hm & _ & Hc);
      destruct (_generate_embeddings_batch_with_retry cfg env tw s0)
        as [[embeddings|e] s1]
  end; cbn [fst snd add_events provider_calls] in *.
  - match goal with
    | |- context [for_each ?items (batch_record py env dry_run embeddings) s1] =>
        destruct (batch_records_facts py env dry_run embeddings items s1)
          as (_ & _ & _ & _ & _ & Hp & _);
        destruct (for_each items (batch_record py env dry_run embeddings) s1)
          as [[[]|e] s2]
    end; cbv zeta in Hp; cbn [fst snd] in *; [|lia].
    destruct (_ <? _); cbn [add_events provider_calls]; lia.
  - lia.
Qed.

Lemma single_loop_calls valid_notes s :
  provider_calls
    (snd (_process_notes_single cfg env provider dry_run valid_notes s))
  <= provider_calls s + MAX_RETRIES cfg * length valid_notes.
Proof.
  unfold _process_notes_single.
  pose proof (@for_each_bound _ provider_calls (MAX_RETRIES cfg)
                (single_iteration cfg env provider dry_run
                   (length valid_notes))
                (enumerate valid_notes 1) s) as H.
  unfold enumerate in *. rewrite length_combine, length_seq, Nat.min_id in H.
  apply H. intros x s0. apply single_iteration_calls.
Qed.

Lemma batch_loop_calls valid_notes s :
  provider_calls (snd (_process_notes_batch cfg py env dry_run valid_notes s))
  <= provider_calls s
     + MAX_RETRIES cfg * generations cfg GEMINI (length valid_notes).
Proof.
  unfold _process_notes_batch, generations. cbv zeta.
  destruct (GEMINI_BATCH_SIZE cfg =? 0) eqn:E; [cbn; lia|].
  apply Nat.eqb_neq in E. rewrite bind_run. unfold log. rewrite emit_run.
  pose proof (@for_each_bound _ provider_calls (MAX_RETRIES cfg)
                (batch_iteration cfg py env dry_run valid_notes
                   (length valid_notes))
                (py_range 0 (length valid_notes) (GEMINI_BATCH_SIZE cfg))
                (add_events
                   [Log INFO
                      (MsgBatchPlan (length valid_notes)
                         ((length valid_notes + GEMINI_BATCH_SIZE cfg - 1)
                          / GEMINI_BATCH_SIZE cfg))] s)) as H.
  assert (Hlen : length (py_range 0 (length valid_notes)
                            (GEMINI_BATCH_SIZE cfg))
                 = (length valid_notes + GEMINI_BATCH_SIZE cfg - 1)
                   / GEMINI_BATCH_SIZE cfg).
  { rewrite py_range_spec, length_map, length_seq by lia. reflexivity. }
  rewrite Hlen in H. cbn [add_events provider_calls] in H.
  apply H. intros b s0. apply batch_iteration_calls.
Qed.

Lemma dispatch_calls valid_notes s :
  provider_calls (snd (dispatch cfg py env provider dry_run valid_notes s))
  <= provider_calls s
     + MAX_RETRIES cfg * generations cfg provider (length valid_notes).
Proof.
  pose proof (single_loop_calls valid_notes s) as Hs.
  pose proof (batch_loop_calls valid_notes s) as Hb.
  unfold dispatch. destruct provider eqn:E; cbn [andb supports_batch].
  - exact Hs.
  - exact Hb.
Qed.

Lemma process_calls notes s :
  fetch_notes env = Returns notes ->
  provider_calls (snd (process cfg py env provider dry_run s))
  <= provider_calls s
     + MAX_RETRIES cfg
       * generations cfg provider (length (accepted cfg py notes)).
Proof.
  intros Hfetch.
  destruct (process_run cfg py env provider dry_run s)
    as (s1 & -> & [Hp _ _ _ _ _] & _).
  rewrite Hfetch. destruct notes as [|note notes].
  - rewrite report_run. cbn. lia.
  - destruct (validation_facts cfg py (note :: notes) [] s1)
      as (V1 & _ & _ & _ & _ & _ & V7).
    cbv zeta in *.
    destruct (fold_each (note :: notes) [] (validate_note cfg py) s1)
      as [[valid|e] s2]; cbn [fst snd] in *.
    + destruct (V7 valid eq_refl) as (_ & Hvalid). cbn [app] in Hvalid.
      rewrite <- Hvalid. destruct valid as [|v valid].
      * rewrite report_run. cbn. lia.
      * rewrite bind_run.
        match goal with
        | |- context [dispatch cfg py env provider dry_run ?vs ?s0] =>
            pose proof (dispatch_calls vs s0) as Hd;
            destruct (dispatch cfg py env provider dry_run vs s0)
              as [[[]|e] s3]
        end; cbn [fst snd add_events provider_calls] in *;
          [rewrite report_run; cbn [snd add_events provider_calls]|]; lia.
    + lia.
Qed.

(** X13.  A run sends the provider at most [MAX_RETRIES] requests for
    each record that validation accepts when it uses OpenAI, and at most
    [MAX_RETRIES] requests for each chunk of [GEMINI_BATCH_SIZE] accepted
    records when it uses Gemini; records that are skipped cost nothing. *)
Theorem provider_requests_bounded (notes : list dict) :
  fetch_notes env = Returns notes ->
  let out := process cfg py env provider dry_run initial_state in
  length (requests (trace (snd out)))
  <= MAX_RETRIES cfg
     * generations cfg provider (length (accepted cfg py notes)).
Proof.
  intros Hfetch out.
  pose proof (process_calls initial_state Hfetch) as Hb.
  destruct (process_ledger cfg py env provider dry_run initial_state)
    as [(nr & Hr & Hp & _) _ _ _ _].
  fold out in Hb, Hr, Hp. cbn in Hr, Hp, Hb. rewrite Hr. lia.
Qed.

End BoundFacts.

Lemma provider_requests_bounded_witness :
  length
    (requests
       (trace
          (snd (process Sample.small_config RefRuntime.rt Sample.down GEMINI
                  false initial_state))))
  <= 3.
Proof.
  exact (@provider_requests_bounded Sample.small_config RefRuntime.rt
           Sample.down GEMINI false [Sample.memo; Sample.tagged] eq_refl).
Defined.

(** ** Runs that end early, and runs that reach the report *)

Section RunEdges.

Variable cfg : config.
Variable py : runtime.
Variable env : environment.
Variable provider : EmbeddingProvider.
Variable dry_run : bool.

Lemma process_fetch_failed reason s :
  fetch_notes env = Fails reason ->
  process cfg py env provider dry_run s
  = (Raise (SystemExit 1),
     add_events (opening dry_run ++ [Log ERROR (MsgFetchFailed reason)]) s).
Proof.
  intros Hfetch. unfold process, opening, try_except, query, bind, log, emit,
    raise, ret.
  rewrite Hfetch. destruct dry_run; cbn; unfold add_events; cbn;
    rewrite <- ?app_assoc; reflexivity.
Qed.

Lemma process_nothing_fetched s :
  fetch_notes env = Returns [] ->
  process cfg py env provider dry_run s
  = (Ok tt,
     let t := set_total_found 0 (stats s) in
     set_stats (set_total_found 0)
       (add_events
          (opening dry_run
           ++ [Log SUCCESS MsgNothingToProcess;
               Report t (skipped_notes s) (error_notes s) (final_verdict t)])
          s)).
Proof.
  intros Hfetch. unfold process, _print_final_report.
  unfold opening, try_except, query, bind, log, emit, raise, ret,
    update_stats.
  rewrite Hfetch. destruct dry_run; cbn; unfold add_events, set_stats; cbn;
    rewrite <- ?app_assoc; reflexivity.
Qed.

(** X14.  When the store cannot be read the run stops at once: it logs
    the error with the reason, raises [SystemExit] with status 1, prints
    no report and has contacted neither the provider nor the store's
    update; the counters are untouched. *)
Theorem fetch_failure_stops_the_run (reason : string) (s : state) :
  fetch_notes env = Fails reason ->
  let out := process cfg py env provider dry_run s in
  fst out = Raise (SystemExit 1)
  /\ (exists tr,
         trace (snd out) = trace s ++ tr ++ [Log ERROR (MsgFetchFailed reason)]
         /\ forallb
              (fun e => negb (is_report e || is_request e || is_update e))
              tr = true)
  /\ stats (snd out) = stats s
  /\ provider_calls (snd out) = provider_calls s
  /\ store_calls (snd out) = store_calls s.
Proof.
  intros Hfetch out. unfold out. rewrite (process_fetch_failed s Hfetch).
  cbn [fst snd add_events trace stats provider_calls store_calls].
  splits; try reflexivity.
  exists (opening dry_run). split; [reflexivity|].
  unfold opening. now destruct dry_run.
Qed.

(** X15.  When nothing is pending the run neither counts the pending
    records nor contacts the provider: it sets the number of records
    found to zero and prints the report at once, whose closing line, on a
    fresh processor, says that everything was processed. *)
Theorem nothing_pending_reports_at_once :
  fetch_notes env = Returns [] ->
  let out := process cfg py env provider dry_run initial_state in
  fst out = Ok tt
  /\ stats (snd out) = initial_stats
  /\ trace (snd out)
     = opening dry_run
       ++ [Log SUCCESS MsgNothingToProcess;
           Report initial_stats [] [] Completed]
  /\ provider_calls (snd out) = 0 /\ store_calls (snd out) = 0.
Proof.
  intros Hfetch out. unfold out.
  rewrite (process_nothing_fetched initial_state Hfetch).
  cbn. splits; reflexivity.
Qed.

Lemma validation_returns : forall notes valid_notes s,
  Forall (fun note => exists text, _build_text_for_embedding py note = Ok text)
    notes ->
  exists valid', fst (fold_each notes valid_notes (validate_note cfg py) s)
                 = Ok valid'.
Proof.
  induction notes as [|note notes IH]; intros valid_notes s Hall.
  - cbn. eauto.
  - inversion Hall as [|? ? (text & Htext) Hrest]; subst.
    cbn [fold_each]. rewrite bind_run, validate_note_run, Htext.
    destruct (classify cfg text); now apply IH.
Qed.

Lemma accepted_incl notes item :
  In item (accepted cfg py notes) -> In (fst item) notes.
Proof.
  unfold accepted. intros H. apply in_flat_map in H.
  destruct H as (note & Hin & H).
  destruct (_build_text_for_embedding py note) as [text|]; [|contradiction].
  destruct (classify cfg text); try contradiction.
  destruct H as [<-|[]]. exact Hin.
Qed.

Lemma batch_iteration_returns valid_notes total_notes batch_start s :
  Forall (fun item : dict * string => hashable (get "id" (fst item)) = true)
    valid_notes ->
  fst (batch_iteration cfg py env dry_run valid_notes total_notes batch_start s)
  = Ok tt.
Proof.
  intros Hhash. rewrite batch_iteration_run. cbv zeta.
  match goal with
  | |- context [_generate_embeddings_batch_with_retry cfg env ?tw ?s0] =>
      destruct (batch_retry_frame cfg env tw s0) as (Hraise & _);
      destruct (_generate_embeddings_batch_with_retry cfg env tw s0)
        as [[embeddings|e] s1]
  end.
  { match goal with
    | |- context [for_each ?items (batch_record py env dry_run embeddings) s1] =>
        destruct (batch_records_facts py env dry_run embeddings items s1)
          as (Hret & _);
        assert (Hitems : Forall (fun item : dict * string =>
                                   hashable (get "id" (fst item)) = true)
                           items)
    end.
    { rewrite Forall_forall in *. intros item Hin. apply Hhash.
      eapply slice_incl. exact Hin. }
    cbv zeta in Hret. specialize (Hret Hitems).
    destruct (for_each _ (batch_record py env dry_run embeddings) s1)
      as [[[]|e] s2]; cbn [fst] in *; [reflexivity|discriminate]. }
  cbv zeta in Hraise. specialize (Hraise e eq_refl).
  unfold dict_of_none in Hraise.
  match type of Hraise with
  | (if forallb hashable ?ids then _ else _) = _ =>
      assert (Hids : forallb hashable ids = true)
  end.
  { apply forallb_forall. intros k Hk. rewrite map_map in Hk.
    apply in_map_iff in Hk. destruct Hk as (item & <- & Hin).
    cbn [fst snd]. rewrite Forall_forall in Hhash. apply Hhash.
    eapply slice_incl. exact Hin. }
  rewrite Hids in Hraise. discriminate.
Qed.

Lemma dispatch_returns valid_notes s :
  provider = OPENAI
  \/ (0 < GEMINI_BATCH_SIZE cfg
      /\ Forall (fun item : dict * string =>
                   hashable (get "id" (fst item)) = true) valid_notes) ->
  fst (dispatch cfg py env provider dry_run valid_notes s) = Ok tt.
Proof.
  intros H. unfold dispatch.
  destruct (single_dispatch_facts cfg env provider dry_run valid_notes s)
    as (Hs & _).
  destruct provider eqn:E; cbn [andb supports_batch].
  - exact Hs.
  - destruct H as [H|[Hsize Hhash]]; [discriminate|].
    unfold _process_notes_batch. cbv zeta.
    destruct (GEMINI_BATCH_SIZE cfg =? 0) eqn:E0;
      [apply Nat.eqb_eq in E0; lia|].
    rewrite bind_run. unfold log. rewrite emit_run.
    apply for_each_returns. intros b s0 _.
    now apply batch_iteration_returns.
Qed.

Lemma process_returns notes s :
  fetch_notes env = Returns notes ->
  Forall (fun note => exists text, _build_text_for_embedding py note = Ok text)
    notes ->
  provider = OPENAI
  \/ (0 < GEMINI_BATCH_SIZE cfg
      /\ Forall (fun note => hashable (get "id" note) = true) notes) ->
  fst (process cfg py env provider dry_run s) = Ok tt.
Proof.
  intros Hfetch Hbuild Hmode.
  destruct (process_run cfg py env provider dry_run s) as (s1 & -> & _ & _).
  rewrite Hfetch. destruct notes as [|note notes]; [reflexivity|].
  destruct (validation_returns [] s1 Hbuild) as (valid & Hvalid).
  destruct (validation_facts cfg py (note :: notes) [] s1)
    as (_ & _ & _ & _ & _ & _ & V7).
  cbv zeta in V7.
  destruct (fold_each (note :: notes) [] (validate_note cfg py) s1)
    as [[valid'|e] s2]; cbn [fst snd] in *; [|discriminate].
  destruct (V7 valid' eq_refl) as (_ & Hacc). cbn [app] in Hacc.
  destruct valid' as [|v valid']; [reflexivity|].
  rewrite bind_run.
  match goal with
  | |- context [dispatch cfg py env provider dry_run ?vs ?s0] =>
      assert (Hd : fst (dispatch cfg py env provider dry_run vs s0) = Ok tt)
  end.
  { apply dispatch_returns. destruct Hmode as [H|[Hsize Hhash]]; [now left|].
    right. split; [exact Hsize|]. rewrite Hacc.
    apply Forall_forall. intros item Hin. apply accepted_incl in Hin.
    rewrite Forall_forall in Hhash. now apply Hhash. }
  destruct (dispatch _ _ _ _ _ _ _) as [[[]|e] s3]; cbn [fst] in Hd;
    [reflexivity|discriminate].
Qed.

(** X16.  A run reaches its report whenever the store delivers the
    pending records and their text can be assembled, whatever the
    provider and the store do afterwards: with OpenAI always, with Gemini
    when the batch size is positive and the identities are hashable.
    Failures of single records never end the run. *)
Theorem run_reaches_report (notes : list dict) (s : state) :
  fetch_notes env = Returns notes ->
  Forall (fun note => exists text, _build_text_for_embedding py note = Ok text)
    notes ->
  provider = OPENAI
  \/ (0 < GEMINI_BATCH_SIZE cfg
      /\ Forall (fun note => hashable (get "id" note) = true) notes) ->
  let out := process cfg py env provider dry_run s in
  fst out = Ok tt
  /\ exists tr,
       trace (snd out)
       = tr ++ [Report (stats (snd out)) (skipped_notes (snd out))
                  (error_notes (snd out)) (final_verdict (stats (snd out)))].
Proof.
  intros Hfetch Hbuild Hmode out.
  pose proof (process_returns s Hfetch Hbuild Hmode) as Hok.
  split; [exact Hok|]. now apply process_reports.
Qed.

End RunEdges.

Lemma fetch_failure_stops_the_run_witness :
  let env := {|
    fetch_notes := Fails "offline";
    count_pending := Returns None;
    embed_one := fun _ _ _ => Returns (Some Sample.unit_vector);
    embed_batch := fun _ _ => Returns None;
    store_update := fun _ _ _ => Returns true
  |} in
  fst (process Sample.small_config RefRuntime.rt env OPENAI false
         initial_state)
  = Raise (SystemExit 1).
Proof.
  intros env.
  exact (proj1 (@fetch_failure_stops_the_run Sample.small_config RefRuntime.rt
                  env OPENAI false "offline" initial_state eq_refl)).
Defined.

Lemma nothing_pending_reports_at_once_witness :
  let env := {|
    fetch_notes := Returns [];
    count_pending := Fails "never asked";
    embed_one := fun _ _ _ => Fails "never asked";
    embed_batch := fun _ _ => Fails "never asked";
    store_update := fun _ _ _ => Fails "never asked"
  |} in
  fst (process Sample.small_config RefRuntime.rt env GEMINI true
         initial_state)
  = Ok tt.
Proof.
  intros env.
  exact (proj1 (@nothing_pending_reports_at_once Sample.small_config
                  RefRuntime.rt env GEMINI true eq_refl)).
Defined.

Lemma run_reaches_report_witness :
  fst (process Sample.small_config RefRuntime.rt Sample.down GEMINI false
         initial_state)
  = Ok tt.
Proof.
  refine (proj1 (@run_reaches_report Sample.small_config RefRuntime.rt
                   Sample.down GEMINI false [Sample.memo; Sample.tagged]
                   initial_state eq_refl _ _)).
  - repeat constructor; eexists; vm_compute; reflexivity.
  - right. split; [cbn; lia|]. repeat constructor.
Defined.

(** ** The exit status of the script *)

(** X17.  Once a provider is selected, the script exits with status 1,
    before anything else happens, when a required variable is missing;
    with status 1 and no report when the store cannot be read; and with
    status 0, after the report, whenever the store delivers records whose
    text can be assembled: failures of single records do not show in the
    exit status. *)
Theorem main_exit_status (cfg : config) (py : runtime) (env : environment)
  (getenv : string -> option string) (args : arguments)
  (inputs : list keyboard) (provider : EmbeddingProvider) :
  select_provider args inputs = Ok provider ->
  let out := main cfg py env getenv args inputs in
  (_init_clients getenv provider <> Ok tt -> out = (1%Z, initial_state))
  /\ (_init_clients getenv provider = Ok tt ->
      (forall reason,
          fetch_notes env = Fails reason ->
          fst out = 1%Z
          /\ forallb (fun e => negb (is_report e)) (trace (snd out)) = true)
      /\ (forall notes,
             fetch_notes env = Returns notes ->
             Forall (fun note =>
                       exists text, _build_text_for_embedding py note = Ok text)
               notes ->
             provider = OPENAI
             \/ (0 < GEMINI_BATCH_SIZE cfg
                 /\ Forall (fun note => hashable (get "id" note) = true)
                      notes) ->
             fst out = 0%Z
             /\ exists tr t sk er,
                  trace (snd out) = tr ++ [Report t sk er (final_verdict t)])).
Proof.
  intros Hsel out. unfold out, main. rewrite Hsel. split.
  - unfold _init_clients.
    destruct (missing_vars getenv provider); [intros H; now contradiction H|].
    reflexivity.
  - intros ->. cbv zeta. split.
    + intros reason Hfetch.
      rewrite (@process_fetch_failed cfg py env provider (arg_dry_run args)
                 reason initial_state Hfetch).
      cbn [fst snd exit_status]. split; [reflexivity|].
      unfold opening. now destruct (arg_dry_run args).
    + intros notes Hfetch Hbuild Hmode.
      pose proof (@process_returns cfg py env provider (arg_dry_run args)
                    notes initial_state Hfetch Hbuild Hmode) as Hok.
      destruct (@process_reports cfg py env provider (arg_dry_run args)
                  initial_state Hok) as (tr & Htr).
      cbn [fst snd]. rewrite Hok. split; [reflexivity|]. eauto.
Qed.

Lemma main_exit_status_witness :
  let getenv := fun name : string => Some "x" in
  let args := {| arg_provider := Some "openai"; arg_dry_run := false |} in
  fst (main Sample.small_config RefRuntime.rt Sample.down getenv args []) = 0%Z.
Proof.
  intros getenv args.
  refine (proj1 (proj2 (proj2 (@main_exit_status Sample.small_config
                                 RefRuntime.rt Sample.down getenv args []
                                 OPENAI eq_refl) eq_refl)
                   [Sample.memo; Sample.tagged] eq_refl _ _)).
  - repeat constructor; eexists; vm_compute; reflexivity.
  - now left.
Defined.

(** ** Identities that cannot be dictionary keys *)

Section UnhashableFacts.

Variable cfg : config.
Variable env : environment.

Lemma zip_covers_identities : forall (note_ids : list json)
  (embeddings : list vector),
  length note_ids <= length embeddings ->
  forallb (fun kv : json * vector => hashable (fst kv))
    (combine note_ids embeddings)
  = forallb hashable note_ids.
Proof.
  induction note_ids as [|k ids IH]; intros [|e embeddings] Hlen;
    cbn in *; try reflexivity; try lia.
  rewrite IH by lia. reflexivity.
Qed.

(** X18.  When an identity of a chunk is a list or a dictionary, no
    reply that covers the chunk can be stored in the dictionary: every
    attempt fails, the wrapper uses up its attempts and then raises
    [TypeError] while building its dictionary of failures, instead of
    returning it. *)
Theorem unhashable_identity_aborts
  (texts_with_ids : list (string * json * json)) (s : state) :
  let texts := map (fun t => fst (fst t)) texts_with_ids in
  let note_ids := map (fun t => snd (fst t)) texts_with_ids in
  forallb hashable note_ids = false ->
  (forall j embeddings,
      j < MAX_RETRIES cfg ->
      embed_batch env (provider_calls s + j) texts
      = Returns (Some embeddings) ->
      length note_ids <= length embeddings) ->
  let out := _generate_embeddings_batch_with_retry cfg env texts_with_ids s in
  fst out = Raise TypeError
  /\ provider_calls (snd out) = provider_calls s + MAX_RETRIES cfg
  /\ generation_frame s (snd out).
Proof.
  intros texts note_ids Hbad Hreply out.
  assert (Hfail : forall j, j < MAX_RETRIES cfg ->
            batch_outcome cfg env texts note_ids (provider_calls s + j)
            = None).
  { intros j Hj. unfold batch_outcome.
    destruct (embed_batch env (provider_calls s + j) texts)
      as [reason|[embeddings|]] eqn:E; try reflexivity.
    destruct (warnings_indexable _ _ _ _); [|reflexivity].
    unfold dict_of_zip.
    rewrite (zip_covers_identities _ _ (Hreply j embeddings Hj E)), Hbad.
    reflexivity. }
  destruct (batch_retry_exhausts cfg env texts_with_ids s Hfail)
    as (Hres & Hcalls & _ & _ & Hframe).
  fold out in Hres, Hcalls, Hframe. splits; auto.
  rewrite Hres. unfold dict_of_none. fold note_ids. now rewrite Hbad.
Qed.

End UnhashableFacts.

Lemma unhashable_identity_aborts_witness :
  fst (_generate_embeddings_batch_with_retry Sample.small_config Sample.healthy
         [("a", JList [], JStr "t")] initial_state)
  = Raise TypeError.
Proof.
  refine (proj1 (@unhashable_identity_aborts Sample.small_config Sample.healthy
                   [("a", JList [], JStr "t")] initial_state eq_refl _)).
  intros j embeddings _ [= <-]. cbn. lia.
Defined.

(** ** The pauses between records and between chunks *)

Section QuietFacts.

Variable p : event -> bool.

Local Abbreviation quiet := (keeps (quiet_on p)).

Lemma quiet_refl s : quiet_on p s s.
Proof. reflexivity. Qed.

Lemma quiet_trans s1 s2 s3 :
  quiet_on p s1 s2 -> quiet_on p s2 s3 -> quiet_on p s1 s3.
Proof. unfold quiet_on. congruence. Qed.

Lemma q_ret {A} (a : A) : quiet (ret a).
Proof. exact (@keeps_ret _ quiet_refl A a). Qed.

Lemma q_raise {A} (e : exn) : quiet (@raise A e).
Proof. exact (@keeps_raise _ quiet_refl A e). Qed.

Lemma q_lift {A} (r : result A) : quiet (lift r).
Proof. exact (@keeps_lift _ quiet_refl A r). Qed.

Lemma q_bind {A B} (m : M A) (k : A -> M B) :
  quiet m -> (forall a, quiet (k a)) -> quiet (bind m k).
Proof. exact (@keeps_bind _ quiet_trans A B m k). Qed.

Lemma q_try_except {A} (m : M A) (handler : exn -> M A) :
  quiet m -> (forall e, quiet (handler e)) -> quiet (try_except m handler).
Proof. exact (@keeps_try_except _ quiet_trans A m handler). Qed.

Lemma q_for_each {A} (body : A -> M unit) xs :
  (forall x, quiet (body x)) -> quiet (for_each xs body).
Proof. exact (@keeps_for_each _ quiet_refl quiet_trans A body xs). Qed.

Lemma q_emit e : p e = false -> quiet (emit e).
Proof.
  intros He s. unfold quiet_on. cbn. rewrite filter_app. cbn. rewrite He.
  apply app_nil_r.
Qed.

Lemma q_provider_call {A} e (reply : nat -> remote A) :
  p e = false -> quiet (provider_call e reply).
Proof.
  intros He s. unfold quiet_on, provider_call.
  destruct (reply (provider_calls s)); cbn; rewrite filter_app; cbn;
    rewrite He; apply app_nil_r.
Qed.

Lemma q_store_call {A} e (reply : nat -> remote A) :
  p e = false -> quiet (store_call e reply).
Proof.
  intros He s. unfold quiet_on, store_call.
  destruct (reply (store_calls s)); cbn; rewrite filter_app; cbn;
    rewrite He; apply app_nil_r.
Qed.

Lemma q_update_stats f : quiet (update_stats f).
Proof. intros s. reflexivity. Qed.

Lemma q_append_error n : quiet (append_error n).
Proof. intros s. reflexivity. Qed.

Lemma q_retry_loop {R0} cfg (who : option json) (body exhausted : M R0) :
  (forall lvl m, p (Log lvl m) = false) ->
  (forall z, p (Sleep (IntSeconds z)) = false) ->
  quiet body -> quiet exhausted ->
  forall remaining attempt,
    quiet (retry_loop cfg who body exhausted remaining attempt).
Proof.
  intros Hlog Hsleep Hb He.
  induction remaining as [|remaining IH]; intros attempt; [exact He|].
  cbn [retry_loop]. apply q_try_except; [exact Hb|]. intros e.
  destruct (attempt <? MAX_RETRIES cfg).
  - apply q_bind; [apply q_emit, Hlog|intros _].
    apply q_bind; [apply q_emit, Hsleep|intros _]. apply IH.
  - apply q_bind; [apply q_emit, Hlog|intros _]. exact He.
Qed.

End QuietFacts.

Ltac quiet_step :=
  match goal with
  | |- keeps _ (if ?b then _ else _) => destruct b
  | |- keeps _ (match ?x with _ => _ end) => destruct x
  | |- _ =>
      first
        [ apply q_ret | apply q_raise | apply q_lift
        | apply q_update_stats | apply q_append_error
        | apply q_emit; reflexivity
        | apply q_provider_call; reflexivity
        | apply q_store_call; reflexivity
        | apply q_bind; [|intros ?]
        | apply q_try_except; [|intros ?] ]
  end.

Section DelayFacts.

Variable cfg : config.
Variable py : runtime.
Variable env : environment.
Variable provider : EmbeddingProvider.
Variable dry_run : bool.

Local Abbreviation steady := (keeps (quiet_on is_delay)).

Lemma steady_single_retry text note_id :
  steady (_generate_embedding_with_retry cfg env provider text note_id).
Proof.
  apply q_retry_loop; try reflexivity; [|apply q_ret].
  unfold single_attempt, _generate_embedding_openai,
    _generate_embedding_gemini, extract, log.
  repeat quiet_step.
Qed.

Lemma steady_check_dimensions note_ids : forall embeddings i,
  steady (check_dimensions cfg note_ids i embeddings).
Proof.
  induction embeddings as [|e rest IH]; intros i; [apply q_ret|].
  cbn [check_dimensions]. unfold log.
  apply q_bind; [repeat quiet_step|intros _; apply IH].
Qed.

Lemma steady_batch_retry texts_with_ids :
  steady (_generate_embeddings_batch_with_retry cfg env texts_with_ids).
Proof.
  apply q_retry_loop; try reflexivity; [|apply q_lift].
  unfold batch_attempt, _generate_embeddings_gemini_batch, extract, log.
  apply q_bind; [repeat quiet_step|intros embeddings].
  apply q_bind; [apply steady_check_dimensions|intros _; apply q_lift].
Qed.

Lemma steady_record_error note_id title reason :
  steady (record_error note_id title reason).
Proof. unfold record_error. repeat quiet_step. Qed.

Lemma steady_persist note_id title embedding :
  steady (persist env dry_run note_id title embedding).
Proof.
  unfold persist, _update_note_embedding, log.
  apply q_bind; [repeat quiet_step|intros updated].
  destruct updated; [repeat quiet_step|apply steady_record_error].
Qed.

Lemma steady_batch_record embeddings item :
  steady (batch_record py env dry_run embeddings item).
Proof.
  destruct item as [note text]. unfold batch_record.
  apply q_bind; [apply q_lift|].
  intros [embedding|]; [apply steady_persist|apply steady_record_error].
Qed.

Lemma pause_or_not (allowed : bool) s0 s1 :
  quiet_on is_delay s0 s1 ->
  pauses_once cfg allowed s0
    (if allowed then add_events [delay cfg] s1 else s1).
Proof.
  unfold quiet_on. intros Hq. destruct allowed.
  - exists 1. cbn. rewrite filter_app, Hq. cbn. split; [reflexivity|lia].
  - exists 0. cbn. rewrite Hq, app_nil_r. split; [reflexivity|lia].
Qed.

Lemma pauses_quiet allowed s0 s1 :
  quiet_on is_delay s0 s1 -> pauses_once cfg allowed s0 s1.
Proof.
  unfold quiet_on. intros Hq. exists 0. cbn. rewrite Hq, app_nil_r.
  split; [reflexivity|lia].
Qed.

Lemma single_iteration_pauses total item s :
  pauses_once cfg (fst item <? total) s
    (snd (single_iteration cfg env provider dry_run total item s)).
Proof.
  destruct item as [index [note text]]. cbn [fst].
  destruct (single_iteration_run cfg env provider dry_run total index note
              text s) as (r & s1 & Hrun & _ & _ & ->).
  cbv zeta in Hrun.
  assert (H1 : quiet_on is_delay s s1).
  { pose proof (steady_single_retry text (get "id" note)
                  (add_events
                     [Log INFO
                        (MsgProcessing (get "id" note)
                           (py_or (get "title" note) untitled))] s)) as H.
    rewrite Hrun in H. cbn [snd] in H. unfold quiet_on in *.
    rewrite H. cbn. rewrite filter_app. cbn. apply app_nil_r. }
  destruct r as [embedding|].
  - cbn [snd]. apply pause_or_not.
    eapply quiet_trans; [exact H1|]. apply steady_persist.
  - apply pauses_quiet. eapply quiet_trans; [exact H1|].
    apply steady_record_error.
Qed.

Lemma batch_iteration_pauses valid_notes total_notes batch_start s :
  pauses_once cfg
    (Nat.min (batch_start + GEMINI_BATCH_SIZE cfg) total_notes <? total_notes)
    s
    (snd (batch_iteration cfg py env dry_run valid_notes total_notes
            batch_start s)).
Proof.
  rewrite batch_iteration_run. cbv zeta.
  match goal with
  | |- context [_generate_embeddings_batch_with_retry cfg env ?tw ?s0] =>
      pose proof (steady_batch_retry tw s0) as H;
      destruct (_generate_embeddings_batch_with_retry cfg env tw s0)
        as [[embeddings|e] s1]
  end; cbn [snd] in *.
  - assert (H1 : quiet_on is_delay s s1).
    { unfold quiet_on in *. rewrite H. cbn. rewrite filter_app. cbn.
      apply app_nil_r. }
    match goal with
    | |- context [for_each ?items (batch_record py env dry_run embeddings) s1] =>
        assert (H2 : quiet_on is_delay s1
                       (snd (for_each items
                               (batch_record py env dry_run embeddings) s1)))
          by (apply q_for_each; intros item; apply steady_batch_record);
        destruct (for_each items (batch_record py env dry_run embeddings) s1)
          as [[[]|e] s2]
    end; cbn [snd] in *.
    + apply pause_or_not. eapply quiet_trans; [exact H1|exact H2].
    + apply pauses_quiet. eapply quiet_trans; [exact H1|exact H2].
  - apply pauses_quiet. unfold quiet_on in *. rewrite H. cbn.
    rewrite filter_app. cbn. apply app_nil_r.
Qed.

Lemma for_each_pauses {A} (allowed : A -> bool) (body : A -> M unit) :
  forall xs s,
    (forall x s, pauses_once cfg (allowed x) s (snd (body x s))) ->
    exists k,
      filter is_delay (trace (snd (for_each xs body s)))
      = filter is_delay (trace s) ++ repeat (delay cfg) k
      /\ k <= length (filter allowed xs).
Proof.
  induction xs as [|x xs IH]; intros s Hb.
  - exists 0. cbn. rewrite app_nil_r. split; [reflexivity|lia].
  - rewrite for_each_cons. destruct (Hb x s) as (k1 & H1 & Hk1).
    destruct (body x s) as [[[]|e] s1]; cbn [fst snd] in *.
    + destruct (IH s1 Hb) as (k2 & H2 & Hk2).
      exists (k1 + k2). rewrite H2, H1, <- app_assoc, repeat_app.
      split; [reflexivity|]. cbn [filter].
      destruct (allowed x); cbn [length]; lia.
    + exists k1. split; [exact H1|]. cbn [filter].
      destruct (allowed x); cbn [length]; lia.
Qed.

Lemma enumerate_before total : forall {A} (l : list A) start,
  length (filter (fun item : nat * A => fst item <? total)
            (combine (seq start (length l)) l))
  <= total - start.
Proof.
  intros A. induction l as [|x l IH]; intros start; [cbn; lia|].
  cbn [length seq combine filter fst].
  specialize (IH (S start)).
  destruct (start <? total) eqn:E; cbn [length].
  - apply Nat.ltb_lt in E. lia.
  - lia.
Qed.

Lemma chunk_starts_before_last total size :
  0 < size ->
  length (filter (fun b => Nat.min (b + size) total <? total)
            (py_range 0 total size))
  <= (total + size - 1) / size - 1.
Proof.
  intros Hsize. rewrite py_range_spec by exact Hsize.
  set (q := (total + size - 1) / size).
  assert (Hq : total <= q * size).
  { unfold q. pose proof (Nat.div_mod (total + size - 1) size ltac:(lia)) as Hd.
    pose proof (Nat.mod_upper_bound (total + size - 1) size ltac:(lia)) as Hm.
    nia. }
  destruct q as [|q']; [cbn; lia|].
  rewrite seq_S, map_app, filter_app, length_app. cbn [map filter Nat.add].
  assert (Hlast : (Nat.min (q' * size + size) total <? total) = false).
  { apply Nat.ltb_ge. cbn in Hq. lia. }
  rewrite Hlast. cbn [length].
  pose proof (filter_length_le
                (fun b => Nat.min (b + size) total <? total)
                (map (fun i => i * size) (seq 0 q'))) as Hle.
  rewrite length_map, length_seq in Hle. lia.
Qed.

Lemma single_loop_pauses valid_notes s :
  exists k,
    filter is_delay
      (trace (snd (_process_notes_single cfg env provider dry_run
                     valid_notes s)))
    = filter is_delay (trace s) ++ repeat (delay cfg) k
    /\ k <= length valid_notes - 1.
Proof.
  unfold _process_notes_single.
  destruct (@for_each_pauses _
              (fun item : nat * (dict * string) =>
                 fst item <? length valid_notes)
              (single_iteration cfg env provider dry_run (length valid_notes))
              (enumerate valid_notes 1) s) as (k & Hk & Hle).
  { intros x s0. apply single_iteration_pauses. }
  exists k. split; [exact Hk|].
  unfold enumerate in Hle.
  pose proof (enumerate_before (length valid_notes) valid_notes 1). lia.
Qed.

Lemma batch_loop_pauses valid_notes s :
  exists k,
    filter is_delay
      (trace (snd (_process_notes_batch cfg py env dry_run valid_notes s)))
    = filter is_delay (trace s) ++ repeat (delay cfg) k
    /\ k <= generations cfg GEMINI (length valid_notes) - 1.
Proof.
  unfold _process_notes_batch, generations. cbv zeta.
  destruct (GEMINI_BATCH_SIZE cfg =? 0) eqn:E.
  - exists 0. cbn. rewrite app_nil_r. split; [reflexivity|lia].
  - apply Nat.eqb_neq in E. rewrite bind_run. unfold log. rewrite emit_run.
    match goal with
    | |- context [for_each ?xs ?body ?s0] =>
        destruct (@for_each_pauses _
                    (fun b =>
                       Nat.min (b + GEMINI_BATCH_SIZE cfg) (length valid_notes)
                       <? length valid_notes) body xs s0) as (k & Hk & Hle)
    end.
    { intros b s0. apply batch_iteration_pauses. }
    exists k. split.
    + rewrite Hk. cbn. rewrite filter_app. cbn. now rewrite app_nil_r.
    + pose proof (@chunk_starts_before_last (length valid_notes)
                    (GEMINI_BATCH_SIZE cfg) ltac:(lia)). lia.
Qed.

(** X19.  The pause of [DELAY_BETWEEN_CALLS] seconds is taken between
    records or chunks only: the dispatch of the accepted records adds
    fewer pauses than it has records (OpenAI) or chunks (Gemini), none
    after the last one. *)
Theorem pauses_only_between (valid_notes : list (dict * string)) (s : state) :
  let out := dispatch cfg py env provider dry_run valid_notes s in
  exists k,
    filter is_delay (trace (snd out))
    = filter is_delay (trace s) ++ repeat (delay cfg) k
    /\ k <= generations cfg provider (length valid_notes) - 1.
Proof.
  cbv zeta.
  pose proof (single_loop_pauses valid_notes s) as Hs.
  pose proof (batch_loop_pauses valid_notes s) as Hb.
  unfold dispatch. destruct provider eqn:E; cbn [andb supports_batch].
  - exact Hs.
  - exact Hb.
Qed.

End DelayFacts.

(** ** The informative count *)

(** X20.  The count of the pending records is informative only: whatever
    the store answers, and also when the query fails, the step returns
    normally and changes nothing but the trace, to which it adds the
    query and, exactly when the count (or, for a missing or zero count,
    the number of fetched records) exceeds [BATCH_LIMIT], one line that
    announces the total. *)
Theorem count_is_informative_only (cfg : config) (env : environment)
  (notes : list dict) (s : state) :
  exists evs,
    count_step cfg env notes s = (Ok tt, add_events (CountPending :: evs) s)
    /\ same_but_trace s (add_events (CountPending :: evs) s)
    /\ (forall n,
           In (Log INFO (MsgMorePending n)) evs
           <-> exists count,
                 count_pending env = Returns count
                 /\ n = total_pending count (length notes)
                 /\ (Z.of_nat (BATCH_LIMIT cfg) < n)%Z)
    /\ (forall e, In e evs -> exists n, e = Log INFO (MsgMorePending n))
    /\ length evs <= 1.
Proof.
  unfold count_step, try_except, query, bind, emit, log, ret, raise.
  assert (Hsame : forall evs, same_but_trace s (add_events evs s)).
  { intros evs. unfold same_but_trace. cbn. splits; reflexivity. }
  destruct (count_pending env) as [reason|count] eqn:Ec.
  - exists []. splits.
    + reflexivity.
    + apply Hsame.
    + intros n. split; [contradiction|]. intros (c & Hc & _). discriminate.
    + contradiction.
    + cbn. lia.
  - cbn [is_Exception fst snd].
    change (match count with
            | Some c => if (c =? 0)%Z then Z.of_nat (length notes) else c
            | None => Z.of_nat (length notes)
            end) with (total_pending count (length notes)).
    destruct (Z.of_nat (BATCH_LIMIT cfg) <? total_pending count (length notes))%Z
      eqn:E.
    + apply Z.ltb_lt in E.
      exists [Log INFO (MsgMorePending (total_pending count (length notes)))].
      splits.
      * cbn. unfold add_events. cbn. rewrite <- app_assoc. reflexivity.
      * apply Hsame.
      * intros n. split.
        -- intros [[= <-]|[]]. exists count. splits; auto.
        -- intros (c & [= <-] & -> & _). now left.
      * intros e [<-|[]]. eauto.
      * cbn. lia.
    + apply Z.ltb_ge in E. exists []. splits.
      * reflexivity.
      * apply Hsame.
      * intros n. split; [contradiction|].
        intros (c & [= <-] & -> & Hlt). lia.
      * contradiction.
      * cbn. lia.
Qed.

(** ** The line that reports a failed generation *)

Section GivingUp.

Variable cfg : config.
Variable env : environment.
Variable provider : EmbeddingProvider.

Lemma hush_single_attempt text :
  keeps (quiet_on is_error_log) (single_attempt cfg env provider text).
Proof.
  unfold single_attempt, _generate_embedding_openai,
    _generate_embedding_gemini, extract, log.
  repeat quiet_step.
Qed.

Lemma giving_up_step text note_id :
  forall remaining attempt s,
    attempt + remaining = MAX_RETRIES cfg + 1 -> 0 < remaining ->
    let out :=
      retry_loop cfg (Some note_id) (single_attempt cfg env provider text)
        (ret None) remaining attempt s in
    match fst out with
    | Ok (Some _) =>
        filter is_error_log (trace (snd out)) = filter is_error_log (trace s)
    | Ok None =>
        filter is_error_log (trace (snd out))
        = filter is_error_log (trace s)
          ++ [Log ERROR (MsgAllAttemptsFailed (Some note_id))]
    | Raise _ => False
    end.
Proof.
  induction remaining as [|remaining IH]; intros attempt s Hsum Hpos; [lia|].
  cbv zeta. cbn [retry_loop]. unfold try_except.
  pose proof (hush_single_attempt text s) as Hq. unfold quiet_on in Hq.
  destruct (single_attempt_facts cfg env provider text s) as (Hres & _).
  cbv zeta in Hres.
  destruct (single_outcome env provider text (provider_calls s)) as [v|].
  - destruct Hres as (Hres & _).
    destruct (single_attempt cfg env provider text s) as [r s1].
    cbn [fst snd] in *. subst r. cbn [fst snd]. exact Hq.
  - destruct Hres as (e & Hres & He).
    destruct (single_attempt cfg env provider text s) as [r s1].
    cbn [fst snd] in *. subst r. rewrite He.
    destruct (attempt <? MAX_RETRIES cfg) eqn:E.
    + apply Nat.ltb_lt in E.
      unfold bind at 1, log at 1. rewrite emit_run.
      unfold bind at 1, sleep at 1. rewrite emit_run.
      match goal with
      | |- context [retry_loop _ _ _ _ remaining (S attempt) ?s0] =>
          specialize (IH (S attempt) s0 ltac:(lia) ltac:(lia));
          assert (Hs0 : filter is_error_log (trace s0)
                        = filter is_error_log (trace s))
      end.
      { cbn. rewrite !filter_app. cbn. rewrite !app_nil_r. exact Hq. }
      cbv zeta in IH. rewrite Hs0 in IH. exact IH.
    + unfold bind, log, ret. rewrite emit_run. cbn.
      rewrite filter_app, Hq. reflexivity.
Qed.

(** X21.  The wrapper of a single generation never raises; when at least
    one attempt is allowed, it logs the error line that names the record
    exactly once when it gives up, and no error line at all when it
    returns a vector. *)
Theorem giving_up_is_logged_once (text : string) (note_id : json)
  (s : state) :
  0 < MAX_RETRIES cfg ->
  let out := _generate_embedding_with_retry cfg env provider text note_id s in
  match fst out with
  | Ok (Some _) =>
      filter is_error_log (trace (snd out)) = filter is_error_log (trace s)
  | Ok None =>
      filter is_error_log (trace (snd out))
      = filter is_error_log (trace s)
        ++ [Log ERROR (MsgAllAttemptsFailed (Some note_id))]
  | Raise _ => False
  end.
Proof.
  intros Hpos. apply giving_up_step; lia.
Qed.

End GivingUp.

Lemma giving_up_is_logged_once_witness :
  filter is_error_log
    (trace (snd (_generate_embedding_with_retry Sample.small_config
                   Sample.down OPENAI "a" (JInt 7) initial_state)))
  = [Log ERROR (MsgAllAttemptsFailed (Some (JInt 7)))].
Proof.
  exact (@giving_up_is_logged_once Sample.small_config Sample.down OPENAI "a"
           (JInt 7) initial_state ltac:(cbn; lia)).
Defined.

(** ** Where the entries of the report lists come from *)

Lemma keeps_for_each_in (R : state -> state -> Prop) {A}
  (body : A -> M unit) :
  (forall s, R s s) -> (forall s1 s2 s3, R s1 s2 -> R s2 s3 -> R s1 s3) ->
  forall xs,
    (forall x, In x xs -> keeps R (body x)) -> keeps R (for_each xs body).
Proof.
  intros Hrefl Htrans. induction xs as [|x xs IH]; intros Hb.
  - now apply keeps_ret.
  - cbn [for_each]. apply (keeps_bind Htrans).
    + apply Hb. now left.
    + intros _. apply IH. intros y Hy. apply Hb. now right.
Qed.

Lemma keeps_fold_each_in (R : state -> state -> Prop) {A B}
  (body : B -> A -> M B) :
  (forall s, R s s) -> (forall s1 s2 s3, R s1 s2 -> R s2 s3 -> R s1 s3) ->
  forall xs acc,
    (forall acc x, In x xs -> keeps R (body acc x)) ->
    keeps R (fold_each xs acc body).
Proof.
  intros Hrefl Htrans. induction xs as [|x xs IH]; intros acc Hb.
  - now apply keeps_ret.
  - cbn [fold_each]. apply (keeps_bind Htrans).
    + apply Hb. now left.
    + intros acc'. apply IH. intros a y Hy. apply Hb. now right.
Qed.

Lemma process_fetched cfg py env provider dry_run notes s :
  fetch_notes env = Returns notes ->
  process cfg py env provider dry_run s
  = after_fetch cfg py env provider dry_run notes
      (add_events (opening dry_run) s).
Proof.
  intros Hfetch. unfold process, opening, try_except, query.
  rewrite !bind_run. unfold log at 1 2, emit at 1 2 3.
  destruct dry_run; cbn [ret fst snd]; rewrite !bind_run, Hfetch;
    cbn [ret]; unfold add_events; cbn; rewrite <- ?app_assoc; reflexivity.
Qed.

Section ListFacts.

Variable cfg : config.
Variable py : runtime.
Variable env : environment.
Variable provider : EmbeddingProvider.
Variable dry_run : bool.
Variable notes : list dict.
Variable reason : string.

Local Abbreviation grows :=
  (lists_grow (skipped_entry_of cfg py notes) (error_entry_of reason notes)).

Lemma grows_same s s' :
  skipped_notes s' = skipped_notes s -> error_notes s' = error_notes s ->
  grows s s'.
Proof.
  intros Hk He. split; exists []; rewrite app_nil_r; auto.
Qed.

Lemma grows_refl s : grows s s.
Proof. now apply grows_same. Qed.

Lemma grows_trans s1 s2 s3 : grows s1 s2 -> grows s2 s3 -> grows s1 s3.
Proof.
  intros [(k1 & Hk1 & Fk1) (e1 & He1 & Fe1)] [(k2 & Hk2 & Fk2) (e2 & He2 & Fe2)].
  split.
  - exists (k1 ++ k2). rewrite Hk2, Hk1, <- app_assoc. split; [reflexivity|].
    apply Forall_app. now split.
  - exists (e1 ++ e2). rewrite He2, He1, <- app_assoc. split; [reflexivity|].
    apply Forall_app. now split.
Qed.

Lemma grows_log lvl m : keeps grows (log lvl m).
Proof. intros s. now apply grows_same. Qed.

Lemma grows_sleep d : keeps grows (sleep d).
Proof. intros s. now apply grows_same. Qed.

Lemma grows_report : keeps grows _print_final_report.
Proof. intros s. now apply grows_same. Qed.

Lemma grows_count_step ns : keeps grows (count_step cfg env ns).
Proof.
  intros s. destruct (count_step_run cfg env ns s) as (evs & -> & _).
  now apply grows_same.
Qed.

Lemma grows_record_error note why :
  In note notes -> why = reason \/ why = update_failed ->
  keeps grows
    (record_error (get "id" note) (py_or (get "title" note) untitled) why).
Proof.
  intros Hin Hwhy s. rewrite record_error_run. cbn [snd]. split.
  - exists []. now rewrite app_nil_r.
  - eexists. split; [reflexivity|]. constructor; [|constructor].
    exists note. split; [exact Hin|].
    destruct Hwhy as [->| ->]; [left|right]; reflexivity.
Qed.

Lemma grows_persist note embedding :
  In note notes ->
  keeps grows
    (persist env dry_run (get "id" note) (py_or (get "title" note) untitled)
       embedding).
Proof.
  intros Hin s.
  destruct (persist_facts env dry_run (get "id" note)
              (py_or (get "title" note) untitled) embedding s)
    as (_ & _ & _ & He & _ & _ & _ & _ & _ & _ & Hk & _).
  cbv zeta in *. split.
  - exists []. now rewrite app_nil_r.
  - eexists. split; [exact He|].
    destruct (_ || _); constructor; [|constructor].
    exists note. split; [exact Hin|]. now right.
Qed.

Lemma grows_single_iteration total item :
  In (fst (snd item)) notes -> reason = generation_failed ->
  keeps grows (single_iteration cfg env provider dry_run total item).
Proof.
  destruct item as [index [note text]]. cbn [fst snd]. intros Hin Hreason s.
  destruct (single_iteration_run cfg env provider dry_run total index note
              text s) as (r & s1 & _ & Hf & _ & ->).
  assert (H1 : grows s s1) by (apply grows_same; apply Hf).
  destruct r as [embedding|].
  - cbn [snd]. apply (grows_trans H1).
    eapply grows_trans; [exact (@grows_persist note embedding Hin s1)|].
    destruct (index <? total); [now apply grows_same|apply grows_refl].
  - apply (grows_trans H1). apply grows_record_error; auto.
Qed.

Lemma grows_batch_record embeddings item :
  In (fst item) notes -> reason = generation_failed_in_batch ->
  keeps grows (batch_record py env dry_run embeddings item).
Proof.
  destruct item as [note text]. cbn [fst]. intros Hin Hreason.
  unfold batch_record.
  apply (keeps_bind grows_trans); [intros s; apply grows_refl|].
  intros [embedding|];
    [now apply grows_persist|apply grows_record_error; auto].
Qed.

Lemma grows_batch_iteration valid_notes total_notes batch_start :
  (forall item, In item valid_notes -> In (fst item) notes) ->
  reason = generation_failed_in_batch ->
  keeps grows
    (batch_iteration cfg py env dry_run valid_notes total_notes batch_start).
Proof.
  intros Hin Hreason s. rewrite batch_iteration_run. cbv zeta.
  match goal with
  | |- context [_generate_embeddings_batch_with_retry cfg env ?tw ?s0] =>
      destruct (batch_retry_frame cfg env tw s0) as (_ & Hf & _);
      destruct (_generate_embeddings_batch_with_retry cfg env tw s0)
        as [[embeddings|e] s1]
  end; cbn [fst snd] in *.
  - assert (H1 : grows s s1) by (apply grows_same; apply Hf).
    apply (grows_trans H1).
    match goal with
    | |- context [for_each ?items (batch_record py env dry_run embeddings) s1] =>
        assert (H2 : grows s1
                       (snd (for_each items
                               (batch_record py env dry_run embeddings) s1)));
        [|destruct (for_each items (batch_record py env dry_run embeddings) s1)
            as [[[]|e0] s2]]
    end; cbn [snd] in *.
    + apply (@keeps_for_each_in grows _ _ grows_refl grows_trans).
      intros item Hitem. apply grows_batch_record; [|exact Hreason].
      apply Hin. eapply slice_incl. exact Hitem.
    + destruct (_ <? _); [|exact H2].
      apply (grows_trans H2). now apply grows_same.
    + exact H2.
  - apply grows_same; apply Hf.
Qed.

Lemma grows_dispatch valid_notes :
  (forall item, In item valid_notes -> In (fst item) notes) ->
  reason = generation_reason provider ->
  keeps grows (dispatch cfg py env provider dry_run valid_notes).
Proof.
  intros Hin Hreason.
  assert (Hs : reason = generation_failed ->
               keeps grows
                 (_process_notes_single cfg env provider dry_run valid_notes)).
  { intros Hr. apply (@keeps_for_each_in grows _ _ grows_refl grows_trans).
    intros [index item] Hitem. apply grows_single_iteration; [|exact Hr].
    cbn [fst snd]. apply Hin. unfold enumerate in Hitem.
    now apply in_combine_r in Hitem. }
  assert (Hb : reason = generation_failed_in_batch ->
               keeps grows
                 (_process_notes_batch cfg py env dry_run valid_notes)).
  { intros Hr. unfold _process_notes_batch. cbv zeta.
    destruct (_ =? 0); [intros s; apply grows_refl|].
    apply (keeps_bind grows_trans); [apply grows_log|intros _].
    apply (keeps_for_each grows_refl grows_trans).
    intros b. now apply grows_batch_iteration. }
  unfold dispatch. destruct provider eqn:E; cbn [andb supports_batch];
    [apply Hs|apply Hb]; exact Hreason.
Qed.

Lemma grows_validate_note valid_notes note :
  In note notes ->
  keeps grows (validate_note cfg py valid_notes note).
Proof.
  intros Hin s. rewrite validate_note_run.
  destruct (_build_text_for_embedding py note) as [text|e] eqn:Eb;
    [|apply grows_refl].
  unfold classify.
  destruct (negb _); [now apply grows_same|].
  destruct (MAX_TEXT_LENGTH cfg <? String.length text) eqn:El;
    [|apply grows_refl].
  apply Nat.ltb_lt in El. cbn [snd]. split.
  - eexists. split; [reflexivity|]. constructor; [|constructor].
    exists note, text. splits; auto.
  - exists []. now rewrite app_nil_r.
Qed.

Lemma validation_keeps_records : forall ns valid_notes s,
  (forall item, In item valid_notes -> In (fst item) notes) ->
  incl ns notes ->
  forall valid',
    fst (fold_each ns valid_notes (validate_note cfg py) s) = Ok valid' ->
    forall item, In item valid' -> In (fst item) notes.
Proof.
  induction ns as [|note ns IH]; intros valid_notes s Hv Hincl valid'.
  - cbn. intros [= <-]. exact Hv.
  - cbn [fold_each]. rewrite bind_run, validate_note_run.
    assert (Hn : In note notes) by (apply Hincl; now left).
    assert (Hns : incl ns notes) by (intros x Hx; apply Hincl; now right).
    destruct (_build_text_for_embedding py note) as [text|e];
      [|discriminate].
    destruct (classify cfg text) as [t| |m]; try now apply IH.
    apply IH; [|exact Hns]. intros item Hitem.
    apply in_app_or in Hitem. destruct Hitem as [H|[<-|[]]]; auto.
Qed.

Lemma grows_after_fetch fetched :
  incl fetched notes ->
  reason = generation_reason provider ->
  keeps grows (after_fetch cfg py env provider dry_run fetched).
Proof.
  intros Hincl Hreason s. unfold after_fetch. rewrite bind_run.
  unfold update_stats at 1.
  set (s0 := set_stats _ s).
  assert (H0 : grows s s0) by now apply grows_same.
  apply (grows_trans H0). clearbody s0.
  destruct fetched as [|note ns] eqn:En.
  - apply (keeps_bind grows_trans); [apply grows_log|intros _].
    apply grows_report.
  - rewrite <- En in *. clear En.
    rewrite bind_run. unfold log at 1. rewrite emit_run.
    set (s1 := add_events _ s0).
    assert (H1 : grows s0 s1) by now apply grows_same.
    apply (grows_trans H1). clearbody s1.
    rewrite bind_run.
    pose proof (grows_count_step fetched s1) as H2.
    destruct (count_step cfg env fetched s1) as [[[]|e] s2]; cbn [snd] in H2;
      [|exact H2].
    apply (grows_trans H2). rewrite bind_run.
    pose proof (@keeps_fold_each_in grows _ _ (validate_note cfg py)
                  grows_refl grows_trans fetched []
                  (fun acc x Hx => @grows_validate_note acc x (Hincl x Hx))
                  s2) as H3.
    pose proof (@validation_keeps_records fetched [] s2
                  ltac:(intros ? []) Hincl) as Hrec.
    destruct (fold_each fetched [] (validate_note cfg py) s2)
      as [[valid|e] s3]; cbn [fst snd] in *; [|exact H3].
    apply (grows_trans H3). specialize (Hrec valid eq_refl).
    destruct valid as [|v valid].
    + apply (keeps_bind grows_trans); [apply grows_log|intros _].
      apply grows_report.
    + apply (keeps_bind grows_trans); [apply grows_log|intros _].
      apply (keeps_bind grows_trans); [|intros _; apply grows_report].
      now apply grows_dispatch.
Qed.

End ListFacts.

(** X22.  Every entry of the two lists that the report prints describes
    a fetched record: an entry of the list of skipped records carries the
    identity and the title of a record whose assembled text is longer
    than [MAX_TEXT_LENGTH], with that length; an entry of the list of
    errors carries the identity and the title of a record and gives as
    reason either the failed update or the failed generation, the latter
    worded after the provider's mode. *)
Theorem report_entries_are_fetched_records (cfg : config) (py : runtime)
  (env : environment) (provider : EmbeddingProvider) (dry_run : bool)
  (notes : list dict) :
  fetch_notes env = Returns notes ->
  let out := process cfg py env provider dry_run initial_state in
  Forall (skipped_entry_of cfg py notes) (skipped_notes (snd out))
  /\ Forall (error_entry_of (generation_reason provider) notes)
       (error_notes (snd out)).
Proof.
  intros Hfetch out. unfold out.
  rewrite (@process_fetched cfg py env provider dry_run notes initial_state
             Hfetch).
  destruct (@grows_after_fetch cfg py env provider dry_run notes
              (generation_reason provider) notes (incl_refl notes) eq_refl
              (add_events (opening dry_run) initial_state))
    as [(nk & Hk & Fk) (ne & He & Fe)].
  cbn [add_events skipped_notes error_notes initial_state app] in Hk, He.
  rewrite Hk, He. now split.
Qed.

Lemma report_entries_are_fetched_records_witness :
  Forall (error_entry_of generation_failed [Sample.memo; Sample.tagged])
    (error_notes
       (snd (process Sample.small_config RefRuntime.rt Sample.down OPENAI
               false initial_state))).
Proof.
  exact (proj2 (@report_entries_are_fetched_records Sample.small_config
                  RefRuntime.rt Sample.down OPENAI false
                  [Sample.memo; Sample.tagged] eq_refl)).
Defined.

(** ** Every accepted record is sent to the provider, in order *)

Lemma for_each_asks {A} cfg (request : A -> event) (body : A -> M unit) :
  forall xs s,
    (forall x s, In x xs -> fst (body x s) = Ok tt ->
                 asks cfg (request x) s (snd (body x s))) ->
    fst (for_each xs body s) = Ok tt ->
    exists counts,
      length counts = length xs
      /\ Forall (fun m => 1 <= m <= MAX_RETRIES cfg) counts
      /\ requests (trace (snd (for_each xs body s)))
         = requests (trace s) ++ repeated (map request xs) counts.
Proof.
  induction xs as [|x xs IH]; intros s Hb Hok.
  - exists []. cbn. rewrite app_nil_r. auto.
  - rewrite for_each_cons in *.
    pose proof (Hb x s (or_introl eq_refl)) as Hx.
    destruct (body x s) as [[[]|e] s1]; cbn [fst snd] in *; [|discriminate].
    destruct (Hx eq_refl) as (m & Hm & Hq).
    destruct (IH s1 (fun y s0 Hy => Hb y s0 (or_intror Hy)) Hok)
      as (counts & Hlen & Hall & Hreq).
    exists (m :: counts). cbn [length map]. splits.
    + now rewrite Hlen.
    + now constructor.
    + rewrite Hreq, Hq. unfold repeated. cbn. now rewrite <- app_assoc.
Qed.

Section UnitFacts.

Variable cfg : config.
Variable py : runtime.
Variable env : environment.
Variable provider : EmbeddingProvider.
Variable dry_run : bool.

Hypothesis attempts_allowed : 0 < MAX_RETRIES cfg.

Lemma single_retry_calls_once text note_id s :
  S (provider_calls s)
  <= provider_calls
       (snd (_generate_embedding_with_retry cfg env provider text note_id s)).
Proof.
  unfold _generate_embedding_with_retry.
  destruct (MAX_RETRIES cfg) as [|remaining] eqn:E; [lia|].
  cbn [retry_loop]. unfold try_except.
  pose proof (single_body_calls cfg env provider text s) as Hb.
  destruct (single_attempt cfg env provider text s) as [[r|e] s1];
    cbn [snd] in *; [lia|].
  destruct (is_Exception e); cbn [snd]; [|lia].
  match goal with
  | |- _ <= provider_calls (snd (?h s1)) =>
      assert (Hk : keeps (ledger (fun _ => true) false) h)
  end.
  { destruct (1 <? MAX_RETRIES cfg).
    - apply kl_bind; [apply keeps_log|intros _].
      apply kl_bind; [apply keeps_sleep|intros _].
      apply keeps_retry_loop; [now apply keeps_single_attempt|apply kl_ret].
    - apply kl_bind; [apply keeps_log|intros _]. apply kl_ret. }
  destruct (Hk s1) as [(new & _ & Hp & _) _ _ _ _]. lia.
Qed.

Lemma batch_retry_calls_once texts_with_ids s :
  S (provider_calls s)
  <= provider_calls
       (snd (_generate_embeddings_batch_with_retry cfg env texts_with_ids s)).
Proof.
  unfold _generate_embeddings_batch_with_retry. cbv zeta.
  destruct (MAX_RETRIES cfg) as [|remaining] eqn:E; [lia|].
  cbn [retry_loop]. unfold try_except.
  match goal with
  | |- context [batch_attempt cfg env ?texts ?ids s] =>
      pose proof (batch_body_calls cfg env texts ids s) as Hb;
      destruct (batch_attempt cfg env texts ids s) as [[r|e] s1]
  end; cbn [snd] in *; [lia|].
  destruct (is_Exception e); cbn [snd]; [|lia].
  match goal with
  | |- _ <= provider_calls (snd (?h s1)) =>
      assert (Hk : keeps (ledger (fun _ => true) false) h)
  end.
  { destruct (1 <? MAX_RETRIES cfg).
    - apply kl_bind; [apply keeps_log|intros _].
      apply kl_bind; [apply keeps_sleep|intros _].
      apply keeps_retry_loop; [now apply keeps_batch_attempt|apply kl_lift].
    - apply kl_bind; [apply keeps_log|intros _]. apply kl_lift. }
  destruct (Hk s1) as [(new & _ & Hp & _) _ _ _ _]. lia.
Qed.

Lemma single_iteration_asks total item s :
  asks cfg (EmbedOne provider (snd (snd item))) s
    (snd (single_iteration cfg env provider dry_run total item s)).
Proof.
  destruct item as [index [note text]]. cbn [fst snd].
  destruct (single_iteration_run cfg env provider dry_run total index note
              text s) as (r & s1 & Hrun & _ & (m & Hm & Hq & Hc) & ->).
  cbv zeta in Hrun.
  pose proof (single_retry_calls_once text (get "id" note)
                (add_events
                   [Log INFO
                      (MsgProcessing (get "id" note)
                         (py_or (get "title" note) untitled))] s)) as Hone.
  rewrite Hrun in Hone. cbn [snd add_events provider_calls] in Hone.
  exists m. split; [lia|].
  destruct r as [embedding|].
  - destruct (persist_facts env dry_run (get "id" note)
                (py_or (get "title" note) untitled) embedding s1)
      as (_ & _ & _ & _ & _ & _ & _ & _ & _ & _ & _ & _ & Hr & _).
    cbv zeta in Hr. cbn [snd].
    destruct (index <? total).
    + rewrite requests_add_events by reflexivity. now rewrite Hr.
    + now rewrite Hr.
  - rewrite record_error_run. cbn [snd add_error set_stats trace]. exact Hq.
Qed.

Lemma batch_iteration_asks valid_notes total_notes batch_start s :
  fst (batch_iteration cfg py env dry_run valid_notes total_notes batch_start s)
  = Ok tt ->
  asks cfg
    (EmbedBatch
       (chunk_texts
          (slice valid_notes batch_start
             (Nat.min (batch_start + GEMINI_BATCH_SIZE cfg) total_notes))))
    s
    (snd (batch_iteration cfg py env dry_run valid_notes total_notes
            batch_start s)).
Proof.
  rewrite batch_iteration_run. cbv zeta.
  match goal with
  | |- context [_generate_embeddings_batch_with_retry cfg env ?tw ?s0] =>
      destruct (batch_retry_frame cfg env tw s0)
        as (_ & _ & m & Hm & Hq & Hc);
      pose proof (batch_retry_calls_once tw s0) as Hone;
      destruct (_generate_embeddings_batch_with_retry cfg env tw s0)
        as [[embeddings|e] s1]
  end; cbn [fst snd provider_calls] in *; [|discriminate].
  match goal with
  | |- context [for_each ?items (batch_record py env dry_run embeddings) s1] =>
      destruct (batch_records_facts py env dry_run embeddings items s1)
        as (_ & _ & _ & _ & _ & _ & Hr & _);
      destruct (for_each items (batch_record py env dry_run embeddings) s1)
        as [[[]|e] s2]
  end; cbn [fst snd] in *; [|discriminate].
  intros _. exists m. cbn [add_events provider_calls] in Hone, Hc.
  split; [lia|].
  cbv zeta in Hr. rewrite map_map in Hq. cbn [fst] in Hq.
  rewrite requests_add_events in Hq by reflexivity.
  destruct (_ <? _).
  - rewrite requests_add_events by reflexivity. rewrite Hr. exact Hq.
  - rewrite Hr. exact Hq.
Qed.

Lemma single_loop_asks valid_notes s :
  exists counts,
    length counts = length valid_notes
    /\ Forall (fun m => 1 <= m <= MAX_RETRIES cfg) counts
    /\ requests
         (trace (snd (_process_notes_single cfg env provider dry_run
                        valid_notes s)))
       = requests (trace s)
         ++ repeated (map (fun item => EmbedOne provider (snd item))
                        valid_notes) counts.
Proof.
  unfold _process_notes_single.
  destruct (@for_each_asks _ cfg
              (fun item : nat * (dict * string) =>
                 EmbedOne provider (snd (snd item)))
              (single_iteration cfg env provider dry_run (length valid_notes))
              (enumerate valid_notes 1) s) as (counts & Hlen & Hall & Hreq).
  - intros x s0 _ _. apply single_iteration_asks.
  - apply (single_loop_facts cfg env provider dry_run (length valid_notes)
             valid_notes 1 s).
  - exists counts. unfold enumerate in *.
    rewrite length_combine, length_seq, Nat.min_id in Hlen.
    splits; auto. rewrite Hreq. f_equal. f_equal.
    rewrite <- (map_map snd (fun item => EmbedOne provider (snd item))).
    f_equal. clear. generalize 1.
    induction valid_notes as [|x l IH]; intros start; [reflexivity|].
    cbn. now rewrite IH.
Qed.

Lemma batch_loop_asks valid_notes s :
  fst (_process_notes_batch cfg py env dry_run valid_notes s) = Ok tt ->
  exists counts,
    length counts = length (chunks cfg valid_notes)
    /\ Forall (fun m => 1 <= m <= MAX_RETRIES cfg) counts
    /\ requests
         (trace (snd (_process_notes_batch cfg py env dry_run valid_notes s)))
       = requests (trace s)
         ++ repeated (map (fun chunk => EmbedBatch (chunk_texts chunk))
                        (chunks cfg valid_notes)) counts.
Proof.
  unfold _process_notes_batch. cbv zeta.
  destruct (GEMINI_BATCH_SIZE cfg =? 0); [discriminate|].
  rewrite bind_run. unfold log. rewrite emit_run. intros Hok.
  match goal with
  | |- context [for_each ?xs ?body ?s0] =>
      destruct (@for_each_asks _ cfg
                  (fun b =>
                     EmbedBatch
                       (chunk_texts
                          (slice valid_notes b
                             (Nat.min (b + GEMINI_BATCH_SIZE cfg)
                                (length valid_notes)))))
                  body xs s0) as (counts & Hlen & Hall & Hreq)
  end.
  - intros b s0 _. apply batch_iteration_asks.
  - exact Hok.
  - exists counts. unfold chunks. rewrite length_map, map_map.
    splits; auto. rewrite Hreq. rewrite requests_add_events by reflexivity.
    reflexivity.
Qed.

(** X23.  When at least one attempt is allowed, a dispatch that returns
    has sent the provider every accepted record, in the order of the
    fetch: with OpenAI one request per record, with Gemini one request
    per chunk, each repeated between once and [MAX_RETRIES] times before
    the next one is sent, and nothing else. *)
Theorem every_record_is_requested_in_order
  (valid_notes : list (dict * string)) (s : state) :
  let out := dispatch cfg py env provider dry_run valid_notes s in
  fst out = Ok tt ->
  exists counts,
    length counts = length (generation_units cfg provider valid_notes)
    /\ Forall (fun m => 1 <= m <= MAX_RETRIES cfg) counts
    /\ requests (trace (snd out))
       = requests (trace s)
         ++ repeated (generation_units cfg provider valid_notes) counts.
Proof.
  cbv zeta.
  pose proof (single_loop_asks valid_notes s) as Hs.
  pose proof (batch_loop_asks valid_notes s) as Hb.
  unfold dispatch, generation_units.
  destruct provider eqn:E; cbn [andb supports_batch].
  - intros _. destruct Hs as (counts & Hlen & Hall & Hreq).
    exists counts. rewrite length_map. auto.
  - intros Hok. destruct (Hb Hok) as (counts & Hlen & Hall & Hreq).
    exists counts. rewrite length_map. auto.
Qed.

End UnitFacts.

Lemma every_record_is_requested_in_order_witness :
  let out :=
    dispatch Sample.small_config RefRuntime.rt Sample.healthy GEMINI true
      Sample.candidates initial_state in
  exists counts,
    length counts = 2
    /\ Forall (fun m => 1 <= m <= 3) counts
    /\ requests (trace (snd out))
       = repeated
           [EmbedBatch
              [Sample.memo_text; "Title: Shopping | Tags: work, ideas"];
            EmbedBatch ["Title: Ideas | Content: a plan"]] counts.
Proof.
  exact (@every_record_is_requested_in_order Sample.small_config
           RefRuntime.rt Sample.healthy GEMINI true ltac:(cbn; lia)
           Sample.candidates initial_state ltac:(vm_compute; reflexivity)).
Defined.

(** ** A surplus vector of unexpected length *)

(** C9, as stated, fails on the batch path.  The warning loop of
    [_generate_embeddings_batch_with_retry] names [note_ids[i]] for every
    vector of the reply whose length is unexpected, also for a vector
    beyond the identities of the chunk.  With the constants of the file,
    one pending record and a reply that carries the record's vector, of
    the expected dimension, followed by one more vector: when the extra
    vector has the expected dimension too the record is stored and counted
    as processed after one call; when it is one component short, nothing
    else being changed, every attempt raises [IndexError], the batch is
    requested three times with pauses of 2 and 4 seconds, the record gets
    the failure marker and an error entry, nothing is stored, and the
    mismatch is not even logged. *)
Theorem surplus_mismatch_fails_the_chunk :
  let control :=
    process source_config RefRuntime.rt
      (Sample.with_surplus Sample.full_vector) GEMINI false initial_state in
  let run :=
    process source_config RefRuntime.rt
      (Sample.with_surplus Sample.short_vector) GEMINI false initial_state in
  (fst control = Ok tt
   /\ processed (stats (snd control)) = 1%Z
   /\ errors (stats (snd control)) = 0%Z
   /\ api_calls (stats (snd control)) = 1%Z
   /\ requests (trace (snd control)) = [EmbedBatch [Sample.memo_text]]
   /\ sleeps (trace (snd control)) = []
   /\ updates (trace (snd control)) = [Update (JInt 7) Sample.full_vector]
   /\ error_notes (snd control) = [])
  /\ (fst run = Ok tt
      /\ processed (stats (snd run)) = 0%Z
      /\ errors (stats (snd run)) = 1%Z
      /\ api_calls (stats (snd run)) = 3%Z
      /\ requests (trace (snd run))
         = repeat (EmbedBatch [Sample.memo_text]) 3
      /\ sleeps (trace (snd run)) = [backoff 1; backoff 2]
      /\ updates (trace (snd run)) = []
      /\ error_notes (snd run)
         = [error_entry generation_failed_in_batch Sample.memo]
      /\ filter is_dimension_warning (trace (snd run)) = []
      /\ filter is_error_log (trace (snd run))
         = [Log ERROR (MsgAllAttemptsFailed None)]).
Proof.
  vm_compute. splits; reflexivity.
Qed.

(** ** The exceptions that leave the dispatch *)


Section DispatchRaises.

Variable cfg : config.
Variable py : runtime.
Variable env : environment.
Variable provider : EmbeddingProvider.
Variable dry_run : bool.



End DispatchRaises.

